(** * SPORTON-AI: tracking store and trajectory metrics, verified against the sources

    Shallow embedding of
    - [app/services/physical/physical_analyzer.py]   (module [Physical]),
    - [app/services/technical/technical_analyzer.py] (module [Technical]),
    - [app/services/tactical/tactical_analyzer.py]   (module [Tactical]),
    - [app/services/video/video_processor.py]        (module [Video]).

    Numbers.  Python [int] is [Z] (or [nat] for counters that only grow) and
    Python [float] is modelled by exact rationals [Q]: every [+ - * /] and
    every comparison is the exact one, rounding of binary64 is not
    modelled.  [np.sqrt] and [scipy.spatial.distance.cosine] are library
    functions; the analyses take them as section variables, and a concrete
    square root that is exact on rational squares ([Qsqrt]) is used to run
    the analyses on concrete sequences. *)

From Stdlib Require Import ZArith QArith Qabs Qminmax Lia Lqa List Bool String.
From stdpp Require Import gmap sorting.
Import ListNotations.

Local Open Scope Q_scope.

(** ** Numeric helpers shared by all modules *)

(** Python's [a < b] on floats. *)
Definition Qltb (a b : Q) : bool := negb (Qle_bool b a).

(** Python's built-in [min(a, b)]: the first argument unless the second is
    strictly smaller. *)
Definition py_min (a b : Q) : Q := if Qltb b a then b else a.

(** Python's built-in [max(a, b)]: the first argument unless the second is
    strictly greater. *)
Definition py_max (a b : Q) : Q := if Qltb a b then b else a.

(** [sum(l)]: left-to-right accumulation starting from 0. *)
Definition Qsum (l : list Q) : Q := fold_left Qplus l 0.

(** [np.mean(l)] for a non-empty list. *)
Definition Qmean (l : list Q) : Q := Qsum l / inject_Z (Z.of_nat (length l)).

(** [max(l)] for a non-empty list [x :: l]. *)
Definition Qmaximum (x : Q) (l : list Q) : Q := fold_left py_max l x.

(** [int(q)]: truncation toward zero. *)
Definition py_int (q : Q) : Z := Z.quot (Qnum q) (Zpos (Qden q)).

(** A square root on [Q] that is exact on squares of rationals and rounds
    the numerator down elsewhere. *)
Definition Qsqrt (q : Q) : Q :=
  Qmake (Z.sqrt (Qnum q * Zpos (Qden q))) (Qden q).

(** The pairs [(l[i-1], l[i])] for [i] in [range(1, len(l))]. *)
Fixpoint consecutive {A : Type} (l : list A) : list (A * A) :=
  match l with
  | [] => []
  | x :: tl =>
      match tl with
      | [] => []
      | y :: _ => (x, y) :: consecutive tl
      end
  end.

(** ** Frame records (the dictionaries built by [process_video]) *)

Definition Box : Type := (Q * Q * Q * Q)%type.

(** The ['stats'] entry of a player in a frame record. *)
Record PlayerFrameStats := {
  fs_total_distance : Q;
  fs_avg_speed : Q;
  fs_max_speed : Q;
  fs_possession_time : nat;
  fs_time_in_frame : nat
}.

Record PlayerData := {
  id : Z;
  bbox : Box;
  position : Q * Q;
  confidence : Q;
  stats : PlayerFrameStats
}.

Record BallData := {
  ball_bbox : Box;
  ball_position : Q * Q;
  ball_confidence : Q
}.

Record PoseData := {
  player_bbox : Box;
  landmarks : list (Q * Q * Q)
}.

Record FrameData := {
  frame_number : nat;
  players : list PlayerData;
  ball : option BallData;
  poses : list PoseData
}.

(** ** physical_analyzer.py *)

Module Physical.

Record Distances := {
  total_distance : Q;
  high_intensity_distance : Q;
  sprint_distance : Q
}.

Record SpeedZones := {
  walking : Q;
  jogging : Q;
  running : Q;
  sprinting : Q
}.

Record Speeds := {
  avg_speed : Q;
  max_speed : Q;
  speed_zones : SpeedZones
}.

Record Sprints := {
  total_sprints : nat;
  avg_sprint_distance : Q;
  max_sprint_distance : Q
}.

Record EffortZones := {
  low : Q;
  medium : Q;
  high : Q
}.

Record Effort := {
  total_effort : Q;
  effort_zones : EffortZones
}.

Record Analysis := {
  distance : Distances;
  speed : Speeds;
  sprints : Sprints;
  effort : Effort
}.

(** [_empty_analysis] *)
Definition _empty_analysis : Analysis :=
  {| distance := {| total_distance := 0;
                    high_intensity_distance := 0;
                    sprint_distance := 0 |};
     speed := {| avg_speed := 0;
                 max_speed := 0;
                 speed_zones := {| walking := 0; jogging := 0;
                                   running := 0; sprinting := 0 |} |};
     sprints := {| total_sprints := 0;
                   avg_sprint_distance := 0;
                   max_sprint_distance := 0 |};
     effort := {| total_effort := 0;
                  effort_zones := {| low := 0; medium := 0; high := 0 |} |} |}.

Inductive Zone := Walking | Jogging | Running | Sprinting.

Inductive EffortZone := Low | Medium | High.

(** The [if speed <= 2 / elif speed <= 4 / elif speed <= 7 / else] chain of
    [_calculate_speeds]. *)
Definition classify_speed (speed : Q) : Zone :=
  if Qle_bool speed 2 then Walking
  else if Qle_bool speed 4 then Jogging
  else if Qle_bool speed 7 then Running
  else Sprinting.

(** [effort = min(100, (speed / 9) * 100)] *)
Definition step_effort (speed : Q) : Q := py_min 100 ((speed / 9) * 100).

(** The [if effort < 50 / elif effort < 80 / else] chain of
    [_analyze_effort]. *)
Definition classify_effort (e : Q) : EffortZone :=
  if Qltb e 50 then Low
  else if Qltb e 80 then Medium
  else High.

(** [(count / total) * 100] *)
Definition percentage (count total : nat) : Q :=
  (inject_Z (Z.of_nat count) / inject_Z (Z.of_nat total)) * 100.

Section WithSqrt.

Variable sqrt : Q -> Q.

(** [_calculate_frame_distance] *)
Definition _calculate_frame_distance (prev_frame curr_frame : FrameData) : Q :=
  match players prev_frame, players curr_frame with
  | prev :: _, curr :: _ =>
      let prev_pos := position prev in
      let curr_pos := position curr in
      sqrt ((fst curr_pos - fst prev_pos) ^ 2 + (snd curr_pos - snd prev_pos) ^ 2)
  | _, _ => 0
  end.

(** [_calculate_distances]: one loop iteration on the accumulator
    [(total_distance, high_intensity_distance, sprint_distance)]. *)
Definition distances_step (acc : Q * Q * Q) (pc : FrameData * FrameData)
  : Q * Q * Q :=
  let '(total, hi, sp) := acc in
  let distance := _calculate_frame_distance (fst pc) (snd pc) in
  let total := total + distance in
  let speed := distance * 30 in
  let hi := if Qltb 7 speed then hi + distance else hi in
  let sp := if Qltb 8 speed then sp + distance else sp in
  (total, hi, sp).

Definition _calculate_distances (player_frames : list FrameData) : Distances :=
  let '(total, hi, sp) :=
    fold_left distances_step (consecutive player_frames) (0, 0, 0) in
  {| total_distance := total;
     high_intensity_distance := hi;
     sprint_distance := sp |}.

(** [_calculate_speeds]: loop state is the list [speeds] and the four
    zone counters. *)
Record SpeedAcc := {
  sa_speeds : list Q;
  sa_walking : nat;
  sa_jogging : nat;
  sa_running : nat;
  sa_sprinting : nat
}.

Definition speeds_step (acc : SpeedAcc) (pc : FrameData * FrameData) : SpeedAcc :=
  let distance := _calculate_frame_distance (fst pc) (snd pc) in
  let speed := distance * 30 in
  let speeds := sa_speeds acc ++ [speed] in
  match classify_speed speed with
  | Walking => {| sa_speeds := speeds; sa_walking := S (sa_walking acc);
                  sa_jogging := sa_jogging acc; sa_running := sa_running acc;
                  sa_sprinting := sa_sprinting acc |}
  | Jogging => {| sa_speeds := speeds; sa_walking := sa_walking acc;
                  sa_jogging := S (sa_jogging acc); sa_running := sa_running acc;
                  sa_sprinting := sa_sprinting acc |}
  | Running => {| sa_speeds := speeds; sa_walking := sa_walking acc;
                  sa_jogging := sa_jogging acc; sa_running := S (sa_running acc);
                  sa_sprinting := sa_sprinting acc |}
  | Sprinting => {| sa_speeds := speeds; sa_walking := sa_walking acc;
                    sa_jogging := sa_jogging acc; sa_running := sa_running acc;
                    sa_sprinting := S (sa_sprinting acc) |}
  end.

Definition speeds_loop (player_frames : list FrameData) : SpeedAcc :=
  fold_left speeds_step (consecutive player_frames)
    {| sa_speeds := []; sa_walking := 0; sa_jogging := 0;
       sa_running := 0; sa_sprinting := 0 |}.

Definition _calculate_speeds (player_frames : list FrameData) : Speeds :=
  let acc := speeds_loop player_frames in
  let total_frames :=
    (sa_walking acc + sa_jogging acc + sa_running acc + sa_sprinting acc)%nat in
  let zones :=
    if (0 <? total_frames)%nat then
      {| walking := percentage (sa_walking acc) total_frames;
         jogging := percentage (sa_jogging acc) total_frames;
         running := percentage (sa_running acc) total_frames;
         sprinting := percentage (sa_sprinting acc) total_frames |}
    else
      {| walking := 0; jogging := 0; running := 0; sprinting := 0 |} in
  {| avg_speed := match sa_speeds acc with
                  | [] => 0
                  | _ :: _ => Qmean (sa_speeds acc)
                  end;
     max_speed := match sa_speeds acc with
                  | [] => 0
                  | s :: rest => Qmaximum s rest
                  end;
     speed_zones := zones |}.

(** [_analyze_sprints]: loop state is
    [(sprint_distances, current_sprint, is_sprinting)]. *)
Definition sprints_step (acc : list Q * Q * bool) (pc : FrameData * FrameData)
  : list Q * Q * bool :=
  let '(sprint_distances, current_sprint, is_sprinting) := acc in
  let distance := _calculate_frame_distance (fst pc) (snd pc) in
  let speed := distance * 30 in
  if Qltb 8 speed then
    (sprint_distances, current_sprint + distance, true)
  else if is_sprinting then
    (if Qltb 0 current_sprint
     then sprint_distances ++ [current_sprint]
     else sprint_distances,
     0, false)
  else (sprint_distances, current_sprint, is_sprinting).

(** The list [sprint_distances] when [_analyze_sprints] reaches its
    [return]. *)
Definition sprint_distances_of (player_frames : list FrameData) : list Q :=
  let '(sprint_distances, current_sprint, _) :=
    fold_left sprints_step (consecutive player_frames) ([], 0, false) in
  if Qltb 0 current_sprint
  then sprint_distances ++ [current_sprint]
  else sprint_distances.

Definition _analyze_sprints (player_frames : list FrameData) : Sprints :=
  let sprint_distances := sprint_distances_of player_frames in
  {| total_sprints := length sprint_distances;
     avg_sprint_distance := match sprint_distances with
                            | [] => 0
                            | _ :: _ => Qmean sprint_distances
                            end;
     max_sprint_distance := match sprint_distances with
                            | [] => 0
                            | s :: rest => Qmaximum s rest
                            end |}.

(** [_analyze_effort]: loop state is
    [(total_effort, low, medium, high)]. *)
Definition effort_step (acc : Q * nat * nat * nat) (pc : FrameData * FrameData)
  : Q * nat * nat * nat :=
  let '(total_effort, lo, me, hi) := acc in
  let distance := _calculate_frame_distance (fst pc) (snd pc) in
  let speed := distance * 30 in
  let effort := step_effort speed in
  let total_effort := total_effort + effort in
  match classify_effort effort with
  | Low => (total_effort, S lo, me, hi)
  | Medium => (total_effort, lo, S me, hi)
  | High => (total_effort, lo, me, S hi)
  end.

Definition _analyze_effort (player_frames : list FrameData) : Effort :=
  let '(total_effort, lo, me, hi) :=
    fold_left effort_step (consecutive player_frames) (0, 0%nat, 0%nat, 0%nat) in
  let total_frames := (lo + me + hi)%nat in
  let zones :=
    if (0 <? total_frames)%nat then
      {| low := percentage lo total_frames;
         medium := percentage me total_frames;
         high := percentage hi total_frames |}
    else {| low := 0; medium := 0; high := 0 |} in
  let avg_effort :=
    match player_frames with
    | [] => 0
    | _ :: _ => total_effort / inject_Z (Z.of_nat (length player_frames))
    end in
  {| total_effort := avg_effort; effort_zones := zones |}.

(** [analyze] *)
Definition analyze (player_frames : list FrameData) : Analysis :=
  match player_frames with
  | [] => _empty_analysis
  | _ :: _ =>
      {| distance := _calculate_distances player_frames;
         speed := _calculate_speeds player_frames;
         sprints := _analyze_sprints player_frames;
         effort := _analyze_effort player_frames |}
  end.

End WithSqrt.

End Physical.

(** ** technical_analyzer.py *)

Module Technical.

Record Passes := {
  total_passes : nat;
  successful_passes : nat;
  pass_accuracy : Q;
  long_passes : nat;
  short_passes : nat
}.

Record Shots := {
  total_shots : nat;
  shots_on_target : nat;
  goals : nat;
  shot_accuracy : Q
}.

Record Possession := {
  total_touches : nat;
  possession_duration : Q;
  possession_percentage : Q
}.

Record Tackles := {
  successful_tackles : nat;
  failed_tackles : nat;
  tackle_success_rate : Q
}.

Record Interceptions := {
  total_interceptions : nat;
  successful_interceptions : nat
}.

Record Analysis := {
  passes : Passes;
  shots : Shots;
  ball_possession : Possession;
  tackles : Tackles;
  interceptions : Interceptions
}.

(** The thresholds set in [__init__]. *)
Definition pass_threshold : Q := 7 # 10.
Definition shot_threshold : Q := 8 # 10.
Definition possession_threshold : Q := 2.

(** [_is_pass_successful], [_is_shot_on_target], [_is_goal]: each body is
    [return True]. *)
Definition _is_pass_successful (current_frame next_frame : FrameData) : bool := true.
Definition _is_shot_on_target (ball_position : Q * Q) : bool := true.
Definition _is_goal (ball_position : Q * Q) : bool := true.

Section WithSqrt.

Variable sqrt : Q -> Q.

(** [_calculate_ball_movement] *)
Definition _calculate_ball_movement (pos1 pos2 : Q * Q) : Q :=
  sqrt ((fst pos2 - fst pos1) ^ 2 + (snd pos2 - snd pos1) ^ 2).

(** [_calculate_ball_velocity] *)
Definition _calculate_ball_velocity (pos1 pos2 : Q * Q) : Q :=
  _calculate_ball_movement pos1 pos2 * 30.

(** [_is_player_in_possession] *)
Definition _is_player_in_possession (player_pos ball_pos : Q * Q) : bool :=
  Qltb (_calculate_ball_movement player_pos ball_pos) possession_threshold.

(** [_analyze_passes]: one loop iteration on the counters
    [(total_passes, successful_passes, long_passes, short_passes)]. *)
Definition passes_step (acc : nat * nat * nat * nat) (cn : FrameData * FrameData)
  : nat * nat * nat * nat :=
  let '(total, successful, long, short) := acc in
  let (current_frame, next_frame) := cn in
  match ball current_frame, ball next_frame with
  | Some cb, Some nb =>
      let ball_movement :=
        _calculate_ball_movement (ball_position cb) (ball_position nb) in
      if Qltb pass_threshold ball_movement then
        let total := S total in
        let '(long, short) :=
          if Qltb 20 ball_movement then (S long, short) else (long, S short) in
        let successful :=
          if _is_pass_successful current_frame next_frame
          then S successful else successful in
        (total, successful, long, short)
      else acc
  | _, _ => acc
  end.

Definition _analyze_passes (frames_data : list FrameData) : Passes :=
  let '(total, successful, long, short) :=
    fold_left passes_step (consecutive frames_data) (0, 0, 0, 0)%nat in
  {| total_passes := total;
     successful_passes := successful;
     pass_accuracy :=
       if (0 <? total)%nat
       then (inject_Z (Z.of_nat successful) / inject_Z (Z.of_nat total)) * 100
       else 0;
     long_passes := long;
     short_passes := short |}.

(** [_analyze_shots]: one loop iteration on
    [(total_shots, shots_on_target, goals)]. *)
Definition shots_step (acc : nat * nat * nat) (cn : FrameData * FrameData)
  : nat * nat * nat :=
  let '(total, on_target, goals) := acc in
  let (current_frame, next_frame) := cn in
  match ball current_frame, ball next_frame with
  | Some cb, Some nb =>
      let ball_velocity :=
        _calculate_ball_velocity (ball_position cb) (ball_position nb) in
      if Qltb shot_threshold ball_velocity then
        if _is_shot_on_target (ball_position nb) then
          if _is_goal (ball_position nb)
          then (S total, S on_target, S goals)
          else (S total, S on_target, goals)
        else (S total, on_target, goals)
      else acc
  | _, _ => acc
  end.

Definition _analyze_shots (frames_data : list FrameData) : Shots :=
  let '(total, on_target, goals) :=
    fold_left shots_step (consecutive frames_data) (0, 0, 0)%nat in
  {| total_shots := total;
     shots_on_target := on_target;
     goals := goals;
     shot_accuracy :=
       if (0 <? total)%nat
       then (inject_Z (Z.of_nat on_target) / inject_Z (Z.of_nat total)) * 100
       else 0 |}.

(** [_analyze_possession]: the inner loop over the players of one frame,
    then the outer loop over the frames, on
    [(total_touches, possession_duration)]. *)
Definition possession_player_step (ball_pos : Q * Q) (acc : nat * Q)
  (player : PlayerData) : nat * Q :=
  if _is_player_in_possession (position player) ball_pos
  then (S (fst acc), snd acc + 1 / 30)
  else acc.

Definition possession_step (acc : nat * Q) (frame : FrameData) : nat * Q :=
  match ball frame with
  | Some b => fold_left (possession_player_step (ball_position b)) (players frame) acc
  | None => acc
  end.

Definition _analyze_possession (frames_data : list FrameData) : Possession :=
  let '(touches, duration) := fold_left possession_step frames_data (0%nat, 0) in
  let total_duration := inject_Z (Z.of_nat (length frames_data)) / 30 in
  {| total_touches := touches;
     possession_duration := duration;
     possession_percentage :=
       if Qltb 0 total_duration then (duration / total_duration) * 100 else 0 |}.

(** [_analyze_tackles] *)
Definition _analyze_tackles (frames_data : list FrameData) : Tackles :=
  {| successful_tackles := 0; failed_tackles := 0; tackle_success_rate := 0 |}.

(** [_analyze_interceptions] *)
Definition _analyze_interceptions (frames_data : list FrameData) : Interceptions :=
  {| total_interceptions := 0; successful_interceptions := 0 |}.

(** [analyze] *)
Definition analyze (frames_data : list FrameData) : Analysis :=
  {| passes := _analyze_passes frames_data;
     shots := _analyze_shots frames_data;
     ball_possession := _analyze_possession frames_data;
     tackles := _analyze_tackles frames_data;
     interceptions := _analyze_interceptions frames_data |}.

End WithSqrt.

End Technical.

(** ** tactical_analyzer.py *)

Module Tactical.

(** The keys of [self.zones]. *)
Inductive FieldZone :=
| defensive_third | middle_third | attacking_third
| left_wing | center | right_wing.

Record Positioning := {
  heat_map : list (list Q);
  zone_coverage : list (FieldZone * Q);
  average_position : Q * Q
}.

Record PassTypes := { short : nat; medium : nat; long : nat }.

Record PassDirections := { forward : nat; backward : nat; lateral : nat }.

Record Passing := {
  total_passes : nat;
  successful_passes : nat;
  pass_types : PassTypes;
  pass_directions : PassDirections
}.

Record OffBall := {
  movement_score : Q;
  space_creation : Q;
  support_runs : nat
}.

Record SpaceUse := {
  space_score : Q;
  space_created : Q;
  space_occupied : Q
}.

Record Analysis := {
  positioning : Positioning;
  passing : Passing;
  off_ball_movement : OffBall;
  space_utilization : SpaceUse
}.

(** [_empty_analysis] *)
Definition _empty_analysis : Analysis :=
  {| positioning := {| heat_map := [];
                       zone_coverage := [];
                       average_position := (0, 0) |};
     passing := {| total_passes := 0;
                   successful_passes := 0;
                   pass_types := {| short := 0; medium := 0; long := 0 |};
                   pass_directions :=
                     {| forward := 0; backward := 0; lateral := 0 |} |};
     off_ball_movement := {| movement_score := 0;
                             space_creation := 0;
                             support_runs := 0 |};
     space_utilization := {| space_score := 0;
                             space_created := 0;
                             space_occupied := 0 |} |}.

Section Analyze.

(** The four sub-analyses of [analyze]; [analyze] reaches them only past
    its emptiness guard. *)
Variable _analyze_positioning : list FrameData -> Positioning.
Variable _analyze_passing : list FrameData -> list FrameData -> Passing.
Variable _analyze_off_ball_movement : list FrameData -> list FrameData -> OffBall.
Variable _analyze_space_utilization : list FrameData -> list FrameData -> SpaceUse.

(** [analyze]: [if not player_frames or not team_frames: return
    self._empty_analysis()]. *)
Definition analyze (player_frames team_frames : list FrameData) : Analysis :=
  match player_frames, team_frames with
  | [], _ => _empty_analysis
  | _, [] => _empty_analysis
  | _ :: _, _ :: _ =>
      {| positioning := _analyze_positioning player_frames;
         passing := _analyze_passing player_frames team_frames;
         off_ball_movement := _analyze_off_ball_movement player_frames team_frames;
         space_utilization := _analyze_space_utilization player_frames team_frames |}
  end.

End Analyze.

End Tactical.

(** ** video_processor.py *)

Module Video.

Definition Features : Type := list Q.

(** [deque(maxlen=30)]: appending to a full deque drops its oldest
    (leftmost) element. *)
Definition maxlen : nat := 30.

Definition deque_append {A : Type} (d : list A) (x : A) : list A :=
  if (length d <? maxlen)%nat then d ++ [x] else tl d ++ [x].

(** class [Player] *)
Record Player := {
  player_id : Z;
  positions : list (Q * Q);
  bbox_history : list Box;
  pose_history : list (list (Q * Q * Q));
  last_seen : nat;
  total_distance : Q;
  avg_speed : Q;
  max_speed : Q;
  possession_frames : nat;
  zone_presence : list (string * nat);
  confidence_history : list Q;
  appearance_features : list Features;
  motion_features : list Features;
  pose_features : list Features
}.

(** [Player.__init__] *)
Definition Player_init (id : Z) (initial_position : Q * Q) : Player :=
  {| player_id := id;
     positions := deque_append [] initial_position;
     bbox_history := [];
     pose_history := [];
     last_seen := 0;
     total_distance := 0;
     avg_speed := 0;
     max_speed := 0;
     possession_frames := 0;
     zone_presence := [];
     confidence_history := [];
     appearance_features := [];
     motion_features := [];
     pose_features := [] |}.

(** The mutable attributes of a [VideoProcessor] that [process_video]
    reads or writes ([self.players], [self.frame_count], ...). *)
Record VideoProcessor := {
  self_players : gmap Z Player;
  self_next_player_id : Z;
  self_frame_count : nat;
  self_ball_positions : list (Q * Q);
  self_track_history : gmap Z (list ((Q * Q) * Q));
  self_occlusion_history : gmap Z (list (Z * Q));
  self_feature_history : gmap Z Features
}.

(** [VideoProcessor.__init__] *)
Definition VideoProcessor_init : VideoProcessor :=
  {| self_players := ∅;
     self_next_player_id := 1;
     self_frame_count := 0;
     self_ball_positions := [];
     self_track_history := ∅;
     self_occlusion_history := ∅;
     self_feature_history := ∅ |}.

Definition set_players (vp : VideoProcessor) (ps : gmap Z Player) : VideoProcessor :=
  {| self_players := ps;
     self_next_player_id := self_next_player_id vp;
     self_frame_count := self_frame_count vp;
     self_ball_positions := self_ball_positions vp;
     self_track_history := self_track_history vp;
     self_occlusion_history := self_occlusion_history vp;
     self_feature_history := self_feature_history vp |}.

Definition set_frame_count (vp : VideoProcessor) (n : nat) : VideoProcessor :=
  {| self_players := self_players vp;
     self_next_player_id := self_next_player_id vp;
     self_frame_count := n;
     self_ball_positions := self_ball_positions vp;
     self_track_history := self_track_history vp;
     self_occlusion_history := self_occlusion_history vp;
     self_feature_history := self_feature_history vp |}.

Definition set_ball_positions (vp : VideoProcessor) (bp : list (Q * Q)) : VideoProcessor :=
  {| self_players := self_players vp;
     self_next_player_id := self_next_player_id vp;
     self_frame_count := self_frame_count vp;
     self_ball_positions := bp;
     self_track_history := self_track_history vp;
     self_occlusion_history := self_occlusion_history vp;
     self_feature_history := self_feature_history vp |}.

Definition set_track_history (vp : VideoProcessor)
  (th : gmap Z (list ((Q * Q) * Q))) : VideoProcessor :=
  {| self_players := self_players vp;
     self_next_player_id := self_next_player_id vp;
     self_frame_count := self_frame_count vp;
     self_ball_positions := self_ball_positions vp;
     self_track_history := th;
     self_occlusion_history := self_occlusion_history vp;
     self_feature_history := self_feature_history vp |}.

Definition set_occlusion_history (vp : VideoProcessor)
  (oh : gmap Z (list (Z * Q))) : VideoProcessor :=
  {| self_players := self_players vp;
     self_next_player_id := self_next_player_id vp;
     self_frame_count := self_frame_count vp;
     self_ball_positions := self_ball_positions vp;
     self_track_history := self_track_history vp;
     self_occlusion_history := oh;
     self_feature_history := self_feature_history vp |}.

Definition set_feature_history (vp : VideoProcessor)
  (fh : gmap Z Features) : VideoProcessor :=
  {| self_players := self_players vp;
     self_next_player_id := self_next_player_id vp;
     self_frame_count := self_frame_count vp;
     self_ball_positions := self_ball_positions vp;
     self_track_history := self_track_history vp;
     self_occlusion_history := self_occlusion_history vp;
     self_feature_history := fh |}.

(** One box of the detector's result: [box.xyxy[0]], [box.conf[0]],
    [box.cls[0]], and what [_extract_appearance_features] returns for the
    crop under it. *)
Record YoloBox := {
  xyxy : Box;
  conf : Q;
  cls : Z;
  hog : option Features
}.

(** A value of [yolo_boxes_current]: [(x1, y1, x2, y2, conf, cls)] or
    [(x1, y1, x2, y2, conf, cls, features)]. *)
Record BoxData := {
  bd_box : Box;
  bd_conf : Q;
  bd_cls : Z;
  bd_features : option Features
}.

(** What the tracker returns for one track: [is_confirmed()], [to_ltrb()],
    [track_id], [get_det_class()]. *)
Record Track := {
  is_confirmed : bool;
  to_ltrb : Box;
  track_id : Z;
  get_det_class : Z
}.

(** What the collaborators deliver for one processed frame: the detector's
    boxes, the tracker's tracks, and the pose estimator's landmarks for a
    player's crop. *)
Record FrameInput := {
  yolo_boxes : list YoloBox;
  tracks : list Track;
  pose_landmarks : PlayerData -> option (list (Q * Q * Q))
}.

(** The frame-local variables of the track loop. *)
Record FrameLocal := {
  other_boxes : list (Z * Box);
  frame_players_data : list PlayerData;
  ball_data : option BallData
}.

(** The dictionary entry of [player_stats] for one player. *)
Record PlayerStats := {
  ps_total_frames : nat;
  ps_total_distance : Q;
  ps_avg_speed : Q;
  ps_max_speed : Q;
  ps_possession_percentage : Q;
  ps_zone_presence : list (string * nat)
}.

(** The dictionary returned by [process_video]. *)
Record Result := {
  frames : list FrameData;
  player_stats : gmap Z PlayerStats;
  total_frames : nat
}.

(** [d[k] = v] on an insertion-ordered dictionary. *)
Fixpoint dict_set {K V : Type} (eqb : K -> K -> bool) (k : K) (v : V)
  (d : list (K * V)) : list (K * V) :=
  match d with
  | [] => [(k, v)]
  | (k', v') :: rest =>
      if eqb k k' then (k', v) :: rest else (k', v') :: dict_set eqb k v rest
  end.

Definition box_eqb (a b : Box) : bool :=
  let '(a1, a2, a3, a4) := a in
  let '(b1, b2, b3, b4) := b in
  Qeq_bool a1 b1 && Qeq_bool a2 b2 && Qeq_bool a3 b3 && Qeq_bool a4 b4.

(** The detection loop of [process_video]: keeps classes 0 (person) and
    32 (ball) and fills [yolo_boxes_current]. *)
Definition yolo_step (d : list (Box * BoxData)) (b : YoloBox) : list (Box * BoxData) :=
  if (cls b =? 0)%Z || (cls b =? 32)%Z then
    dict_set box_eqb (xyxy b)
      {| bd_box := xyxy b; bd_conf := conf b; bd_cls := cls b;
         bd_features := hog b |} d
  else d.

Definition yolo_boxes_current_of (boxes : list YoloBox) : list (Box * BoxData) :=
  fold_left yolo_step boxes [].

(** [_calculate_iou].  For two degenerate boxes the divisor is 0: numpy
    then yields nan, which no comparison accepts; here the quotient is 0,
    which the [> 0.3] tests of the callers reject as well. *)
Definition _calculate_iou (box1 box2 : Box) : Q :=
  let '(a1, b1, c1, d1) := box1 in
  let '(a2, b2, c2, d2) := box2 in
  let x1 := py_max a1 a2 in
  let y1 := py_max b1 b2 in
  let x2 := py_min c1 c2 in
  let y2 := py_min d1 d2 in
  if Qltb x2 x1 || Qltb y2 y1 then 0
  else
    let intersection := (x2 - x1) * (y2 - y1) in
    let box1_area := (c1 - a1) * (d1 - b1) in
    let box2_area := (c2 - a2) * (d2 - b2) in
    intersection / (box1_area + box2_area - intersection).

(** [_predict_next_position]; [np.mean(velocities, axis=0)] is the pair of
    the means of the two components. *)
Definition _predict_next_position (positions : list (Q * Q))
  (velocities : list (Q * Q)) : option (Q * Q) :=
  if (length positions <? 2)%nat || (length velocities <? 1)%nat then None
  else
    match last positions with
    | None => None
    | Some last_pos =>
        let avg_velocity := (Qmean (map fst velocities), Qmean (map snd velocities)) in
        Some (fst last_pos + fst avg_velocity, snd last_pos + snd avg_velocity)
    end.

(** The list [velocities] built in [_handle_occlusion]. *)
Definition velocities_of (positions : list (Q * Q)) : list (Q * Q) :=
  map (fun pc : (Q * Q) * (Q * Q) =>
         (fst (snd pc) - fst (fst pc), snd (snd pc) - snd (fst pc)))
      (consecutive positions).

(** The overlap loop of [_handle_occlusion]. *)
Definition overlap_step (current_box : Box) (hist : list (Z * Q))
  (other : Z * Box) : list (Z * Q) :=
  let iou := _calculate_iou current_box (snd other) in
  if Qltb (3 # 10) iou then hist ++ [(fst other, iou)] else hist.

(** [_handle_occlusion]: the new [self.occlusion_history] and the returned
    position. *)
Definition _handle_occlusion (vp : VideoProcessor) (track_id : Z)
  (current_box : Box) (other_boxes : list (Z * Box))
  : gmap Z (list (Z * Q)) * option (Q * Q) :=
  let hist0 := default [] (self_occlusion_history vp !! track_id) in
  let hist := fold_left (overlap_step current_box) other_boxes hist0 in
  let occlusion_history := <[track_id := hist]> (self_occlusion_history vp) in
  let predicted :=
    if (0 <? length hist)%nat then
      match self_players vp !! track_id with
      | Some player =>
          if (1 <? length (positions player))%nat then
            _predict_next_position (positions player)
              (velocities_of (positions player))
          else None
      | None => None
      end
    else None in
  (occlusion_history, predicted).

(** The last [n] elements of a list: [l[-n:]]. *)
Definition lastn {A : Type} (n : nat) (l : list A) : list A :=
  skipn (length l - n) l.

(** The smoothing block of [process_video]: the centre computed from the
    last five entries of the track's history; [None] when the division by
    [sum(confidences)] raises. *)
Definition smoothed_center (history : list ((Q * Q) * Q)) : option (Q * Q) :=
  let recent := lastn 5 history in
  let confidences := map snd recent in
  let total := Qsum confidences in
  if Qeq_bool total 0 then None
  else
    Some (inject_Z (py_int (Qsum (map (fun pc => fst (fst pc) * snd pc) recent) / total)),
          inject_Z (py_int (Qsum (map (fun pc => snd (fst pc) * snd pc) recent) / total))).

Section WithLibraries.

(** [np.sqrt], [scipy.spatial.distance.cosine], and the numpy parts of
    [_extract_motion_features] and [_extract_pose_features]. *)
Variable sqrt : Q -> Q.
Variable cosine : Features -> Features -> Q.
Variable motion_summary : list (Q * Q) -> Features.
Variable pose_angles : list (Q * Q * Q) -> Features.

(** [_calculate_distance] *)
Definition _calculate_distance (pos1 pos2 : Q * Q) : Q :=
  sqrt ((fst pos2 - fst pos1) ^ 2 + (snd pos2 - snd pos1) ^ 2).

(** [_extract_motion_features] *)
Definition _extract_motion_features (positions : list (Q * Q)) : option Features :=
  if (length positions <? 2)%nat then None else Some (motion_summary positions).

(** [_extract_pose_features] *)
Definition _extract_pose_features (landmarks : option (list (Q * Q * Q)))
  : option Features :=
  match landmarks with
  | None => None
  | Some l => Some (pose_angles l)
  end.

(** [_update_player_stats] *)
Definition _update_player_stats (frame_count : nat) (player : Player)
  (new_position : Q * Q) : Player :=
  let n := inject_Z (Z.of_nat (length (positions player))) in
  let '(total_distance', avg_speed', max_speed') :=
    match last (positions player) with
    | Some last_pos =>
        let distance := _calculate_distance last_pos new_position in
        let speed := distance / 3 in
        (total_distance player + distance,
         (avg_speed player * n + speed) / (n + 1),
         py_max (max_speed player) speed)
    | None => (total_distance player, avg_speed player, max_speed player)
    end in
  {| player_id := player_id player;
     positions := deque_append (positions player) new_position;
     bbox_history := bbox_history player;
     pose_history := pose_history player;
     last_seen := frame_count;
     total_distance := total_distance';
     avg_speed := avg_speed';
     max_speed := max_speed';
     possession_frames := possession_frames player;
     zone_presence := zone_presence player;
     confidence_history := confidence_history player;
     appearance_features := appearance_features player;
     motion_features := motion_features player;
     pose_features := pose_features player |}.

Definition add_motion_features (player : Player) (f : Features) : Player :=
  {| player_id := player_id player;
     positions := positions player;
     bbox_history := bbox_history player;
     pose_history := pose_history player;
     last_seen := last_seen player;
     total_distance := total_distance player;
     avg_speed := avg_speed player;
     max_speed := max_speed player;
     possession_frames := possession_frames player;
     zone_presence := zone_presence player;
     confidence_history := confidence_history player;
     appearance_features := appearance_features player;
     motion_features := deque_append (motion_features player) f;
     pose_features := pose_features player |}.

Definition add_pose_features (player : Player) (f : Features) : Player :=
  {| player_id := player_id player;
     positions := positions player;
     bbox_history := bbox_history player;
     pose_history := pose_history player;
     last_seen := last_seen player;
     total_distance := total_distance player;
     avg_speed := avg_speed player;
     max_speed := max_speed player;
     possession_frames := possession_frames player;
     zone_presence := zone_presence player;
     confidence_history := confidence_history player;
     appearance_features := appearance_features player;
     motion_features := motion_features player;
     pose_features := deque_append (pose_features player) f |}.

(** The fused score of one candidate box for one track. *)
Definition match_score (feature_history : gmap Z Features) (track_id : Z)
  (ltrb : Box) (kv : Box * BoxData) : Q :=
  let iou := _calculate_iou ltrb (fst kv) in
  match bd_features (snd kv) with
  | Some features =>
      match feature_history !! track_id with
      | Some history =>
          let similarity := 1 - cosine features history in
          (7 # 10) * iou + (3 # 10) * similarity
      | None => iou
      end
  | None => iou
  end.

(** The search for [best_box]: loop state is [(best_box, max_score)],
    starting from [(None, 0.3)]. *)
Definition best_step (feature_history : gmap Z Features) (track_id : Z)
  (ltrb : Box) (acc : option BoxData * Q) (kv : Box * BoxData)
  : option BoxData * Q :=
  let score := match_score feature_history track_id ltrb kv in
  if Qltb (snd acc) score then (Some (snd kv), score) else acc.

Definition find_best_box (feature_history : gmap Z Features) (track_id : Z)
  (ltrb : Box) (yolo_boxes_current : list (Box * BoxData)) : option BoxData :=
  fst (fold_left (best_step feature_history track_id ltrb)
         yolo_boxes_current (None, 3 # 10)).

(** The person branch ([class_id == 0]) of the track loop. *)
Definition update_person (vp : VideoProcessor) (loc : FrameLocal)
  (track_id : Z) (best_box : BoxData) (center : Q * Q)
  : VideoProcessor * FrameLocal :=
  let player0 :=
    match self_players vp !! track_id with
    | Some p => p
    | None => Player_init track_id center
    end in
  let player1 := _update_player_stats (self_frame_count vp) player0 center in
  let player2 :=
    match _extract_motion_features (positions player1) with
    | Some f => add_motion_features player1 f
    | None => player1
    end in
  let player_data :=
    {| id := track_id;
       bbox := bd_box best_box;
       position := (fst center / 640, snd center / 480);
       confidence := bd_conf best_box;
       stats := {| fs_total_distance := total_distance player2;
                   fs_avg_speed := avg_speed player2;
                   fs_max_speed := max_speed player2;
                   fs_possession_time := possession_frames player2;
                   fs_time_in_frame := length (positions player2) |} |} in
  (set_players vp (<[track_id := player2]> (self_players vp)),
   {| other_boxes := dict_set Z.eqb track_id (bd_box best_box) (other_boxes loc);
      frame_players_data := frame_players_data loc ++ [player_data];
      ball_data := ball_data loc |}).

(** The ball branch ([class_id == 32]) of the track loop. *)
Definition update_ball (vp : VideoProcessor) (loc : FrameLocal)
  (best_box : BoxData) (center : Q * Q) : VideoProcessor * FrameLocal :=
  (set_ball_positions vp (self_ball_positions vp ++ [center]),
   {| other_boxes := other_boxes loc;
      frame_players_data := frame_players_data loc;
      ball_data := Some {| ball_bbox := bd_box best_box;
                           ball_position := (fst center / 640, snd center / 480);
                           ball_confidence := bd_conf best_box |} |}).

(** The detection centre [(int((x1 + x2) / 2), int((y1 + y2) / 2))]. *)
Definition box_center (b : Box) : Q * Q :=
  let '(x1, y1, x2, y2) := b in
  (inject_Z (py_int ((x1 + x2) / 2)), inject_Z (py_int ((y1 + y2) / 2))).

(** The body of [for track in tracks]. *)
Definition process_track (yolo_boxes_current : list (Box * BoxData))
  (st : VideoProcessor * FrameLocal) (track : Track)
  : VideoProcessor * FrameLocal :=
  let (vp, loc) := st in
  if negb (is_confirmed track) then st
  else
    let id := track_id track in
    match find_best_box (self_feature_history vp) id (to_ltrb track)
            yolo_boxes_current with
    | None => st
    | Some best_box =>
        let center := box_center (bd_box best_box) in
        let (occlusion_history, predicted_pos) :=
          _handle_occlusion vp id (bd_box best_box) (other_boxes loc) in
        let vp := set_occlusion_history vp occlusion_history in
        let center := default center predicted_pos in
        let history :=
          default [] (self_track_history vp !! id) ++ [(center, bd_conf best_box)] in
        let vp := set_track_history vp (<[id := history]> (self_track_history vp)) in
        let vp :=
          match bd_features best_box with
          | Some f => set_feature_history vp (<[id := f]> (self_feature_history vp))
          | None => vp
          end in
        let center' :=
          if (5 <? length history)%nat then smoothed_center history
          else Some center in
        match center' with
        | None => (vp, loc)
        | Some center =>
            if (get_det_class track =? 0)%Z then update_person vp loc id best_box center
            else if (get_det_class track =? 32)%Z then update_ball vp loc best_box center
            else (vp, loc)
        end
    end.

(** [_analyze_poses]: one iteration of its loop over the frame's players. *)
Definition pose_step (inp : FrameInput) (st : VideoProcessor * list PoseData)
  (player : PlayerData) : VideoProcessor * list PoseData :=
  let (vp, pose_data) := st in
  match pose_landmarks inp player with
  | None => st
  | Some landmarks =>
      let vp :=
        match _extract_pose_features (Some landmarks), self_players vp !! id player with
        | Some f, Some p =>
            set_players vp (<[id player := add_pose_features p f]> (self_players vp))
        | _, _ => vp
        end in
      (vp, pose_data ++ [{| player_bbox := bbox player; landmarks := landmarks |}])
  end.

Definition _analyze_poses (vp : VideoProcessor) (inp : FrameInput)
  (players_data : list PlayerData) : VideoProcessor * list PoseData :=
  fold_left (pose_step inp) players_data (vp, []).

(** The processing of one frame that passed the stride test. *)
Definition process_frame (vp : VideoProcessor) (inp : FrameInput)
  : VideoProcessor * FrameData :=
  let yolo_boxes_current := yolo_boxes_current_of (yolo_boxes inp) in
  let (vp, loc) :=
    fold_left (process_track yolo_boxes_current) (tracks inp)
      (vp, {| other_boxes := []; frame_players_data := []; ball_data := None |}) in
  let (vp, pose_data) := _analyze_poses vp inp (frame_players_data loc) in
  (vp, {| frame_number := self_frame_count vp;
          players := frame_players_data loc;
          ball := ball_data loc;
          poses := pose_data |}).

(** One iteration of [while cap.isOpened()] for a decoded frame; [None]
    stands for a frame on which the detector or the tracker raised. *)
Definition decode_step (st : VideoProcessor * list FrameData)
  (frame : option FrameInput) : VideoProcessor * list FrameData :=
  let (vp, frames_data) := st in
  let vp := set_frame_count vp (S (self_frame_count vp)) in
  if negb (self_frame_count vp mod 3 =? 0)%nat then (vp, frames_data)
  else
    match frame with
    | None => (vp, frames_data)
    | Some inp =>
        let (vp, frame_data) := process_frame vp inp in
        (vp, frames_data ++ [frame_data])
    end.

(** The state and the frame list when the decoding loop of [process_video]
    ends. *)
Definition run (vp : VideoProcessor) (video : list (option FrameInput))
  : VideoProcessor * list FrameData :=
  fold_left decode_step video (set_frame_count vp 0, []).

(** The value of one entry of the [player_stats] comprehension. *)
Definition final_stats (frame_count : nat) (player : Player) : PlayerStats :=
  {| ps_total_frames := length (positions player);
     ps_total_distance := total_distance player;
     ps_avg_speed := avg_speed player;
     ps_max_speed := max_speed player;
     ps_possession_percentage :=
       if (0 <? frame_count)%nat then
         (inject_Z (Z.of_nat (possession_frames player))
          / (inject_Z (Z.of_nat frame_count) / 3)) * 100
       else 0;
     ps_zone_presence := zone_presence player |}.

(** The statistics step at the end of [process_video]. *)
Definition finalize (vp : VideoProcessor) : gmap Z PlayerStats :=
  final_stats (self_frame_count vp) <$> self_players vp.

(** [process_video] *)
Definition process_video (vp : VideoProcessor) (video : list (option FrameInput))
  : VideoProcessor * Result :=
  let (vp, frames_data) := run vp video in
  (vp, {| frames := frames_data;
          player_stats := finalize vp;
          total_frames := self_frame_count vp |}).

End WithLibraries.

End Video.

(** ** The statements of the specification, in its own words *)

Module Spec.

(** Number of elements of [l] that satisfy [p]. *)
Definition count_if {A : Type} (p : A -> bool) (l : list A) : nat :=
  length (List.filter p l).

(** A count as a percentage of [total]; the structure keeps its zeros when
    there is nothing to normalise. *)
Definition percent_of (count total : nat) : Q :=
  if (0 <? total)%nat
  then (inject_Z (Z.of_nat count) / inject_Z (Z.of_nat total)) * 100
  else 0.

(** Speed zones: walking [[0,2]], jogging [(2,4]], running [(4,7]],
    sprinting [(7,oo)]. *)
Definition in_walking (s : Q) : bool := Qle_bool 0 s && Qle_bool s 2.
Definition in_jogging (s : Q) : bool := Qltb 2 s && Qle_bool s 4.
Definition in_running (s : Q) : bool := Qltb 4 s && Qle_bool s 7.
Definition in_sprinting (s : Q) : bool := Qltb 7 s.

Definition in_zone (z : Physical.Zone) (s : Q) : bool :=
  match z with
  | Physical.Walking => in_walking s
  | Physical.Jogging => in_jogging s
  | Physical.Running => in_running s
  | Physical.Sprinting => in_sprinting s
  end.

(** Effort zones: low [(<50)], medium [[50,80)], high [(>=80)]. *)
Definition in_low (e : Q) : bool := Qltb e 50.
Definition in_medium (e : Q) : bool := Qle_bool 50 e && Qltb e 80.
Definition in_high (e : Q) : bool := Qle_bool 80 e.

(** A sprinting step: [instant_speed > 8]. *)
Definition is_sprint_step (d : Q) : bool := Qltb 8 (d * 30).

(** The maximal runs of consecutive elements that satisfy [p], in order. *)
Fixpoint maximal_runs {A : Type} (p : A -> bool) (l : list A) : list (list A) :=
  match l with
  | [] => []
  | x :: tl =>
      let rest := maximal_runs p tl in
      if p x then
        match tl, rest with
        | y :: _, r :: rs => if p y then (x :: r) :: rs else [x] :: rest
        | _, _ => [x] :: rest
        end
      else rest
  end.

(** [runs_of p l rs]: [rs] lists, in order, the non-empty blocks of
    consecutive elements of [l] that satisfy [p] and that cannot be
    extended: each block is followed by the end of [l] or by an element
    that fails [p], and everything between two blocks fails [p]. *)
Inductive runs_of {A : Type} (p : A -> bool) : list A -> list (list A) -> Prop :=
| runs_nil : runs_of p [] []
| runs_gap x l rs :
    p x = false -> runs_of p l rs -> runs_of p (x :: l) rs
| runs_last r :
    r <> [] -> forallb p r = true -> runs_of p r [r]
| runs_block r x l rs :
    r <> [] -> forallb p r = true -> p x = false ->
    runs_of p l rs -> runs_of p (r ++ x :: l) (r :: rs).

(** Confidence-weighted mean of [values] with [weights]. *)
Definition weighted_mean (values weights : list Q) : Q :=
  Qsum (zip_with Qmult values weights) / Qsum weights.

Section WithSqrt.

Variable sqrt : Q -> Q.

(** The step distances of a sequence, one per pair of consecutive
    frames. *)
Definition step_distances (frames : list FrameData) : list Q :=
  map (fun pc : FrameData * FrameData =>
         Physical._calculate_frame_distance sqrt (fst pc) (snd pc))
      (consecutive frames).

(** [instant_speed] = step distance times 30. *)
Definition instant_speeds (frames : list FrameData) : list Q :=
  map (fun d => d * 30) (step_distances frames).

(** Per-step effort: [min(100, (instant_speed / 9) * 100)]. *)
Definition step_efforts (frames : list FrameData) : list Q :=
  map (fun s => Qmin 100 ((s / 9) * 100)) (instant_speeds frames).

(** A detected pass: both frames carry a ball and its displacement exceeds
    the 0.7 threshold. *)
Definition is_pass (cn : FrameData * FrameData) : bool :=
  match ball (fst cn), ball (snd cn) with
  | Some cb, Some nb =>
      Qltb (7 # 10)
        (Technical._calculate_ball_movement sqrt (ball_position cb) (ball_position nb))
  | _, _ => false
  end.

End WithSqrt.

(** A frame record holding one player entry at [pos]. *)
Definition frame_at (n : nat) (i : Z) (pos : Q * Q) : FrameData :=
  {| frame_number := n;
     players := [{| id := i; bbox := (0, 0, 0, 0); position := pos;
                    confidence := 1;
                    stats := {| fs_total_distance := 0; fs_avg_speed := 0;
                                fs_max_speed := 0; fs_possession_time := 0;
                                fs_time_in_frame := 0 |} |}];
     ball := None;
     poses := [] |}.

(** Scenario A: four frames with positions [(0,0)], [(0,0.1)], [(0,0.25)],
    [(0,0.45)]. *)
Definition scenario_A : list FrameData :=
  [frame_at 3 1 (0, 0); frame_at 6 1 (0, 1 # 10);
   frame_at 9 1 (0, 1 # 4); frame_at 12 1 (0, 9 # 20)].

(** Number of frame records in which track [i] has a player entry. *)
Definition observed_frames (i : Z) (frames : list FrameData) : nat :=
  count_if (fun f => existsb (fun p => (id p =? i)%Z) (players f)) frames.

End Spec.

(** ** The association of one frame, as the track loop produces it *)

Module Association.

Section WithLibraries.

Variable sqrt : Q -> Q.
Variable cosine : Video.Features -> Video.Features -> Q.
Variable motion_summary : list (Q * Q) -> Video.Features.

(** The pairs [(track_id, best_box)] of the confirmed tracks for which the
    search of the track loop found a box, in loop order; the processor
    state is threaded exactly as the loop does. *)
Definition association_step (yolo_boxes_current : list (Box * Video.BoxData))
  (acc : (Video.VideoProcessor * Video.FrameLocal) * list (Z * Video.BoxData))
  (track : Video.Track)
  : (Video.VideoProcessor * Video.FrameLocal) * list (Z * Video.BoxData) :=
  let (st, matching) := acc in
  (Video.process_track sqrt cosine motion_summary yolo_boxes_current st track,
   if Video.is_confirmed track then
     match Video.find_best_box cosine (Video.self_feature_history (fst st))
             (Video.track_id track) (Video.to_ltrb track) yolo_boxes_current with
     | Some b => matching ++ [(Video.track_id track, b)]
     | None => matching
     end
   else matching).

Definition association (vp : Video.VideoProcessor) (inp : Video.FrameInput)
  : list (Z * Video.BoxData) :=
  snd (fold_left
         (association_step (Video.yolo_boxes_current_of (Video.yolo_boxes inp)))
         (Video.tracks inp)
         ((vp, {| Video.other_boxes := [];
                  Video.frame_players_data := [];
                  Video.ball_data := None |}), [])).

End WithLibraries.

(** A matching is a partial injective function from tracks to detections:
    no track has two detections and no detection has two tracks. *)
Definition functional (m : list (Z * Video.BoxData)) : Prop :=
  forall t b1 b2, In (t, b1) m -> In (t, b2) m -> b1 = b2.

Definition injective (m : list (Z * Video.BoxData)) : Prop :=
  forall t1 t2 b, In (t1, b) m -> In (t2, b) m -> t1 = t2.

End Association.

(** ** Occlusion and smoothing, in the words of the specification *)

Module Occlusion.

(** The overlaps recorded for a track once [_handle_occlusion] has tested
    its box against the player boxes handled earlier in the frame. *)
Definition overlap_history (vp : Video.VideoProcessor) (track_id : Z)
  (current_box : Box) (other_boxes : list (Z * Box)) : list (Z * Q) :=
  fold_left (Video.overlap_step current_box) other_boxes
    (default [] (Video.self_occlusion_history vp !! track_id)).


(** The position [_handle_occlusion] returns, or the detection centre when
    it returns nothing: the raw position of the track in this frame. *)
Definition raw_center (vp : Video.VideoProcessor) (track_id : Z)
  (best_box : Video.BoxData) (other_boxes : list (Z * Box)) : Q * Q :=
  default (Video.box_center (Video.bd_box best_box))
    (snd (Video._handle_occlusion vp track_id (Video.bd_box best_box) other_boxes)).

(** The raw history of the track once this frame's entry is appended. *)
Definition raw_history (vp : Video.VideoProcessor) (track_id : Z)
  (best_box : Video.BoxData) (other_boxes : list (Z * Box))
  : list ((Q * Q) * Q) :=
  default [] (Video.self_track_history vp !! track_id)
  ++ [(raw_center vp track_id best_box other_boxes, Video.bd_conf best_box)].

(** The confidence-weighted mean of the last five entries of a history,
    per coordinate. *)
Definition weighted_center (history : list ((Q * Q) * Q)) : Q * Q :=
  let recent := Video.lastn 5 history in
  (Spec.weighted_mean (map (fun pc => fst (fst pc)) recent) (map snd recent),
   Spec.weighted_mean (map (fun pc => snd (fst pc)) recent) (map snd recent)).

(** A pair with both coordinates truncated toward zero. *)
Definition truncated (c : Q * Q) : Q * Q :=
  (inject_Z (py_int (fst c)), inject_Z (py_int (snd c))).

End Occlusion.

(** ** The states of a processing run *)

Module Reach.

Section WithLibraries.

Variable sqrt : Q -> Q.
Variable cosine : Video.Features -> Video.Features -> Q.
Variable motion_summary : list (Q * Q) -> Video.Features.
Variable pose_angles : list (Q * Q * Q) -> Video.Features.

(** The processor states that occur during processing: the state built by
    [__init__], and the state after each iteration of the track loop, of
    the loop of [_analyze_poses] and of the decoding loop, whatever the
    collaborators deliver. *)
Inductive reachable : Video.VideoProcessor -> Prop :=
| reach_init : reachable Video.VideoProcessor_init
| reach_count vp n :
    reachable vp -> reachable (Video.set_frame_count vp n)
| reach_track vp loc yolo_boxes_current track :
    reachable vp ->
    reachable (fst (Video.process_track sqrt cosine motion_summary
                      yolo_boxes_current (vp, loc) track))
| reach_pose vp pose_data inp player :
    reachable vp ->
    reachable (fst (Video.pose_step pose_angles inp (vp, pose_data) player)).

End WithLibraries.

(** The bounded-window invariant of the track store. *)
Definition bounded (vp : Video.VideoProcessor) : Prop :=
  map_Forall (fun (_ : Z) (p : Video.Player) =>
                (length (Video.positions p) <= Video.maxlen)%nat)
             (Video.self_players vp).

End Reach.

(** ** Concrete inputs *)

Module Sample.

(** Stand-ins for the library functions on concrete runs. *)
Definition cosine (u v : Video.Features) : Q := 0.
Definition motion_summary (positions : list (Q * Q)) : Video.Features := [].
Definition pose_angles (landmarks : list (Q * Q * Q)) : Video.Features := [].

(** A sequence with step speeds 9, 9, 3 and 12: a sprint of two steps, a
    slow step, and a sprint still in progress at the end. *)
Definition two_sprints : list FrameData :=
  [Spec.frame_at 3 1 (0, 0); Spec.frame_at 6 1 (0, 3 # 10);
   Spec.frame_at 9 1 (0, 6 # 10); Spec.frame_at 12 1 (0, 7 # 10);
   Spec.frame_at 15 1 (0, 11 # 10)].

(** A frame record that holds only a ball. *)
Definition ball_frame (n : nat) (pos : option (Q * Q)) : FrameData :=
  {| frame_number := n;
     players := [];
     ball := option_map (fun p => {| ball_bbox := (0, 0, 0, 0);
                                     ball_position := p;
                                     ball_confidence := 1 |}) pos;
     poses := [] |}.

(** The ball moves by 1, then by 0.5, disappears, and moves by 25. *)
Definition ball_moves : list FrameData :=
  [ball_frame 3 (Some (0, 0)); ball_frame 6 (Some (1, 0));
   ball_frame 9 (Some (1, 1 # 2)); ball_frame 12 None;
   ball_frame 15 (Some (25, 0)); ball_frame 18 (Some (0, 0))].

(** One frame with a player in one corner of the unit square and the ball
    in the opposite corner. *)
Definition far_ball : list FrameData :=
  [{| frame_number := 3;
      players := players (Spec.frame_at 3 1 (0, 0));
      ball := Some {| ball_bbox := (0, 0, 0, 0); ball_position := (1, 1);
                      ball_confidence := 1 |};
      poses := [] |}].

(** A person detection with box [b] and confidence 0.9, and a confirmed
    person track [i] whose box is [b]. *)
Definition person_box (b : Box) : Video.YoloBox :=
  {| Video.xyxy := b; Video.conf := 9 # 10; Video.cls := 0; Video.hog := None |}.

Definition person_track (i : Z) (b : Box) : Video.Track :=
  {| Video.is_confirmed := true; Video.to_ltrb := b;
     Video.track_id := i; Video.get_det_class := 0 |}.

Definition frame_input (boxes : list Video.YoloBox) (tracks : list Video.Track)
  : Video.FrameInput :=
  {| Video.yolo_boxes := boxes; Video.tracks := tracks;
     Video.pose_landmarks := fun _ => None |}.

(** Three decoded frames, the third of which is processed and shows one
    person in box [b], tracked as [1]. *)
Definition one_person (b : Box) : list (option Video.FrameInput) :=
  [None; None; Some (frame_input [person_box b] [person_track 1 b])].

(** [n] processed frames with one person standing still. *)
Fixpoint standing (n : nat) : list (option Video.FrameInput) :=
  match n with
  | O => []
  | S n => one_person (0, 0, 10, 20) ++ standing n
  end.

Definition run (video : list (option Video.FrameInput))
  : Video.VideoProcessor * list FrameData :=
  Video.run Qsqrt cosine motion_summary pose_angles Video.VideoProcessor_init video.

(** One detected person and two confirmed tracks, 1 and 2, on the same
    box. *)
Definition two_tracks_one_box : Video.FrameInput :=
  frame_input [person_box (0, 0, 10, 20)]
    [person_track 1 (0, 0, 10, 20); person_track 2 (0, 0, 10, 20)].


(** Five frames standing still, then one frame one pixel to the right. *)
Definition one_pixel_move : list (option Video.FrameInput) :=
  standing 5 ++ one_person (1, 0, 11, 20).

(** A frame in which the tracker still reports track 1 and the detector
    reports nothing. *)
Definition nothing_detected : Video.FrameInput :=
  frame_input [] [person_track 1 (0, 0, 10, 20)].



End Sample.

(** ** physical_analyzer.py: the team-wide distance breakdown *)

Module Team.

(** [self.pixels_to_meters] *)
Definition pixels_to_meters : Q := 1 # 10.

Record DistanceData := {
  total_distance : Q;
  high_intensity_distance : Q;
  medium_intensity_distance : Q;
  low_intensity_distance : Q
}.

Section WithSqrt.

Variable sqrt : Q -> Q.

(** [_calculate_player_movement] *)
Definition _calculate_player_movement (pos1 pos2 : Q * Q) : Q :=
  sqrt ((fst pos2 - fst pos1) ^ 2 + (snd pos2 - snd pos1) ^ 2).

(** [_calculate_player_speed] *)
Definition _calculate_player_speed (pos1 pos2 : Q * Q) : Q :=
  _calculate_player_movement pos1 pos2 * pixels_to_meters * 30.

(** [_calculate_player_effort]; its [poses] argument is not read. *)
Definition _calculate_player_effort (player1 player2 : PlayerData) : Q :=
  py_min 100 (_calculate_player_speed (position player1) (position player2) * 10).

(** [_is_same_player]: [np.linalg.norm(pos1 - pos2) < 0.2]. *)
Definition _is_same_player (player1 player2 : PlayerData) : bool :=
  Qltb (sqrt ((fst (position player1) - fst (position player2)) ^ 2
              + (snd (position player1) - snd (position player2)) ^ 2))
       (2 # 10).

(** [_calculate_distance]: the innermost loop, over the players of the
    next frame. *)
Definition next_player_step (player : PlayerData) (acc : DistanceData)
  (next_player : PlayerData) : DistanceData :=
  if _is_same_player player next_player then
    let distance :=
      _calculate_player_movement (position player) (position next_player) in
    let distance_meters := distance * pixels_to_meters in
    let speed := distance_meters * 30 in
    if Qltb (55 # 10) speed then
      {| total_distance := total_distance acc + distance_meters;
         high_intensity_distance := high_intensity_distance acc + distance_meters;
         medium_intensity_distance := medium_intensity_distance acc;
         low_intensity_distance := low_intensity_distance acc |}
    else if Qltb (35 # 10) speed then
      {| total_distance := total_distance acc + distance_meters;
         high_intensity_distance := high_intensity_distance acc;
         medium_intensity_distance := medium_intensity_distance acc + distance_meters;
         low_intensity_distance := low_intensity_distance acc |}
    else
      {| total_distance := total_distance acc + distance_meters;
         high_intensity_distance := high_intensity_distance acc;
         medium_intensity_distance := medium_intensity_distance acc;
         low_intensity_distance := low_intensity_distance acc + distance_meters |}
  else acc.

(** The loop over the players of the current frame. *)
Definition player_step (next_frame : FrameData) (acc : DistanceData)
  (player : PlayerData) : DistanceData :=
  fold_left (next_player_step player) (players next_frame) acc.

(** The loop over [range(len(frames_data) - 1)]. *)
Definition frame_step (acc : DistanceData) (cn : FrameData * FrameData)
  : DistanceData :=
  fold_left (player_step (snd cn)) (players (fst cn)) acc.

Definition _calculate_distance (frames_data : list FrameData) : DistanceData :=
  fold_left frame_step (consecutive frames_data)
    {| total_distance := 0; high_intensity_distance := 0;
       medium_intensity_distance := 0; low_intensity_distance := 0 |}.

End WithSqrt.

End Team.

(** ** player_analyzer.py *)

Module PlayerAnalyzer.

(** [_extract_player_frames]: the copies of the frames in which the player
    appears, their player lists restricted to that player. *)
Definition restrict (player_id : Z) (frame : FrameData) : FrameData :=
  {| frame_number := frame_number frame;
     players := List.filter (fun player => (id player =? player_id)%Z)
                            (players frame);
     ball := ball frame;
     poses := poses frame |}.

Definition extract_step (player_id : Z) (player_frames : list FrameData)
  (frame : FrameData) : list FrameData :=
  let frame_copy := restrict player_id frame in
  match players frame_copy with
  | [] => player_frames
  | _ :: _ => player_frames ++ [frame_copy]
  end.

Definition _extract_player_frames (frames_data : list FrameData)
  (player_id : Z) : list FrameData :=
  fold_left (extract_step player_id) frames_data [].

(** [_calculate_speed_score] *)
Definition _calculate_speed_score (physical_stats : Physical.Analysis) : Q :=
  let sprint_score :=
    py_min 1 (inject_Z (Z.of_nat (Physical.total_sprints
                                    (Physical.sprints physical_stats))) / 20) in
  let max_speed_score :=
    py_min 1 (Physical.max_speed (Physical.speed physical_stats) / 9) in
  (sprint_score * (5 # 10) + max_speed_score * (5 # 10)) * 100.


End PlayerAnalyzer.

(** ** Further statements read off the code *)

Module Facts.

(** A high-intensity step: [speed > 7]. *)
Definition is_high_intensity_step (d : Q) : bool := Qltb 7 (d * 30).

(** Both coordinates of a position lie in [[0,1]]. *)
Definition in_unit_square (pos : Q * Q) : Prop :=
  0 <= fst pos <= 1 /\ 0 <= snd pos <= 1.

(** A box with positive width and height. *)
Definition proper_box (b : Box) : Prop :=
  let '(x1, y1, x2, y2) := b in x1 < x2 /\ y1 < y2.

(** [l1] is an initial segment of [l2]. *)
Definition extends {A : Type} (l1 l2 : list A) : Prop :=
  exists more : list A, l2 = l1 ++ more.

Section WithSqrt.

Variable sqrt : Q -> Q.

(** A detected shot: both frames carry a ball whose velocity exceeds the
    0.8 threshold. *)
Definition is_shot (cn : FrameData * FrameData) : bool :=
  match ball (fst cn), ball (snd cn) with
  | Some cb, Some nb =>
      Qltb (8 # 10)
        (Technical._calculate_ball_velocity sqrt (ball_position cb)
           (ball_position nb))
  | _, _ => false
  end.

(** The players of a frame that the possession test accepts. *)
Definition touches (frame : FrameData) : nat :=
  match ball frame with
  | Some b =>
      Spec.count_if
        (fun player =>
           Technical._is_player_in_possession sqrt (position player)
             (ball_position b))
        (players frame)
  | None => 0
  end.

End WithSqrt.

(** The number of player entries of a frame that carries a ball. *)
Definition players_with_ball (frame : FrameData) : nat :=
  match ball frame with
  | Some _ => length (players frame)
  | None => 0
  end.

(** All positions of a frame record are normalised to the unit square, as
    [process_video] divides pixel centres by the frame size. *)
Definition normalized (frame : FrameData) : Prop :=
  Forall (fun player => in_unit_square (position player)) (players frame) /\
  match ball frame with
  | Some b => in_unit_square (ball_position b)
  | None => True
  end.

(** The value that the detection loop stores for a box of the detector. *)
Definition box_data_of (b : Video.YoloBox) : Video.BoxData :=
  {| Video.bd_box := Video.xyxy b; Video.bd_conf := Video.conf b;
     Video.bd_cls := Video.cls b; Video.bd_features := Video.hog b |}.

(** The player with id [i] has an entry in the frame. *)
Definition seen (i : Z) (frame : FrameData) : bool :=
  existsb (fun p => (id p =? i)%Z) (players frame).

(** The x and the y coordinates of a list of positions. *)
Definition xs (positions : list (Q * Q)) : list Q := map fst positions.
Definition ys (positions : list (Q * Q)) : list Q := map snd positions.

(** The occlusion history and the raw history of a track, empty when the
    track has none. *)
Definition occlusion_of (vp : Video.VideoProcessor) (i : Z) : list (Z * Q) :=
  default [] (Video.self_occlusion_history vp !! i).

Definition history_of (vp : Video.VideoProcessor) (i : Z)
  : list ((Q * Q) * Q) :=
  default [] (Video.self_track_history vp !! i).

(** Nothing recorded in [vp1] is lost in [vp2]: every player is still in
    the store, and every history starts with what it held. *)
Definition grows (vp1 vp2 : Video.VideoProcessor) : Prop :=
  forall i : Z,
    (is_Some (Video.self_players vp1 !! i) ->
     is_Some (Video.self_players vp2 !! i)) /\
    extends (occlusion_of vp1 i) (occlusion_of vp2 i) /\
    extends (history_of vp1 i) (history_of vp2 i) /\
    extends (Video.self_ball_positions vp1) (Video.self_ball_positions vp2).

End Facts.

(** * Properties *)

(** ** Arithmetic and list helpers *)

Lemma Qltb_lt a b : Qltb a b = true <-> a < b.
Proof.
  unfold Qltb. rewrite negb_true_iff, <- not_true_iff_false, Qle_bool_iff.
  split; [apply Qnot_le_lt | apply Qlt_not_le].
Qed.

Lemma Qltb_ge a b : Qltb a b = false <-> b <= a.
Proof.
  unfold Qltb. rewrite negb_false_iff. apply Qle_bool_iff.
Qed.

Lemma Qle_bool_gt a b : Qle_bool a b = false <-> b < a.
Proof.
  rewrite <- Qltb_lt. unfold Qltb. rewrite negb_true_iff. reflexivity.
Qed.

Lemma py_min_Qmin a b : py_min a b = Qmin a b.
Proof.
  unfold py_min, Qmin, GenericMinMax.gmin.
  destruct (Qcompare_spec a b) as [H|H|H].
  - replace (Qltb b a) with false; [reflexivity|].
    symmetry. apply Qltb_ge. rewrite H. apply Qle_refl.
  - replace (Qltb b a) with false; [reflexivity|].
    symmetry. apply Qltb_ge. apply Qlt_le_weak, H.
  - replace (Qltb b a) with true; [reflexivity|].
    symmetry. apply Qltb_lt, H.
Qed.

Lemma consecutive_length {A : Type} (l : list A) :
  length (consecutive l) = (length l - 1)%nat.
Proof.
  induction l as [|x [|y tl] IH]; simpl in *; try reflexivity.
  rewrite IH. lia.
Qed.

Lemma count_if_map {A B : Type} (f : A -> B) (p : B -> bool) (l : list A) :
  Spec.count_if p (map f l) = Spec.count_if (fun x => p (f x)) l.
Proof.
  unfold Spec.count_if. induction l as [|x l IH]; simpl; [reflexivity|].
  destruct (p (f x)); simpl; rewrite IH; reflexivity.
Qed.

Lemma count_if_cons {A : Type} (p : A -> bool) (x : A) (l : list A) :
  Spec.count_if p (x :: l) =
  ((if p x then 1 else 0) + Spec.count_if p l)%nat.
Proof.
  unfold Spec.count_if. simpl. destruct (p x); reflexivity.
Qed.

Lemma fold_left_Qplus_map {A : Type} (f : A -> Q) (l : list A) (a : Q) :
  fold_left (fun acc x => acc + f x) l a = fold_left Qplus (map f l) a.
Proof.
  revert a. induction l as [|x l IH]; intros a; simpl; [reflexivity|apply IH].
Qed.

(** ** Effort and speed classification *)

Lemma classify_effort_cases (e : Q) :
  (Physical.classify_effort e = Physical.Low /\
   Spec.in_low e = true /\ Spec.in_medium e = false /\ Spec.in_high e = false) \/
  (Physical.classify_effort e = Physical.Medium /\
   Spec.in_low e = false /\ Spec.in_medium e = true /\ Spec.in_high e = false) \/
  (Physical.classify_effort e = Physical.High /\
   Spec.in_low e = false /\ Spec.in_medium e = false /\ Spec.in_high e = true).
Proof.
  unfold Physical.classify_effort, Spec.in_low, Spec.in_medium, Spec.in_high.
  destruct (Qltb e 50) eqn:H50.
  - left. apply Qltb_lt in H50.
    assert (Qle_bool 50 e = false) as -> by (apply Qle_bool_gt; exact H50).
    assert (Qle_bool 80 e = false) as -> by (apply Qle_bool_gt; lra).
    auto.
  - apply Qltb_ge in H50.
    assert (Qle_bool 50 e = true) as -> by (apply Qle_bool_iff; exact H50).
    destruct (Qltb e 80) eqn:H80.
    + right; left. apply Qltb_lt in H80.
      assert (Qle_bool 80 e = false) as -> by (apply Qle_bool_gt; exact H80).
      auto.
    + right; right. apply Qltb_ge in H80.
      assert (Qle_bool 80 e = true) as -> by (apply Qle_bool_iff; exact H80).
      auto.
Qed.

Lemma classify_speed_cases (s : Q) :
  0 <= s ->
  (Physical.classify_speed s = Physical.Walking /\ Spec.in_walking s = true /\
   Spec.in_jogging s = false /\ Spec.in_running s = false /\
   Spec.in_sprinting s = false) \/
  (Physical.classify_speed s = Physical.Jogging /\ Spec.in_walking s = false /\
   Spec.in_jogging s = true /\ Spec.in_running s = false /\
   Spec.in_sprinting s = false) \/
  (Physical.classify_speed s = Physical.Running /\ Spec.in_walking s = false /\
   Spec.in_jogging s = false /\ Spec.in_running s = true /\
   Spec.in_sprinting s = false) \/
  (Physical.classify_speed s = Physical.Sprinting /\ Spec.in_walking s = false /\
   Spec.in_jogging s = false /\ Spec.in_running s = false /\
   Spec.in_sprinting s = true).
Proof.
  intros Hs.
  unfold Physical.classify_speed, Spec.in_walking, Spec.in_jogging,
    Spec.in_running, Spec.in_sprinting, Qltb.
  assert (Qle_bool 0 s = true) as -> by (apply Qle_bool_iff; exact Hs).
  destruct (Qle_bool s 2) eqn:H2.
  - left. apply Qle_bool_iff in H2.
    assert (Qle_bool s 4 = true) as -> by (apply Qle_bool_iff; lra).
    assert (Qle_bool s 7 = true) as -> by (apply Qle_bool_iff; lra).
    auto.
  - destruct (Qle_bool s 4) eqn:H4.
    + right; left. apply Qle_bool_iff in H4.
      assert (Qle_bool s 7 = true) as -> by (apply Qle_bool_iff; lra).
      auto.
    + destruct (Qle_bool s 7) eqn:H7; [right; right; left | right; right; right];
        auto.
Qed.

(** ** Physical metrics engine *)

(** Splits an equation between tuples into its components and closes the
    counter components. *)
Ltac tuple_eq :=
  repeat match goal with |- (_, _) = (_, _) => f_equal end;
  try reflexivity; try lia.

Section PhysicalFacts.

Variable sqrt : Q -> Q.

Local Abbreviation dist :=
  (fun pc : FrameData * FrameData =>
     Physical._calculate_frame_distance sqrt (fst pc) (snd pc)).
Local Abbreviation eff := (fun pc : FrameData * FrameData =>
                         Physical.step_effort (dist pc * 30)).
Local Abbreviation spd := (fun pc : FrameData * FrameData => dist pc * 30).

Lemma step_efforts_map (frames : list FrameData) :
  Spec.step_efforts sqrt frames = map eff (consecutive frames).
Proof.
  unfold Spec.step_efforts, Spec.instant_speeds, Spec.step_distances.
  rewrite !map_map. apply map_ext. intros pc.
  unfold Physical.step_effort. rewrite py_min_Qmin. reflexivity.
Qed.


Lemma effort_step_eq (t : Q) (lo me hi : nat) (pc : FrameData * FrameData) :
  Physical.effort_step sqrt (t, lo, me, hi) pc =
  (t + eff pc,
   (lo + if Spec.in_low (eff pc) then 1 else 0)%nat,
   (me + if Spec.in_medium (eff pc) then 1 else 0)%nat,
   (hi + if Spec.in_high (eff pc) then 1 else 0)%nat).
Proof.
  unfold Physical.effort_step.
  destruct (classify_effort_cases (eff pc))
    as [(-> & -> & -> & ->)|[(-> & -> & -> & ->)|(-> & -> & -> & ->)]];
    tuple_eq.
Qed.

(** The loop of [_analyze_effort], from any accumulator. *)
Lemma effort_loop (pcs : list (FrameData * FrameData)) :
  forall (t : Q) (lo me hi : nat),
    fold_left (Physical.effort_step sqrt) pcs (t, lo, me, hi) =
    (fold_left Qplus (map eff pcs) t,
     (lo + Spec.count_if Spec.in_low (map eff pcs))%nat,
     (me + Spec.count_if Spec.in_medium (map eff pcs))%nat,
     (hi + Spec.count_if Spec.in_high (map eff pcs))%nat).
Proof.
  induction pcs as [|pc pcs IH]; intros t lo me hi.
  - simpl. unfold Spec.count_if. simpl. tuple_eq.
  - cbn [fold_left map]. rewrite effort_step_eq, IH, !count_if_cons.
    tuple_eq.
Qed.

Lemma effort_counts_total (l : list Q) :
  (Spec.count_if Spec.in_low l + Spec.count_if Spec.in_medium l
   + Spec.count_if Spec.in_high l)%nat = length l.
Proof.
  induction l as [|e l IH]; [reflexivity|].
  rewrite !count_if_cons. simpl length.
  destruct (classify_effort_cases e)
    as [(_ & -> & -> & ->)|[(_ & -> & -> & ->)|(_ & -> & -> & ->)]]; lia.
Qed.

(** C4.  [_analyze_effort] on any Player Frame Sequence: the per-step
    effort is [min(100, (instant_speed / 9) * 100)]; the steps are counted
    into the zones low (effort < 50), medium (50 <= effort < 80) and high
    (effort >= 80), each count reported as a percentage of the number of
    steps; [total_effort] is the sum of the per-step efforts divided by
    the number of frames [len(sequence)], one more than the number of
    steps. *)
Theorem analyze_effort_spec (frames : list FrameData) :
  let efforts := Spec.step_efforts sqrt frames in
  let steps := length efforts in
  let result := Physical._analyze_effort sqrt frames in
  steps = (length frames - 1)%nat /\
  Physical.total_effort result =
    match frames with
    | [] => 0
    | _ :: _ => Qsum efforts / inject_Z (Z.of_nat (length frames))
    end /\
  Physical.low (Physical.effort_zones result) =
    Spec.percent_of (Spec.count_if Spec.in_low efforts) steps /\
  Physical.medium (Physical.effort_zones result) =
    Spec.percent_of (Spec.count_if Spec.in_medium efforts) steps /\
  Physical.high (Physical.effort_zones result) =
    Spec.percent_of (Spec.count_if Spec.in_high efforts) steps.
Proof.
  cbv zeta. rewrite step_efforts_map.
  unfold Physical._analyze_effort. rewrite effort_loop. simpl Nat.add.
  pose proof (effort_counts_total (map eff (consecutive frames))) as Htot.
  rewrite Htot. unfold Spec.percent_of, Physical.percentage, Qsum.
  split; [rewrite length_map; apply consecutive_length|].
  split; [destruct frames; reflexivity|].
  destruct (0 <? length (map eff (consecutive frames)))%nat; simpl; auto.
Qed.

End PhysicalFacts.

(** [Qsqrt] is exact on squares. *)
Lemma Qsqrt_square (q : Q) : Qsqrt (q * q) == Qabs q.
Proof.
  destruct q as [n d]. unfold Qsqrt, Qabs, Qeq, Qmult. cbn [Qnum Qden].
  replace (n * n * Z.pos (d * d))%Z
    with ((Z.abs n * Z.pos d) * (Z.abs n * Z.pos d))%Z
    by (rewrite Pos2Z.inj_mul; lia).
  rewrite Z.sqrt_square by lia. rewrite Pos2Z.inj_mul. ring.
Qed.

Lemma Qsqrt_nonneg (x : Q) : 0 <= Qsqrt x.
Proof.
  unfold Qsqrt, Qle. simpl. rewrite Z.mul_1_r. apply Z.sqrt_nonneg.
Qed.

Section SpeedFacts.

Variable sqrt : Q -> Q.
Hypothesis sqrt_nonneg : forall x, 0 <= sqrt x.

Local Abbreviation dist :=
  (fun pc : FrameData * FrameData =>
     Physical._calculate_frame_distance sqrt (fst pc) (snd pc)).
Local Abbreviation spd := (fun pc : FrameData * FrameData => dist pc * 30).

Lemma frame_distance_nonneg (prev curr : FrameData) :
  0 <= Physical._calculate_frame_distance sqrt prev curr.
Proof.
  unfold Physical._calculate_frame_distance.
  destruct (players prev); [apply Qle_refl|].
  destruct (players curr); [apply Qle_refl|].
  apply sqrt_nonneg.
Qed.

Lemma step_speed_nonneg (pc : FrameData * FrameData) : 0 <= spd pc.
Proof.
  pose proof (frame_distance_nonneg (fst pc) (snd pc)) as H.
  apply Qmult_le_0_compat; [exact H | discriminate].
Qed.

Lemma speeds_step_eq (acc : Physical.SpeedAcc) (pc : FrameData * FrameData) :
  Physical.speeds_step sqrt acc pc =
  {| Physical.sa_speeds := Physical.sa_speeds acc ++ [spd pc];
     Physical.sa_walking :=
       (Physical.sa_walking acc + if Spec.in_walking (spd pc) then 1 else 0)%nat;
     Physical.sa_jogging :=
       (Physical.sa_jogging acc + if Spec.in_jogging (spd pc) then 1 else 0)%nat;
     Physical.sa_running :=
       (Physical.sa_running acc + if Spec.in_running (spd pc) then 1 else 0)%nat;
     Physical.sa_sprinting :=
       (Physical.sa_sprinting acc + if Spec.in_sprinting (spd pc) then 1 else 0)%nat |}.
Proof.
  unfold Physical.speeds_step.
  destruct (classify_speed_cases _ (step_speed_nonneg pc))
    as [(-> & -> & -> & -> & ->)|[(-> & -> & -> & -> & ->)|
        [(-> & -> & -> & -> & ->)|(-> & -> & -> & -> & ->)]]];
    f_equal; lia.
Qed.

(** The loop of [_calculate_speeds], from any accumulator. *)
Lemma speeds_loop_from (pcs : list (FrameData * FrameData)) :
  forall acc : Physical.SpeedAcc,
    fold_left (Physical.speeds_step sqrt) pcs acc =
    {| Physical.sa_speeds := Physical.sa_speeds acc ++ map spd pcs;
       Physical.sa_walking :=
         (Physical.sa_walking acc + Spec.count_if Spec.in_walking (map spd pcs))%nat;
       Physical.sa_jogging :=
         (Physical.sa_jogging acc + Spec.count_if Spec.in_jogging (map spd pcs))%nat;
       Physical.sa_running :=
         (Physical.sa_running acc + Spec.count_if Spec.in_running (map spd pcs))%nat;
       Physical.sa_sprinting :=
         (Physical.sa_sprinting acc
          + Spec.count_if Spec.in_sprinting (map spd pcs))%nat |}.
Proof.
  induction pcs as [|pc pcs IH]; intros acc.
  - destruct acc. simpl. unfold Spec.count_if. simpl.
    rewrite app_nil_r. f_equal; lia.
  - cbn [fold_left map]. rewrite speeds_step_eq, IH, !count_if_cons.
    cbn [Physical.sa_speeds Physical.sa_walking Physical.sa_jogging
         Physical.sa_running Physical.sa_sprinting].
    rewrite <- app_assoc. f_equal; lia.
Qed.

Lemma speed_counts_total (l : list Q) :
  Forall (fun s => 0 <= s) l ->
  (Spec.count_if Spec.in_walking l + Spec.count_if Spec.in_jogging l
   + Spec.count_if Spec.in_running l + Spec.count_if Spec.in_sprinting l)%nat
  = length l.
Proof.
  induction 1 as [|s l Hs _ IH]; [reflexivity|].
  rewrite !count_if_cons. simpl length.
  destruct (classify_speed_cases _ Hs)
    as [(_ & -> & -> & -> & ->)|[(_ & -> & -> & -> & ->)|
        [(_ & -> & -> & -> & ->)|(_ & -> & -> & -> & ->)]]]; lia.
Qed.

Lemma speed_zone_unique (s : Q) (z : Physical.Zone) :
  0 <= s -> (Spec.in_zone z s = true <-> Physical.classify_speed s = z).
Proof.
  intros Hs.
  destruct (classify_speed_cases _ Hs)
    as [(-> & Hw & Hj & Hr & Hp)|[(-> & Hw & Hj & Hr & Hp)|
        [(-> & Hw & Hj & Hr & Hp)|(-> & Hw & Hj & Hr & Hp)]]];
    destruct z; simpl; rewrite ?Hw, ?Hj, ?Hr, ?Hp; split; congruence.
Qed.

Lemma calculate_speeds_zones (frames : list FrameData) :
  let speeds := Spec.instant_speeds sqrt frames in
  let steps := length speeds in
  let zones := Physical.speed_zones (Physical._calculate_speeds sqrt frames) in
  Forall (fun s => forall z,
            Spec.in_zone z s = true <-> Physical.classify_speed s = z) speeds /\
  Physical.walking zones =
    Spec.percent_of (Spec.count_if Spec.in_walking speeds) steps /\
  Physical.jogging zones =
    Spec.percent_of (Spec.count_if Spec.in_jogging speeds) steps /\
  Physical.running zones =
    Spec.percent_of (Spec.count_if Spec.in_running speeds) steps /\
  Physical.sprinting zones =
    Spec.percent_of (Spec.count_if Spec.in_sprinting speeds) steps.
Proof.
  cbv zeta.
  assert (Hnn : Forall (fun s => 0 <= s) (Spec.instant_speeds sqrt frames)).
  { unfold Spec.instant_speeds, Spec.step_distances. rewrite map_map.
    apply List.Forall_forall. intros s Hin. apply in_map_iff in Hin.
    destruct Hin as (pc & <- & _). apply step_speed_nonneg. }
  split.
  { eapply List.Forall_impl; [|exact Hnn]. intros s Hs z.
    apply speed_zone_unique, Hs. }
  pose proof (speed_counts_total _ Hnn) as Htot.
  unfold Physical._calculate_speeds, Physical.speeds_loop.
  rewrite speeds_loop_from.
  cbn [Physical.sa_speeds Physical.sa_walking Physical.sa_jogging
       Physical.sa_running Physical.sa_sprinting Physical.speed_zones Nat.add].
  unfold Spec.instant_speeds, Spec.step_distances in *.
  rewrite map_map in *. rewrite Htot.
  unfold Spec.percent_of, Physical.percentage.
  destruct (0 <? length (map spd (consecutive frames)))%nat; simpl; auto.
Qed.

End SpeedFacts.

(** C5.  [_calculate_speeds] on any Player Frame Sequence: with
    [instant_speed] = step distance times 30, every step lies in exactly
    one of walking [[0,2]], jogging [(2,4]], running [(4,7]], sprinting
    [(7,oo)], namely the one the code counts it in, and the zone counts are
    reported as percentages of the number of steps.  On scenario A the
    step speeds are 3, 4.5 and 6, classified jogging, running, running,
    with no sprinting step and no sprint. *)
Theorem calculate_speeds_spec :
  (forall sqrt : Q -> Q,
     (forall x, 0 <= sqrt x) ->
     forall frames : list FrameData,
       let speeds := Spec.instant_speeds sqrt frames in
       let steps := length speeds in
       let zones := Physical.speed_zones (Physical._calculate_speeds sqrt frames) in
       Forall (fun s => forall z,
                 Spec.in_zone z s = true <-> Physical.classify_speed s = z) speeds /\
       Physical.walking zones =
         Spec.percent_of (Spec.count_if Spec.in_walking speeds) steps /\
       Physical.jogging zones =
         Spec.percent_of (Spec.count_if Spec.in_jogging speeds) steps /\
       Physical.running zones =
         Spec.percent_of (Spec.count_if Spec.in_running speeds) steps /\
       Physical.sprinting zones =
         Spec.percent_of (Spec.count_if Spec.in_sprinting speeds) steps) /\
  (let speeds := Spec.instant_speeds Qsqrt Spec.scenario_A in
   let result := Physical._calculate_speeds Qsqrt Spec.scenario_A in
   map Qred speeds = [3; 9 # 2; 6] /\
   map Physical.classify_speed speeds =
     [Physical.Jogging; Physical.Running; Physical.Running] /\
   Spec.count_if Spec.in_sprinting speeds = 0%nat /\
   Qred (Physical.sprinting (Physical.speed_zones result)) = 0 /\
   Physical.total_sprints (Physical._analyze_sprints Qsqrt Spec.scenario_A) = 0%nat).
Proof.
  split.
  - intros sqrt Hsqrt frames. apply calculate_speeds_zones, Hsqrt.
  - vm_compute. repeat split; reflexivity.
Qed.

Lemma calculate_speeds_witness :
  let speeds := Spec.instant_speeds Qsqrt Spec.scenario_A in
  let steps := length speeds in
  let zones :=
    Physical.speed_zones (Physical._calculate_speeds Qsqrt Spec.scenario_A) in
  Forall (fun s => forall z,
            Spec.in_zone z s = true <-> Physical.classify_speed s = z) speeds /\
  Physical.walking zones =
    Spec.percent_of (Spec.count_if Spec.in_walking speeds) steps /\
  Physical.jogging zones =
    Spec.percent_of (Spec.count_if Spec.in_jogging speeds) steps /\
  Physical.running zones =
    Spec.percent_of (Spec.count_if Spec.in_running speeds) steps /\
  Physical.sprinting zones =
    Spec.percent_of (Spec.count_if Spec.in_sprinting speeds) steps.
Proof.
  exact (proj1 calculate_speeds_spec Qsqrt Qsqrt_nonneg Spec.scenario_A).
Defined.

(** ** Maximal runs *)

Section Runs.

Context {A : Type} (p : A -> bool).

Lemma maximal_runs_all (r : list A) :
  r <> [] -> forallb p r = true -> Spec.maximal_runs p r = [r].
Proof.
  induction r as [|a [|b r] IH]; intros Hne Hall; [congruence| |].
  - simpl in *. destruct (p a); [reflexivity|discriminate].
  - change (forallb p (a :: b :: r)) with (p a && forallb p (b :: r)) in Hall.
    apply andb_prop in Hall as [Ha Hall].
    assert (Hb : p b = true) by (simpl in Hall; destruct (p b); auto).
    cbn [Spec.maximal_runs] in *. rewrite Ha.
    rewrite IH in * by (auto; discriminate). rewrite Hb. reflexivity.
Qed.

Lemma maximal_runs_block (r : list A) (x : A) (l : list A) :
  r <> [] -> forallb p r = true -> p x = false ->
  Spec.maximal_runs p (r ++ x :: l) = r :: Spec.maximal_runs p l.
Proof.
  intros Hne Hall Hx.
  induction r as [|a [|b r] IH]; [congruence| |].
  - simpl in *. destruct (p a); [|discriminate]. rewrite Hx.
    destruct (Spec.maximal_runs p l); reflexivity.
  - change (forallb p (a :: b :: r)) with (p a && forallb p (b :: r)) in Hall.
    apply andb_prop in Hall as [Ha Hall].
    assert (Hb : p b = true) by (simpl in Hall; destruct (p b); auto).
    change ((a :: b :: r) ++ x :: l) with (a :: ((b :: r) ++ x :: l)).
    cbn [Spec.maximal_runs]. rewrite Ha.
    change (b :: r ++ x :: l) with ((b :: r) ++ x :: l).
    rewrite IH by (auto; discriminate).
    cbn [app]. rewrite Hb. reflexivity.
Qed.

Lemma runs_of_unique (l : list A) (rs : list (list A)) :
  Spec.runs_of p l rs -> rs = Spec.maximal_runs p l.
Proof.
  induction 1 as [|x l rs Hx _ IH|r Hne Hall|r x l rs Hne Hall Hx _ IH].
  - reflexivity.
  - simpl. rewrite Hx. exact IH.
  - symmetry. apply maximal_runs_all; assumption.
  - rewrite maximal_runs_block by assumption. rewrite IH. reflexivity.
Qed.

Lemma split_first_run (l : list A) :
  l = [] \/
  (exists x l', l = x :: l' /\ p x = false) \/
  (l <> [] /\ forallb p l = true) \/
  (exists r x l', l = r ++ x :: l' /\ r <> [] /\ forallb p r = true /\ p x = false).
Proof.
  induction l as [|a l IH]; [auto|]. right.
  destruct (p a) eqn:Ha; [|left; eauto]. right.
  destruct IH as [->|[(x & l' & -> & Hx)|[(Hne & Hall)|(r & x & l' & -> & Hne & Hall & Hx)]]].
  - left. split; [discriminate|]. simpl. rewrite Ha. reflexivity.
  - right. exists [a], x, l'. simpl. rewrite Ha. repeat split; auto; discriminate.
  - left. split; [discriminate|]. simpl. rewrite Ha. exact Hall.
  - right. exists (a :: r), x, l'. simpl. rewrite Ha.
    repeat split; auto; discriminate.
Qed.

Lemma maximal_runs_sound (l : list A) :
  Spec.runs_of p l (Spec.maximal_runs p l).
Proof.
  remember (length l) as n eqn:Hn. revert l Hn.
  induction n as [n IH] using lt_wf_ind. intros l ->.
  destruct (split_first_run l)
    as [->|[(x & l' & -> & Hx)|[(Hne & Hall)|(r & x & l' & -> & Hne & Hall & Hx)]]].
  - constructor.
  - simpl. rewrite Hx. constructor; [exact Hx|].
    apply (IH (length l')); [simpl; lia|reflexivity].
  - rewrite maximal_runs_all by assumption. constructor; assumption.
  - rewrite maximal_runs_block by assumption.
    constructor; try assumption.
    apply (IH (length l')); [|reflexivity].
    rewrite length_app. simpl. lia.
Qed.

End Runs.

(** ** Sprint segmentation *)

Lemma py_max_ub_l (a b : Q) : a <= py_max a b.
Proof.
  unfold py_max. destruct (Qltb a b) eqn:H.
  - apply Qltb_lt in H. apply Qlt_le_weak, H.
  - apply Qle_refl.
Qed.

Lemma py_max_ub_r (a b : Q) : b <= py_max a b.
Proof.
  unfold py_max. destruct (Qltb a b) eqn:H.
  - apply Qle_refl.
  - apply Qltb_ge in H. exact H.
Qed.

Lemma py_max_cases (a b : Q) : py_max a b = a \/ py_max a b = b.
Proof. unfold py_max. destruct (Qltb a b); auto. Qed.

(** [max(l)] is an element of [l] and bounds every element. *)
Lemma Qmaximum_spec (l : list Q) :
  forall x : Q,
    In (Qmaximum x l) (x :: l) /\
    Forall (fun y => y <= Qmaximum x l) (x :: l).
Proof.
  unfold Qmaximum.
  induction l as [|y l IH]; intros x; simpl.
  - split; [auto|]. constructor; [apply Qle_refl|constructor].
  - destruct (IH (py_max x y)) as [Hin Hall].
    set (m := fold_left py_max l (py_max x y)) in *.
    apply List.Forall_cons_iff in Hall as [Hm Hall]. split.
    + destruct Hin as [Hin|Hin]; [|auto].
      destruct (py_max_cases x y) as [E|E]; rewrite E in Hin; auto.
    + constructor; [|constructor; [|exact Hall]].
      * eapply Qle_trans; [apply py_max_ub_l|exact Hm].
      * eapply Qle_trans; [apply py_max_ub_r|exact Hm].
Qed.

Lemma sprint_step_pos (d : Q) : Spec.is_sprint_step d = true -> 0 < d.
Proof.
  unfold Spec.is_sprint_step. rewrite Qltb_lt. intros H. lra.
Qed.

Lemma fold_Qplus_pos (l : list Q) :
  forallb Spec.is_sprint_step l = true ->
  forall a : Q, 0 <= a -> l <> [] -> 0 < fold_left Qplus l a.
Proof.
  induction l as [|d l IH]; intros Hall a Ha Hne; [congruence|].
  simpl in *. apply andb_prop in Hall as [Hd Hall].
  apply sprint_step_pos in Hd.
  destruct l as [|e l]; [simpl; lra|].
  apply IH; [exact Hall|lra|discriminate].
Qed.

Section SprintFacts.

Variable sqrt : Q -> Q.

Local Abbreviation dist :=
  (fun pc : FrameData * FrameData =>
     Physical._calculate_frame_distance sqrt (fst pc) (snd pc)).

(** What [_analyze_sprints] does after its loop. *)
Local Abbreviation finish :=
  (fun st : list Q * Q * bool =>
     if Qltb 0 (snd (fst st))
     then fst (fst st) ++ [snd (fst st)] else fst (fst st)).

Local Abbreviation flag :=
  (fun run : list Q => match run with [] => false | _ :: _ => true end).

(** One iteration of the loop of [_analyze_sprints] while [run] is the
    sprint in progress. *)
Lemma sprints_step_eq (sds run : list Q) (pc : FrameData * FrameData) :
  forallb Spec.is_sprint_step run = true ->
  Physical.sprints_step sqrt (sds, Qsum run, flag run) pc =
  if Spec.is_sprint_step (dist pc)
  then (sds, Qsum (run ++ [dist pc]), flag (run ++ [dist pc]))
  else (match run with [] => sds | _ :: _ => sds ++ [Qsum run] end,
        Qsum [], flag []).
Proof.
  intros Hall. unfold Physical.sprints_step.
  fold (Spec.is_sprint_step (dist pc)).
  destruct (Spec.is_sprint_step (dist pc)).
  - unfold Qsum. rewrite fold_left_app. destruct run; reflexivity.
  - destruct run as [|d run]; [reflexivity|].
    assert (Hpos : 0 < Qsum (d :: run))
      by (apply fold_Qplus_pos; [exact Hall|apply Qle_refl|discriminate]).
    apply Qltb_lt in Hpos. rewrite Hpos. reflexivity.
Qed.

Lemma sprints_loop (pcs : list (FrameData * FrameData)) :
  forall (sds run : list Q),
    forallb Spec.is_sprint_step run = true ->
    finish (fold_left (Physical.sprints_step sqrt) pcs (sds, Qsum run, flag run))
    = sds ++ map Qsum (Spec.maximal_runs Spec.is_sprint_step (run ++ map dist pcs)).
Proof.
  induction pcs as [|pc pcs IH]; intros sds run Hall.
  - cbn [fold_left map fst snd]. rewrite app_nil_r.
    destruct run as [|d run].
    + simpl. rewrite app_nil_r. reflexivity.
    + rewrite maximal_runs_all by (auto; discriminate).
      assert (Hpos : 0 < Qsum (d :: run))
        by (apply fold_Qplus_pos; [exact Hall|apply Qle_refl|discriminate]).
      apply Qltb_lt in Hpos. rewrite Hpos. reflexivity.
  - cbn [fold_left map]. rewrite sprints_step_eq by exact Hall.
    destruct (Spec.is_sprint_step (dist pc)) eqn:Hd.
    + rewrite IH.
      * rewrite <- app_assoc. reflexivity.
      * rewrite forallb_app, Hall. simpl. rewrite Hd. reflexivity.
    + rewrite IH by reflexivity.
      destruct run as [|d run].
      * simpl. rewrite Hd. reflexivity.
      * rewrite maximal_runs_block by (auto; discriminate).
        simpl. rewrite <- app_assoc. reflexivity.
Qed.

Lemma sprint_distances_runs (frames : list FrameData) :
  Physical.sprint_distances_of sqrt frames =
  map Qsum (Spec.maximal_runs Spec.is_sprint_step (Spec.step_distances sqrt frames)).
Proof.
  unfold Physical.sprint_distances_of, Spec.step_distances.
  pose proof (sprints_loop (consecutive frames) [] [] eq_refl) as H.
  simpl in H. rewrite <- H.
  destruct (fold_left _ _ _) as [[sds cur] b]. reflexivity.
Qed.

(** C6.  [_analyze_sprints] on any Player Frame Sequence: the sprints are
    the maximal runs of consecutive steps with [instant_speed > 8]
    (a run is closed by a slower step or by the end of the sequence, so a
    sprint still in progress at the end is counted); the distance of a
    sprint is the sum of the step distances of its run; the result holds
    their number, their mean and their maximum (0 when there is none). *)
Theorem analyze_sprints_spec (frames : list FrameData) :
  let steps := Spec.step_distances sqrt frames in
  let runs := Spec.maximal_runs Spec.is_sprint_step steps in
  let distances := map Qsum runs in
  let result := Physical._analyze_sprints sqrt frames in
  Spec.runs_of Spec.is_sprint_step steps runs /\
  (forall rs, Spec.runs_of Spec.is_sprint_step steps rs <-> rs = runs) /\
  Physical.sprint_distances_of sqrt frames = distances /\
  Physical.total_sprints result = length runs /\
  Physical.avg_sprint_distance result =
    match distances with [] => 0 | _ :: _ => Qmean distances end /\
  Physical.max_sprint_distance result =
    match distances with [] => 0 | d :: ds => Qmaximum d ds end /\
  Forall (fun d => d <= Physical.max_sprint_distance result) distances /\
  (distances = [] \/ In (Physical.max_sprint_distance result) distances).
Proof.
  cbv zeta.
  pose proof (maximal_runs_sound Spec.is_sprint_step
                (Spec.step_distances sqrt frames)) as Hsound.
  split; [exact Hsound|].
  split.
  { intros rs. split; [apply runs_of_unique|intros ->; exact Hsound]. }
  unfold Physical._analyze_sprints. rewrite sprint_distances_runs.
  cbn [Physical.total_sprints Physical.avg_sprint_distance
       Physical.max_sprint_distance].
  split; [reflexivity|].
  split; [apply length_map|].
  split; [reflexivity|].
  split; [reflexivity|].
  destruct (map Qsum _) as [|d ds]; [split; [constructor|auto]|].
  destruct (Qmaximum_spec ds d) as [Hin Hall]. split; [exact Hall|auto].
Qed.

End SprintFacts.

(** ** Technical metrics engine *)

Section TechnicalFacts.

Variable sqrt : Q -> Q.

Lemma passes_step_eq (total successful long short : nat)
  (cn : FrameData * FrameData) :
  exists long' short' : nat,
    Technical.passes_step sqrt (total, successful, long, short) cn =
    ((total + if Spec.is_pass sqrt cn then 1 else 0)%nat,
     (successful + if Spec.is_pass sqrt cn then 1 else 0)%nat,
     long', short').
Proof.
  unfold Technical.passes_step, Spec.is_pass, Technical.pass_threshold,
    Technical._is_pass_successful.
  destruct cn as [current_frame next_frame]. cbn [fst snd].
  destruct (ball current_frame) as [cb|];
    [destruct (ball next_frame) as [nb|]|].
  - destruct (Qltb _ _).
    + destruct (Qltb 20 _); eexists _, _; tuple_eq.
    + eexists _, _; tuple_eq.
  - eexists _, _; tuple_eq.
  - eexists _, _; tuple_eq.
Qed.

(** The loop of [_analyze_passes], from any counters. *)
Lemma passes_loop (pairs : list (FrameData * FrameData)) :
  forall total successful long short : nat,
  exists long' short' : nat,
    fold_left (Technical.passes_step sqrt) pairs (total, successful, long, short) =
    ((total + Spec.count_if (Spec.is_pass sqrt) pairs)%nat,
     (successful + Spec.count_if (Spec.is_pass sqrt) pairs)%nat,
     long', short').
Proof.
  induction pairs as [|cn pairs IH]; intros total successful long short.
  - exists long, short. unfold Spec.count_if. simpl. tuple_eq.
  - cbn [fold_left].
    destruct (passes_step_eq total successful long short cn)
      as (long1 & short1 & ->).
    destruct (IH (total + if Spec.is_pass sqrt cn then 1 else 0)%nat
                 (successful + if Spec.is_pass sqrt cn then 1 else 0)%nat
                 long1 short1) as (long2 & short2 & ->).
    exists long2, short2. rewrite count_if_cons. tuple_eq.
Qed.

(** C10.  [_analyze_passes] on any frame sequence: a pass is detected for
    each pair of consecutive frames that both carry a ball displaced by
    more than 0.7; every detected pass is counted as successful, so
    [successful_passes] equals [total_passes], and [pass_accuracy] is 100
    when [total_passes > 0] and 0 otherwise. *)
Theorem analyze_passes_all_successful (frames_data : list FrameData) :
  let result := Technical._analyze_passes sqrt frames_data in
  Technical.total_passes result =
    Spec.count_if (Spec.is_pass sqrt) (consecutive frames_data) /\
  Technical.successful_passes result = Technical.total_passes result /\
  Technical.pass_accuracy result ==
    (if (0 <? Technical.total_passes result)%nat then 100 else 0).
Proof.
  cbv zeta. unfold Technical._analyze_passes.
  destruct (passes_loop (consecutive frames_data) 0 0 0 0)
    as (long & short & ->).
  cbn [Technical.total_passes Technical.successful_passes
       Technical.pass_accuracy Nat.add].
  set (n := Spec.count_if (Spec.is_pass sqrt) (consecutive frames_data)).
  split; [reflexivity|]. split; [reflexivity|].
  destruct (0 <? n)%nat eqn:Hn; [|reflexivity].
  apply Nat.ltb_lt in Hn.
  assert (Hz : ~ inject_Z (Z.of_nat n) == 0).
  { unfold Qeq. simpl. lia. }
  field. exact Hz.
Qed.

End TechnicalFacts.

(** ** The empty sequence *)

(** C8.  On the empty Player Frame Sequence each metrics engine returns
    its all-zero structure: [PhysicalAnalyzer.analyze] and
    [TacticalAnalyzer.analyze] (whatever the team sequence) return their
    [_empty_analysis], whose numbers are all 0 and whose collections are
    empty, before any frame is indexed or any division is made, and every
    loop of [TechnicalAnalyzer.analyze] runs zero times and every guarded
    division is skipped. *)
Theorem empty_sequence_all_zero :
  (forall sqrt : Q -> Q,
     Physical.analyze sqrt [] = Physical._empty_analysis /\
     Physical.analyze sqrt [] =
       {| Physical.distance :=
            {| Physical.total_distance := 0;
               Physical.high_intensity_distance := 0;
               Physical.sprint_distance := 0 |};
          Physical.speed :=
            {| Physical.avg_speed := 0;
               Physical.max_speed := 0;
               Physical.speed_zones :=
                 {| Physical.walking := 0; Physical.jogging := 0;
                    Physical.running := 0; Physical.sprinting := 0 |} |};
          Physical.sprints :=
            {| Physical.total_sprints := 0;
               Physical.avg_sprint_distance := 0;
               Physical.max_sprint_distance := 0 |};
          Physical.effort :=
            {| Physical.total_effort := 0;
               Physical.effort_zones :=
                 {| Physical.low := 0; Physical.medium := 0;
                    Physical.high := 0 |} |} |}) /\
  (forall positioning passing off_ball space (team_frames : list FrameData),
     Tactical.analyze positioning passing off_ball space [] team_frames =
       Tactical._empty_analysis /\
     Tactical.analyze positioning passing off_ball space [] team_frames =
       {| Tactical.positioning :=
            {| Tactical.heat_map := [];
               Tactical.zone_coverage := [];
               Tactical.average_position := (0, 0) |};
          Tactical.passing :=
            {| Tactical.total_passes := 0;
               Tactical.successful_passes := 0;
               Tactical.pass_types :=
                 {| Tactical.short := 0; Tactical.medium := 0;
                    Tactical.long := 0 |};
               Tactical.pass_directions :=
                 {| Tactical.forward := 0; Tactical.backward := 0;
                    Tactical.lateral := 0 |} |};
          Tactical.off_ball_movement :=
            {| Tactical.movement_score := 0;
               Tactical.space_creation := 0;
               Tactical.support_runs := 0 |};
          Tactical.space_utilization :=
            {| Tactical.space_score := 0;
               Tactical.space_created := 0;
               Tactical.space_occupied := 0 |} |}) /\
  (forall sqrt : Q -> Q,
     Technical.analyze sqrt [] =
       {| Technical.passes :=
            {| Technical.total_passes := 0;
               Technical.successful_passes := 0;
               Technical.pass_accuracy := 0;
               Technical.long_passes := 0;
               Technical.short_passes := 0 |};
          Technical.shots :=
            {| Technical.total_shots := 0;
               Technical.shots_on_target := 0;
               Technical.goals := 0;
               Technical.shot_accuracy := 0 |};
          Technical.ball_possession :=
            {| Technical.total_touches := 0;
               Technical.possession_duration := 0;
               Technical.possession_percentage := 0 |};
          Technical.tackles :=
            {| Technical.successful_tackles := 0;
               Technical.failed_tackles := 0;
               Technical.tackle_success_rate := 0 |};
          Technical.interceptions :=
            {| Technical.total_interceptions := 0;
               Technical.successful_interceptions := 0 |} |}).
Proof.
  split; [|split].
  - intros sqrt. split; reflexivity.
  - intros positioning passing off_ball space team_frames. split; reflexivity.
  - intros sqrt. reflexivity.
Qed.

(** ** Track store: the bounded window *)

Lemma deque_append_length {A : Type} (d : list A) (x : A) :
  (length d <= Video.maxlen)%nat ->
  (length (Video.deque_append d x) <= Video.maxlen)%nat.
Proof.
  intros Hd. unfold Video.deque_append, Video.maxlen in *.
  destruct (length d <? 30)%nat eqn:Hlt.
  - apply Nat.ltb_lt in Hlt. rewrite length_app. cbn [length]. lia.
  - destruct d; cbn [length tl] in *; rewrite ?length_app; cbn [length]; lia.
Qed.

Lemma deque_append_grow {A : Type} (d : list A) (x : A) :
  (length d < Video.maxlen)%nat -> Video.deque_append d x = d ++ [x].
Proof.
  intros Hd. unfold Video.deque_append.
  apply Nat.ltb_lt in Hd. rewrite Hd. reflexivity.
Qed.

Lemma deque_append_evict {A : Type} (d : list A) (x : A) :
  length d = Video.maxlen -> Video.deque_append d x = tl d ++ [x].
Proof.
  intros Hd. unfold Video.deque_append.
  rewrite Hd, Nat.ltb_irrefl. reflexivity.
Qed.


Lemma deque_append_last {A : Type} (d : list A) (x : A) :
  last (Video.deque_append d x) = Some x.
Proof.
  unfold Video.deque_append. destruct (length d <? Video.maxlen)%nat;
    apply last_snoc.
Qed.

Section StoreFacts.

Variable sqrt : Q -> Q.
Variable cosine : Video.Features -> Video.Features -> Q.
Variable motion_summary : list (Q * Q) -> Video.Features.
Variable pose_angles : list (Q * Q * Q) -> Video.Features.

Local Abbreviation reachable :=
  (Reach.reachable sqrt cosine motion_summary pose_angles).
Local Abbreviation process_track :=
  (Video.process_track sqrt cosine motion_summary).
Local Abbreviation update_person :=
  (Video.update_person sqrt motion_summary).
Local Abbreviation bounded := Reach.bounded.

Lemma update_player_stats_positions (frame_count : nat) (p : Video.Player)
  (new_position : Q * Q) :
  Video.positions (Video._update_player_stats sqrt frame_count p new_position) =
  Video.deque_append (Video.positions p) new_position.
Proof.
  unfold Video._update_player_stats.
  destruct (last (Video.positions p)); reflexivity.
Qed.

Lemma update_person_player (vp : Video.VideoProcessor) (loc : Video.FrameLocal)
  (i : Z) (b : Video.BoxData) (c : Q * Q) :
  exists p' : Video.Player,
    Video.self_players (fst (update_person vp loc i b c)) =
      <[i := p']> (Video.self_players vp) /\
    Video.positions p' =
      Video.deque_append
        (Video.positions (default (Video.Player_init i c)
                            (Video.self_players vp !! i))) c /\
    Video.possession_frames p' =
      Video.possession_frames (default (Video.Player_init i c)
                                 (Video.self_players vp !! i)).
Proof.
  unfold Video.update_person. cbn [fst].
  set (p0 := match Video.self_players vp !! i with
             | Some p => p
             | None => Video.Player_init i c
             end).
  assert (Hp0 : p0 = default (Video.Player_init i c) (Video.self_players vp !! i))
    by (subst p0; destruct (Video.self_players vp !! i); reflexivity).
  rewrite <- Hp0.
  eexists. split; [reflexivity|].
  destruct (Video._extract_motion_features _ _); cbn;
    rewrite ?update_player_stats_positions; split; try reflexivity;
    unfold Video._update_player_stats; destruct (last (Video.positions p0));
    reflexivity.
Qed.

(** A property of players that [Player.__init__] establishes and the three
    player updates keep holds of every stored player in every reachable
    state. *)
Section PlayerInvariant.

Variable P : Video.Player -> Prop.
Hypothesis P_init : forall i c, P (Video.Player_init i c).
Hypothesis P_update :
  forall fc p c, P p -> P (Video._update_player_stats sqrt fc p c).
Hypothesis P_motion : forall p f, P p -> P (Video.add_motion_features p f).
Hypothesis P_pose : forall p f, P p -> P (Video.add_pose_features p f).

Local Abbreviation holds :=
  (fun vp : Video.VideoProcessor =>
     map_Forall (fun (_ : Z) (p : Video.Player) => P p) (Video.self_players vp)).

Lemma update_person_inv (vp : Video.VideoProcessor) (loc : Video.FrameLocal)
  (i : Z) (b : Video.BoxData) (c : Q * Q) :
  holds vp -> holds (fst (update_person vp loc i b c)).
Proof.
  intros Hb. unfold Video.update_person. cbn [fst Video.set_players Video.self_players].
  apply map_Forall_insert_2; [|exact Hb].
  assert (H0 : P (match Video.self_players vp !! i with
                  | Some p => p
                  | None => Video.Player_init i c
                  end)).
  { destruct (Video.self_players vp !! i) as [p|] eqn:Hp;
      [exact (Hb i p Hp)|apply P_init]. }
  destruct (Video._extract_motion_features _ _);
    [apply P_motion|]; apply P_update, H0.
Qed.

Lemma process_track_inv (ybc : list (Box * Video.BoxData))
  (vp : Video.VideoProcessor) (loc : Video.FrameLocal) (track : Video.Track) :
  holds vp -> holds (fst (process_track ybc (vp, loc) track)).
Proof.
  intros Hb. unfold Video.process_track.
  destruct (negb (Video.is_confirmed track)); [exact Hb|].
  destruct (Video.find_best_box _ _ _ _ _) as [best|]; [|exact Hb].
  destruct (Video._handle_occlusion _ _ _ _) as [oh pred].
  set (vp1 := match Video.bd_features best with
              | Some f => _
              | None => _
              end).
  assert (Hb1 : holds vp1)
    by (subst vp1; destruct (Video.bd_features best); exact Hb).
  clearbody vp1.
  destruct (if (5 <? _)%nat then _ else _) as [c|]; [|exact Hb1].
  destruct (Video.get_det_class track =? 0)%Z;
    [apply update_person_inv, Hb1|].
  destruct (Video.get_det_class track =? 32)%Z; exact Hb1.
Qed.

Lemma pose_step_inv (inp : Video.FrameInput) (vp : Video.VideoProcessor)
  (pose_data : list PoseData) (player : PlayerData) :
  holds vp ->
  holds (fst (Video.pose_step pose_angles inp (vp, pose_data) player)).
Proof.
  intros Hb. unfold Video.pose_step.
  destruct (Video.pose_landmarks inp player) as [lm|]; [|exact Hb].
  cbn [fst Video._extract_pose_features].
  destruct (Video.self_players vp !! id player) as [p|] eqn:Hp; [|exact Hb].
  cbn. apply map_Forall_insert_2; [|exact Hb].
  apply P_pose. exact (Hb _ _ Hp).
Qed.

Lemma reachable_inv (vp : Video.VideoProcessor) :
  reachable vp -> holds vp.
Proof.
  induction 1 as [|vp n _ IH|vp loc ybc track _ IH|vp pd inp player _ IH].
  - cbn. apply map_Forall_empty.
  - exact IH.
  - apply process_track_inv, IH.
  - apply pose_step_inv, IH.
Qed.

End PlayerInvariant.

Lemma reachable_bounded (vp : Video.VideoProcessor) :
  reachable vp -> bounded vp.
Proof.
  refine (@reachable_inv
            (fun p => (length (Video.positions p) <= Video.maxlen)%nat)
            _ _ _ _ vp).
  - intros i c. cbn. unfold Video.maxlen. lia.
  - intros fc p c Hp. rewrite update_player_stats_positions.
    apply deque_append_length, Hp.
  - intros p f Hp. exact Hp.
  - intros p f Hp. exact Hp.
Qed.

(** No statement of [process_video] writes [possession_frames]. *)
Lemma reachable_possession_zero (vp : Video.VideoProcessor) :
  reachable vp ->
  map_Forall (fun (_ : Z) (p : Video.Player) =>
                Video.possession_frames p = 0%nat) (Video.self_players vp).
Proof.
  refine (@reachable_inv (fun p => Video.possession_frames p = 0%nat)
            _ _ _ _ vp).
  - reflexivity.
  - intros fc p c Hp. unfold Video._update_player_stats.
    destruct (last (Video.positions p)); exact Hp.
  - intros p f Hp. exact Hp.
  - intros p f Hp. exact Hp.
Qed.

(** Every state of a run is reachable. *)
Lemma process_tracks_reachable (ybc : list (Box * Video.BoxData))
  (tracks : list Video.Track) :
  forall st : Video.VideoProcessor * Video.FrameLocal,
    reachable (fst st) ->
    reachable (fst (fold_left (process_track ybc) tracks st)).
Proof.
  induction tracks as [|t tracks IH]; intros [vp loc] H; [exact H|].
  cbn [fold_left]. apply IH. apply Reach.reach_track, H.
Qed.

Lemma analyze_poses_reachable (inp : Video.FrameInput)
  (players_data : list PlayerData) :
  forall st : Video.VideoProcessor * list PoseData,
    reachable (fst st) ->
    reachable (fst (fold_left (Video.pose_step pose_angles inp) players_data st)).
Proof.
  induction players_data as [|p ps IH]; intros [vp pd] H; [exact H|].
  cbn [fold_left]. apply IH. apply Reach.reach_pose, H.
Qed.

Lemma process_frame_reachable (vp : Video.VideoProcessor) (inp : Video.FrameInput) :
  reachable vp ->
  reachable (fst (Video.process_frame sqrt cosine motion_summary pose_angles vp inp)).
Proof.
  intros H. unfold Video.process_frame.
  pose proof (process_tracks_reachable
                (Video.yolo_boxes_current_of (Video.yolo_boxes inp))
                (Video.tracks inp)
                (vp, {| Video.other_boxes := [];
                        Video.frame_players_data := [];
                        Video.ball_data := None |}) H) as H1.
  destruct (fold_left _ (Video.tracks inp) _) as [vp1 loc].
  unfold Video._analyze_poses.
  pose proof (analyze_poses_reachable inp (Video.frame_players_data loc)
                (vp1, []) H1) as H2.
  destruct (fold_left _ (Video.frame_players_data loc) _) as [vp2 pd].
  exact H2.
Qed.

Lemma decode_step_reachable (st : Video.VideoProcessor * list FrameData)
  (frame : option Video.FrameInput) :
  reachable (fst st) ->
  reachable (fst (Video.decode_step sqrt cosine motion_summary pose_angles st frame)).
Proof.
  destruct st as [vp fd]. intros H. unfold Video.decode_step.
  destruct (negb _); [apply Reach.reach_count, H|].
  destruct frame as [inp|]; [|apply Reach.reach_count, H].
  pose proof (process_frame_reachable _ inp
                (Reach.reach_count _ _ _ _ _ (S (Video.self_frame_count vp)) H))
    as H1.
  destruct (Video.process_frame _ _ _ _ _ _) as [vp1 f]. exact H1.
Qed.

Lemma run_reachable (vp : Video.VideoProcessor)
  (video : list (option Video.FrameInput)) :
  reachable vp ->
  reachable (fst (Video.run sqrt cosine motion_summary pose_angles vp video)).
Proof.
  intros H. unfold Video.run.
  assert (H0 : reachable (fst (Video.set_frame_count vp 0, @nil FrameData)))
    by (apply Reach.reach_count, H).
  revert H0. generalize (Video.set_frame_count vp 0, @nil FrameData).
  induction video as [|f video IH]; intros st Hst; [exact Hst|].
  cbn [fold_left]. apply IH, decode_step_reachable, Hst.
Qed.

End StoreFacts.

Section WindowTheorem.

Variable sqrt : Q -> Q.
Variable cosine : Video.Features -> Video.Features -> Q.
Variable motion_summary : list (Q * Q) -> Video.Features.
Variable pose_angles : list (Q * Q * Q) -> Video.Features.

(** C9.  In every state that occurs during processing every player's
    position list holds at most 30 entries, and the update of a stored
    player appends the new position, dropping the oldest entry first when
    the list already holds 30. *)
Theorem positions_window (vp : Video.VideoProcessor) :
  Reach.reachable sqrt cosine motion_summary pose_angles vp ->
  forall (i : Z) (p : Video.Player),
    Video.self_players vp !! i = Some p ->
    (length (Video.positions p) <= 30)%nat /\
    forall (frame_count : nat) (new_position : Q * Q),
      Video.positions (Video._update_player_stats sqrt frame_count p new_position) =
      if (length (Video.positions p) <? 30)%nat
      then Video.positions p ++ [new_position]
      else tl (Video.positions p) ++ [new_position].
Proof.
  intros Hreach i p Hp.
  split.
  - pose proof (reachable_bounded _ _ _ _ _ Hreach) as Hb. exact (Hb i p Hp).
  - intros frame_count new_position.
    rewrite update_player_stats_positions. reflexivity.
Qed.

End WindowTheorem.

Lemma positions_window_witness :
  let vp :=
    fst (Video.run Qsqrt Sample.cosine Sample.motion_summary
           Sample.pose_angles Video.VideoProcessor_init (Sample.standing 2)) in
  Reach.reachable Qsqrt Sample.cosine Sample.motion_summary Sample.pose_angles vp /\
  exists p : Video.Player,
    Video.self_players vp !! 1%Z = Some p /\
    (length (Video.positions p) <= 30)%nat /\
    forall (frame_count : nat) (new_position : Q * Q),
      Video.positions (Video._update_player_stats Qsqrt frame_count p new_position) =
      if (length (Video.positions p) <? 30)%nat
      then Video.positions p ++ [new_position]
      else tl (Video.positions p) ++ [new_position].
Proof.
  cbv zeta.
  refine ((fun Hreach => conj Hreach _)
            (run_reachable Qsqrt Sample.cosine Sample.motion_summary
               Sample.pose_angles Video.VideoProcessor_init (Sample.standing 2)
               (Reach.reach_init Qsqrt Sample.cosine Sample.motion_summary
                  Sample.pose_angles))).
  eexists.
  refine ((fun Hp =>
             conj Hp (positions_window Qsqrt Sample.cosine Sample.motion_summary
                        Sample.pose_angles _ Hreach 1%Z _ Hp)) _).
  vm_compute. reflexivity.
Defined.

(** After 40 processed frames the window of the tracked player is full. *)
Example standing_window_full :
  (fun p => length (Video.positions p)) <$>
    (Video.self_players (fst (Sample.run (Sample.standing 40))) !! 1%Z)
  = Some 30%nat.
Proof. vm_compute. reflexivity. Qed.

(** ** Final statistics *)

Section FinalStatistics.

Variable sqrt : Q -> Q.
Variable cosine : Video.Features -> Video.Features -> Q.
Variable motion_summary : list (Q * Q) -> Video.Features.
Variable pose_angles : list (Q * Q * Q) -> Video.Features.

Local Abbreviation process_track :=
  (Video.process_track sqrt cosine motion_summary).

Lemma process_track_frame_count (ybc : list (Box * Video.BoxData))
  (vp : Video.VideoProcessor) (loc : Video.FrameLocal) (track : Video.Track) :
  Video.self_frame_count (fst (process_track ybc (vp, loc) track)) =
  Video.self_frame_count vp.
Proof.
  unfold Video.process_track.
  destruct (negb (Video.is_confirmed track)); [reflexivity|].
  destruct (Video.find_best_box _ _ _ _ _) as [best|]; [|reflexivity].
  destruct (Video._handle_occlusion _ _ _ _) as [oh pred].
  destruct (Video.bd_features best);
    (destruct (if (5 <? _)%nat then _ else _) as [c|]; [|reflexivity];
     destruct (Video.get_det_class track =? 0)%Z; [reflexivity|];
     destruct (Video.get_det_class track =? 32)%Z; reflexivity).
Qed.

Lemma process_tracks_frame_count (ybc : list (Box * Video.BoxData))
  (tracks : list Video.Track) :
  forall st : Video.VideoProcessor * Video.FrameLocal,
    Video.self_frame_count (fst (fold_left (process_track ybc) tracks st)) =
    Video.self_frame_count (fst st).
Proof.
  induction tracks as [|t tracks IH]; intros [vp loc]; [reflexivity|].
  cbn [fold_left]. rewrite IH.
  destruct (process_track ybc (vp, loc) t) as [vp1 loc1] eqn:E.
  change vp1 with (fst (vp1, loc1)). rewrite <- E.
  apply process_track_frame_count.
Qed.

Lemma pose_steps_frame_count (inp : Video.FrameInput)
  (players_data : list PlayerData) :
  forall st : Video.VideoProcessor * list PoseData,
    Video.self_frame_count
      (fst (fold_left (Video.pose_step pose_angles inp) players_data st)) =
    Video.self_frame_count (fst st).
Proof.
  induction players_data as [|p ps IH]; intros [vp pd]; [reflexivity|].
  cbn [fold_left]. rewrite IH. unfold Video.pose_step.
  destruct (Video.pose_landmarks inp p); [|reflexivity].
  cbn [Video._extract_pose_features].
  destruct (Video.self_players vp !! id p); reflexivity.
Qed.

Lemma process_frame_frame_count (vp : Video.VideoProcessor)
  (inp : Video.FrameInput) :
  Video.self_frame_count
    (fst (Video.process_frame sqrt cosine motion_summary pose_angles vp inp)) =
  Video.self_frame_count vp.
Proof.
  unfold Video.process_frame.
  pose proof (process_tracks_frame_count
                (Video.yolo_boxes_current_of (Video.yolo_boxes inp))
                (Video.tracks inp)
                (vp, {| Video.other_boxes := [];
                        Video.frame_players_data := [];
                        Video.ball_data := None |})) as H1.
  destruct (fold_left _ (Video.tracks inp) _) as [vp1 loc].
  unfold Video._analyze_poses.
  pose proof (pose_steps_frame_count inp (Video.frame_players_data loc)
                (vp1, [])) as H2.
  destruct (fold_left _ (Video.frame_players_data loc) _) as [vp2 pd].
  cbn [fst] in *. congruence.
Qed.

Lemma decode_step_frame_count (st : Video.VideoProcessor * list FrameData)
  (frame : option Video.FrameInput) :
  Video.self_frame_count
    (fst (Video.decode_step sqrt cosine motion_summary pose_angles st frame)) =
  S (Video.self_frame_count (fst st)).
Proof.
  destruct st as [vp fd]. unfold Video.decode_step.
  destruct (negb _); [reflexivity|].
  destruct frame as [inp|]; [|reflexivity].
  pose proof (process_frame_frame_count
                (Video.set_frame_count vp (S (Video.self_frame_count vp))) inp)
    as H.
  destruct (Video.process_frame _ _ _ _ _ _) as [vp1 f]. exact H.
Qed.

(** [self.frame_count] counts the decoded frames of the run. *)
Lemma run_frame_count (vp : Video.VideoProcessor)
  (video : list (option Video.FrameInput)) :
  Video.self_frame_count
    (fst (Video.run sqrt cosine motion_summary pose_angles vp video)) =
  length video.
Proof.
  unfold Video.run.
  assert (H : forall st,
             Video.self_frame_count
               (fst (fold_left
                       (Video.decode_step sqrt cosine motion_summary pose_angles)
                       video st)) =
             (Video.self_frame_count (fst st) + length video)%nat).
  { induction video as [|f video IH]; intros st; cbn [fold_left length].
    - lia.
    - rewrite IH, decode_step_frame_count. lia. }
  rewrite H. reflexivity.
Qed.

(** The [player_stats] comprehension maps every stored player to its
    summary, computed with the final [self.frame_count]. *)
Lemma process_video_stats (vp : Video.VideoProcessor)
  (video : list (option Video.FrameInput)) (i : Z) (st : Video.PlayerStats) :
  let out := Video.process_video sqrt cosine motion_summary pose_angles vp video in
  Video.player_stats (snd out) !! i = Some st <->
  exists p : Video.Player,
    Video.self_players (fst out) !! i = Some p /\
    st = Video.final_stats (length video) p.
Proof.
  cbv zeta. unfold Video.process_video.
  pose proof (run_frame_count vp video) as Hfc.
  destruct (Video.run _ _ _ _ _ _) as [vp' frames_data].
  cbn [fst snd Video.total_frames Video.player_stats] in *.
  unfold Video.finalize. rewrite lookup_fmap, Hfc.
  destruct (Video.self_players vp' !! i) as [p|]; cbn.
  - split.
    + intros [= <-]. exists p. auto.
    + intros (p' & [= <-] & ->). reflexivity.
  - split; [discriminate|]. intros (p' & Hp & _). discriminate.
Qed.



(** On a processor fresh from [__init__] the report is 0 for every player:
    no statement of the run writes [possession_frames]. *)
Lemma fresh_run_possession_percentage (video : list (option Video.FrameInput))
  (i : Z) (st : Video.PlayerStats) :
  Video.player_stats
    (snd (Video.process_video sqrt cosine motion_summary pose_angles
            Video.VideoProcessor_init video)) !! i = Some st ->
  Video.ps_possession_percentage st == 0.
Proof.
  intros Hst.
  apply process_video_stats in Hst as (p & Hp & ->).
  cbn [Video.final_stats Video.ps_possession_percentage].
  assert (Hzero : Video.possession_frames p = 0%nat).
  { refine (reachable_possession_zero sqrt cosine motion_summary pose_angles
              _ _ i p Hp).
    unfold Video.process_video.
    pose proof (run_reachable sqrt cosine motion_summary pose_angles
                  Video.VideoProcessor_init video
                  (Reach.reach_init sqrt cosine motion_summary pose_angles))
      as Hr.
    destruct (Video.run _ _ _ _ _ _) as [vp' fd]. exact Hr. }
  rewrite Hzero. destruct (0 <? length video)%nat; [|reflexivity].
  unfold Qeq, Qmult, Qdiv. cbn. reflexivity.
Qed.

End FinalStatistics.


(** ** Association of tracks and detections *)

Section AssociationFacts.

Variable sqrt : Q -> Q.
Variable cosine : Video.Features -> Video.Features -> Q.
Variable motion_summary : list (Q * Q) -> Video.Features.

Section BestBox.

Variable feature_history : gmap Z Video.Features.
Variable track_id : Z.
Variable ltrb : Box.

Local Abbreviation score :=
  (Video.match_score cosine feature_history track_id ltrb).

(** What the search for [best_box] has established once it has seen the
    candidates [seen]. *)
Local Abbreviation searched :=
  (fun (seen : list (Box * Video.BoxData)) (acc : option Video.BoxData * Q) =>
     match fst acc with
     | None => snd acc = 3 # 10 /\ Forall (fun kv => score kv <= 3 # 10) seen
     | Some b =>
         exists pre k post,
           seen = pre ++ (k, b) :: post /\
           snd acc = score (k, b) /\
           3 # 10 < score (k, b) /\
           Forall (fun kv => score kv < score (k, b)) pre /\
           Forall (fun kv => score kv <= score (k, b)) post
     end).

Lemma best_step_searched (seen : list (Box * Video.BoxData))
  (acc : option Video.BoxData * Q) (kv : Box * Video.BoxData) :
  searched seen acc ->
  searched (seen ++ [kv])
    (Video.best_step cosine feature_history track_id ltrb acc kv).
Proof.
  destruct acc as [best m]. unfold Video.best_step. cbn [fst snd].
  destruct kv as [k b']. intros H.
  destruct (Qltb m (score (k, b'))) eqn:Hlt; cbn [fst snd].
  - apply Qltb_lt in Hlt. exists seen, k, []. split; [reflexivity|].
    split; [reflexivity|].
    destruct best as [b|].
    + destruct H as (pre & k0 & post & -> & -> & H3 & Hpre & Hpost).
      split; [lra|]. split; [|constructor].
      apply Forall_app. split; [|apply Forall_cons; split].
      * eapply Forall_impl; [exact Hpre|]. cbn. intros kv Hkv. lra.
      * exact Hlt.
      * eapply Forall_impl; [exact Hpost|]. cbn. intros kv Hkv. lra.
    + destruct H as [-> Hall]. split; [exact Hlt|]. split; [|constructor].
      eapply Forall_impl; [exact Hall|]. cbn. intros kv Hkv. lra.
  - apply Qltb_ge in Hlt. destruct best as [b|].
    + destruct H as (pre & k0 & post & -> & -> & H3 & Hpre & Hpost).
      exists pre, k0, (post ++ [(k, b')]).
      split; [rewrite <- app_assoc; reflexivity|].
      split; [reflexivity|]. split; [exact H3|]. split; [exact Hpre|].
      apply Forall_app. split; [exact Hpost|].
      apply Forall_cons. split; [exact Hlt|constructor].
    + destruct H as [-> Hall]. split; [reflexivity|].
      apply Forall_app. split; [exact Hall|].
      apply Forall_cons. split; [exact Hlt|constructor].
Qed.

Lemma best_loop_searched (rest : list (Box * Video.BoxData)) :
  forall (seen : list (Box * Video.BoxData)) (acc : option Video.BoxData * Q),
    searched seen acc ->
    searched (seen ++ rest)
      (fold_left (Video.best_step cosine feature_history track_id ltrb) rest acc).
Proof.
  induction rest as [|kv rest IH]; intros seen acc H.
  - rewrite app_nil_r. exact H.
  - cbn [fold_left].
    replace (seen ++ kv :: rest) with ((seen ++ [kv]) ++ rest)
      by (rewrite <- app_assoc; reflexivity).
    apply IH, best_step_searched, H.
Qed.

Lemma find_best_box_searched (yolo_boxes_current : list (Box * Video.BoxData)) :
  match Video.find_best_box cosine feature_history track_id ltrb
          yolo_boxes_current with
  | Some b =>
      exists pre k post,
        yolo_boxes_current = pre ++ (k, b) :: post /\
        3 # 10 < score (k, b) /\
        Forall (fun kv => score kv < score (k, b)) pre /\
        Forall (fun kv => score kv <= score (k, b)) post
  | None => Forall (fun kv => score kv <= 3 # 10) yolo_boxes_current
  end.
Proof.
  unfold Video.find_best_box.
  pose proof (@best_loop_searched yolo_boxes_current [] (None, 3 # 10)) as H.
  cbn [app] in H.
  destruct (fold_left _ yolo_boxes_current _) as [[b|] m]; cbn [fst snd] in *.
  - destruct H as (pre & k & post & E & _ & H3 & Hpre & Hpost).
    { split; [reflexivity|constructor]. }
    exists pre, k, post. auto.
  - apply H. split; [reflexivity|constructor].
Qed.

End BestBox.

(** The tracks that received a box are, in order, among the tracks of the
    frame. *)
Lemma association_tracks (ybc : list (Box * Video.BoxData))
  (tracks : list Video.Track) :
  forall (st : Video.VideoProcessor * Video.FrameLocal)
         (m : list (Z * Video.BoxData)),
  exists ts : list Z,
    map fst (snd (fold_left (Association.association_step sqrt cosine
                               motion_summary ybc) tracks (st, m)))
      = map fst m ++ ts /\
    sublist ts (map Video.track_id tracks).
Proof.
  induction tracks as [|t tracks IH]; intros st m.
  - exists []. cbn. rewrite app_nil_r. split; [reflexivity|constructor].
  - cbn [fold_left]. unfold Association.association_step at 2.
    destruct (Video.is_confirmed t).
    + destruct (Video.find_best_box _ _ _ _ _) as [b|].
      * destruct (IH (Video.process_track sqrt cosine motion_summary ybc st t)
                     (m ++ [(Video.track_id t, b)])) as (ts & -> & Hs).
        exists (Video.track_id t :: ts). split.
        -- rewrite map_app, <- app_assoc. reflexivity.
        -- cbn. constructor. exact Hs.
      * destruct (IH (Video.process_track sqrt cosine motion_summary ybc st t) m)
          as (ts & -> & Hs).
        exists ts. split; [reflexivity|]. cbn. constructor. exact Hs.
    + destruct (IH (Video.process_track sqrt cosine motion_summary ybc st t) m)
        as (ts & -> & Hs).
      exists ts. split; [reflexivity|]. cbn. constructor. exact Hs.
Qed.

Lemma NoDup_fst_functional (m : list (Z * Video.BoxData)) :
  NoDup (map fst m) -> Association.functional m.
Proof.
  unfold Association.functional.
  induction m as [|[t0 b0] m IH]; intros Hnd t b1 b2 H1 H2; [destruct H1|].
  cbn in Hnd. apply NoDup_cons in Hnd as [Hnot Hnd].
  assert (Hin : forall b, In (t0, b) m -> False).
  { intros b Hb. apply Hnot. apply list_elem_of_In.
    apply in_map_iff. exists (t0, b). auto. }
  destruct H1 as [E1|H1], H2 as [E2|H2].
  - congruence.
  - inversion E1; subst. destruct (Hin _ H2).
  - inversion E2; subst. destruct (Hin _ H1).
  - exact (IH Hnd t b1 b2 H1 H2).
Qed.

(** C2, as the code has it.  In every frame each confirmed track is given
    at most one detection, found by a search of its own over all the
    detection boxes of the frame: the first box that attains the highest
    fused score, provided that score exceeds 0.3; boxes given to other
    tracks are not removed from the search.  With the distinct track ids
    the tracker delivers, the association of the frame is therefore a
    partial function from tracks to detections. *)
Theorem association_spec :
  (forall (feature_history : gmap Z Video.Features) (track_id : Z) (ltrb : Box)
          (yolo_boxes_current : list (Box * Video.BoxData)),
     let score := Video.match_score cosine feature_history track_id ltrb in
     match Video.find_best_box cosine feature_history track_id ltrb
             yolo_boxes_current with
     | Some b =>
         exists pre k post,
           yolo_boxes_current = pre ++ (k, b) :: post /\
           3 # 10 < score (k, b) /\
           Forall (fun kv => score kv < score (k, b)) pre /\
           Forall (fun kv => score kv <= score (k, b)) post
     | None => Forall (fun kv => score kv <= 3 # 10) yolo_boxes_current
     end) /\
  (forall (vp : Video.VideoProcessor) (inp : Video.FrameInput),
     NoDup (map Video.track_id (Video.tracks inp)) ->
     Association.functional
       (Association.association sqrt cosine motion_summary vp inp)).
Proof.
  split.
  - intros fh i ltrb ybc. apply find_best_box_searched.
  - intros vp inp Hnd. apply NoDup_fst_functional.
    unfold Association.association.
    destruct (association_tracks
                (Video.yolo_boxes_current_of (Video.yolo_boxes inp))
                (Video.tracks inp)
                (vp, {| Video.other_boxes := [];
                        Video.frame_players_data := [];
                        Video.ball_data := None |}) [])
      as (ts & -> & Hs).
    cbn [map app]. eapply sublist_NoDup; eassumption.
Qed.

End AssociationFacts.

Lemma association_spec_witness :
  Association.functional
    (Association.association Qsqrt Sample.cosine Sample.motion_summary
       Video.VideoProcessor_init Sample.two_tracks_one_box).
Proof.
  apply (proj2 (association_spec Qsqrt Sample.cosine Sample.motion_summary)).
  cbn. apply NoDup_cons_2; [|apply NoDup_singleton].
  intros H. apply list_elem_of_singleton in H. discriminate H.
Defined.

(** C2, as the specification has it, fails: with two confirmed tracks on
    the box of the only detection, both tracks are given that detection,
    and the frame record lists two players on the same box. *)
Lemma association_counterexample :
  let detection :=
    {| Video.bd_box := (0, 0, 10, 20); Video.bd_conf := 9 # 10;
       Video.bd_cls := 0; Video.bd_features := None |} in
  let matching :=
    Association.association Qsqrt Sample.cosine Sample.motion_summary
      Video.VideoProcessor_init Sample.two_tracks_one_box in
  matching = [(1%Z, detection); (2%Z, detection)] /\
  map (fun p => (id p, bbox p))
    (players (snd (Video.process_frame Qsqrt Sample.cosine Sample.motion_summary
                     Sample.pose_angles Video.VideoProcessor_init
                     Sample.two_tracks_one_box)))
  = [(1%Z, (0, 0, 10, 20)); (2%Z, (0, 0, 10, 20))] /\
  ~ Association.injective matching.
Proof.
  cbv zeta.
  assert (E : Association.association Qsqrt Sample.cosine Sample.motion_summary
                Video.VideoProcessor_init Sample.two_tracks_one_box =
              [(1%Z, {| Video.bd_box := (0, 0, 10, 20); Video.bd_conf := 9 # 10;
                        Video.bd_cls := 0; Video.bd_features := None |});
               (2%Z, {| Video.bd_box := (0, 0, 10, 20); Video.bd_conf := 9 # 10;
                        Video.bd_cls := 0; Video.bd_features := None |})])
    by (vm_compute; reflexivity).
  rewrite E. split; [reflexivity|]. split; [vm_compute; reflexivity|].
  intros Hinj.
  specialize (Hinj 1%Z 2%Z _ (or_introl eq_refl) (or_intror (or_introl eq_refl))).
  discriminate.
Qed.

(** ** Occlusion handling and smoothing in the track loop *)

Section TrackLoopFacts.

Variable sqrt : Q -> Q.
Variable cosine : Video.Features -> Video.Features -> Q.
Variable motion_summary : list (Q * Q) -> Video.Features.

Local Abbreviation process_track :=
  (Video.process_track sqrt cosine motion_summary).

(** The effect of one iteration of the track loop on a confirmed person
    track that found a box: the raw centre enters the raw history; the
    centre stored in the player's positions is the raw centre, or from the
    sixth history entry on the smoothed one; when the smoothing division
    raises the store of players is left as it was. *)
Lemma process_track_person (ybc : list (Box * Video.BoxData))
  (vp : Video.VideoProcessor) (loc : Video.FrameLocal) (track : Video.Track)
  (b : Video.BoxData) :
  Video.is_confirmed track = true ->
  Video.find_best_box cosine (Video.self_feature_history vp)
    (Video.track_id track) (Video.to_ltrb track) ybc = Some b ->
  Video.get_det_class track = 0%Z ->
  let i := Video.track_id track in
  let raw := Occlusion.raw_center vp i b (Video.other_boxes loc) in
  let history := Occlusion.raw_history vp i b (Video.other_boxes loc) in
  let out := fst (process_track ybc (vp, loc) track) in
  Video.self_track_history out !! i = Some history /\
  match (if (5 <? length history)%nat
         then Video.smoothed_center history else Some raw) with
  | None => Video.self_players out = Video.self_players vp
  | Some c =>
      exists p' : Video.Player,
        Video.self_players out = <[i := p']> (Video.self_players vp) /\
        Video.positions p' =
          Video.deque_append
            (Video.positions (default (Video.Player_init i c)
                                (Video.self_players vp !! i))) c
  end.
Proof.
  intros Hconf Hbest Hcls. cbv zeta.
  unfold Video.process_track, Occlusion.raw_history, Occlusion.raw_center.
  rewrite Hconf, Hbest, Hcls. cbn [negb].
  destruct (Video._handle_occlusion vp (Video.track_id track) (Video.bd_box b)
              (Video.other_boxes loc)) as [oh pred].
  cbn [snd Video.self_track_history Video.set_occlusion_history].
  set (raw := default (Video.box_center (Video.bd_box b)) pred).
  set (history := default [] (Video.self_track_history vp !! Video.track_id track)
                  ++ [(raw, Video.bd_conf b)]).
  set (vp1 := match Video.bd_features b with
              | Some f => _
              | None => _
              end).
  assert (Hth : Video.self_track_history vp1 !! Video.track_id track = Some history)
    by (subst vp1; destruct (Video.bd_features b); cbn; apply lookup_insert_eq).
  assert (Hpl : Video.self_players vp1 = Video.self_players vp)
    by (subst vp1; destruct (Video.bd_features b); reflexivity).
  clearbody vp1.
  destruct (if (5 <? length history)%nat
            then Video.smoothed_center history else Some raw) as [c|].
  - cbn [Z.eqb].
    destruct (update_person_player sqrt motion_summary vp1 loc
                (Video.track_id track) b c) as (p' & Hp' & Hpos & _).
    split.
    + unfold Video.update_person. cbn. exact Hth.
    + exists p'. rewrite <- Hpl. split; [exact Hp'|exact Hpos].
  - cbn [fst]. split; [exact Hth|exact Hpl].
Qed.

End TrackLoopFacts.

Section OcclusionFacts.

Variable sqrt : Q -> Q.
Variable cosine : Video.Features -> Video.Features -> Q.
Variable motion_summary : list (Q * Q) -> Video.Features.

Local Abbreviation process_track :=
  (Video.process_track sqrt cosine motion_summary).


Lemma handle_occlusion_history (vp : Video.VideoProcessor) (i : Z)
  (box : Box) (others : list (Z * Box)) :
  fst (Video._handle_occlusion vp i box others) =
  <[i := Occlusion.overlap_history vp i box others]>
    (Video.self_occlusion_history vp).
Proof. reflexivity. Qed.





End OcclusionFacts.



(** ** Smoothing *)

Lemma zip_with_map_same {A : Type} (f g : A -> Q) (l : list A) :
  zip_with Qmult (map f l) (map g l) = map (fun x => f x * g x) l.
Proof.
  induction l as [|x l IH]; [reflexivity|]. cbn. rewrite IH. reflexivity.
Qed.

(** [int(q)] lies between 0 and [q], less than 1 away from [q]. *)
Lemma py_int_truncates (q : Q) :
  Qabs (inject_Z (py_int q)) <= Qabs q /\ Qabs (q - inject_Z (py_int q)) < 1.
Proof.
  destruct q as [n d]. unfold py_int. cbn [Qnum Qden].
  pose proof (Z.quot_rem' n (Zpos d)) as Hqr.
  pose proof (Z.rem_bound_abs n (Zpos d) ltac:(lia)) as Hrem.
  pose proof (Z.quot_abs n (Zpos d) ltac:(lia)) as Hqabs.
  pose proof (Z.mul_div_le (Z.abs n) (Zpos d) ltac:(lia)) as Hle.
  change (Z.abs (Z.pos d)) with (Z.pos d) in *.
  split.
  - unfold Qabs, Qle, inject_Z. cbn [Qnum Qden].
    rewrite <- Hqabs. rewrite Z.quot_div_nonneg by lia.
    rewrite Z.mul_1_r. lia.
  - unfold Qabs, Qlt, Qminus, Qplus, Qopp, inject_Z. cbn [Qnum Qden].
    rewrite Z.mul_1_r, Pos.mul_1_r.
    replace (n * 1 + - (n ÷ Z.pos d) * Z.pos d)%Z with (Z.rem n (Z.pos d)) by lia.
    lia.
Qed.

Lemma smoothed_center_weighted (history : list ((Q * Q) * Q)) :
  ~ Qsum (map snd (Video.lastn 5 history)) == 0 ->
  Video.smoothed_center history =
  Some (Occlusion.truncated (Occlusion.weighted_center history)).
Proof.
  intros Hne. unfold Video.smoothed_center.
  assert (Hb : Qeq_bool (Qsum (map snd (Video.lastn 5 history))) 0 = false).
  { destruct (Qeq_bool _ 0) eqn:E; [|reflexivity].
    apply Qeq_bool_iff in E. contradiction. }
  rewrite Hb.
  unfold Occlusion.truncated, Occlusion.weighted_center, Spec.weighted_mean.
  cbn [fst snd]. rewrite !zip_with_map_same. reflexivity.
Qed.

Lemma smoothed_center_raises (history : list ((Q * Q) * Q)) :
  Qsum (map snd (Video.lastn 5 history)) == 0 ->
  Video.smoothed_center history = None.
Proof.
  intros Hz. unfold Video.smoothed_center.
  apply Qeq_bool_iff in Hz. rewrite Hz. reflexivity.
Qed.

Section SmoothingFacts.

Variable sqrt : Q -> Q.
Variable cosine : Video.Features -> Video.Features -> Q.
Variable motion_summary : list (Q * Q) -> Video.Features.

Local Abbreviation process_track :=
  (Video.process_track sqrt cosine motion_summary).

(** C7, as the code has it.  The history that is counted and averaged is
    the track's raw history of (centre, confidence) pairs, this frame's
    entry included.  When it holds more than 5 entries, the position
    stored for a person track is the confidence-weighted mean of the
    centres of its last 5 entries, each coordinate truncated toward zero
    to an integer (the raw history keeps the unsmoothed centre); when it
    holds 5 entries or fewer the raw centre is stored as it is. *)
Theorem smoothing_spec (ybc : list (Box * Video.BoxData))
  (vp : Video.VideoProcessor) (loc : Video.FrameLocal) (track : Video.Track)
  (b : Video.BoxData) :
  Video.is_confirmed track = true ->
  Video.find_best_box cosine (Video.self_feature_history vp)
    (Video.track_id track) (Video.to_ltrb track) ybc = Some b ->
  Video.get_det_class track = 0%Z ->
  let i := Video.track_id track in
  let raw := Occlusion.raw_center vp i b (Video.other_boxes loc) in
  let history := Occlusion.raw_history vp i b (Video.other_boxes loc) in
  let out := fst (process_track ybc (vp, loc) track) in
  Video.self_track_history out !! i = Some history /\
  last history = Some (raw, Video.bd_conf b) /\
  ((length history <= 5)%nat ->
   exists p' : Video.Player,
     Video.self_players out !! i = Some p' /\
     last (Video.positions p') = Some raw) /\
  ((5 < length history)%nat ->
   ~ Qsum (map snd (Video.lastn 5 history)) == 0 ->
   exists p' : Video.Player,
     Video.self_players out !! i = Some p' /\
     last (Video.positions p') =
       Some (Occlusion.truncated (Occlusion.weighted_center history)) /\
     Qabs (fst (Occlusion.weighted_center history)
           - fst (Occlusion.truncated (Occlusion.weighted_center history))) < 1 /\
     Qabs (snd (Occlusion.weighted_center history)
           - snd (Occlusion.truncated (Occlusion.weighted_center history))) < 1).
Proof.
  intros Hconf Hbest Hcls. cbv zeta.
  destruct (process_track_person sqrt cosine motion_summary ybc vp loc track b
              Hconf Hbest Hcls) as [Hth H].
  split; [exact Hth|].
  split; [unfold Occlusion.raw_history; apply last_snoc|].
  split.
  - intros Hle.
    assert (E : (5 <? length (Occlusion.raw_history vp (Video.track_id track) b
                                (Video.other_boxes loc)))%nat = false)
      by (apply Nat.ltb_ge; exact Hle).
    rewrite E in H. destruct H as (p' & Hout & Hpos).
    exists p'. rewrite Hout, lookup_insert_eq. split; [reflexivity|].
    rewrite Hpos. apply deque_append_last.
  - intros Hlt Hne.
    assert (E : (5 <? length (Occlusion.raw_history vp (Video.track_id track) b
                                (Video.other_boxes loc)))%nat = true)
      by (apply Nat.ltb_lt; exact Hlt).
    rewrite E, (smoothed_center_weighted _ Hne) in H.
    destruct H as (p' & Hout & Hpos).
    exists p'. rewrite Hout, lookup_insert_eq. split; [reflexivity|].
    rewrite Hpos. split; [apply deque_append_last|].
    unfold Occlusion.truncated. cbn [fst snd].
    split; apply py_int_truncates.
Qed.

End SmoothingFacts.

Lemma smoothing_witness :
  let vp := fst (Sample.run (Sample.standing 5)) in
  let loc := {| Video.other_boxes := []; Video.frame_players_data := [];
                Video.ball_data := None |} in
  let track := Sample.person_track 1 (1, 0, 11, 20) in
  let b := {| Video.bd_box := (1, 0, 11, 20); Video.bd_conf := 9 # 10;
              Video.bd_cls := 0; Video.bd_features := None |} in
  let ybc := Video.yolo_boxes_current_of [Sample.person_box (1, 0, 11, 20)] in
  let raw := Occlusion.raw_center vp 1 b [] in
  let history := Occlusion.raw_history vp 1 b [] in
  let out :=
    fst (Video.process_track Qsqrt Sample.cosine Sample.motion_summary ybc
           (vp, loc) track) in
  (Video.is_confirmed track = true /\
   Video.find_best_box Sample.cosine (Video.self_feature_history vp) 1
     (Video.to_ltrb track) ybc = Some b /\
   Video.get_det_class track = 0%Z /\
   (5 < length history)%nat /\
   ~ Qsum (map snd (Video.lastn 5 history)) == 0) /\
  Video.self_track_history out !! 1%Z = Some history /\
  last history = Some (raw, Video.bd_conf b) /\
  ((length history <= 5)%nat ->
   exists p' : Video.Player,
     Video.self_players out !! 1%Z = Some p' /\
     last (Video.positions p') = Some raw) /\
  ((5 < length history)%nat ->
   ~ Qsum (map snd (Video.lastn 5 history)) == 0 ->
   exists p' : Video.Player,
     Video.self_players out !! 1%Z = Some p' /\
     last (Video.positions p') =
       Some (Occlusion.truncated (Occlusion.weighted_center history)) /\
     Qabs (fst (Occlusion.weighted_center history)
           - fst (Occlusion.truncated (Occlusion.weighted_center history))) < 1 /\
     Qabs (snd (Occlusion.weighted_center history)
           - snd (Occlusion.truncated (Occlusion.weighted_center history))) < 1).
Proof.
  cbv zeta. split.
  - split; [reflexivity|]. split; [vm_compute; reflexivity|].
    split; [reflexivity|]. split.
    + vm_compute. repeat constructor.
    + vm_compute. discriminate.
  - apply (smoothing_spec Qsqrt Sample.cosine Sample.motion_summary).
    + reflexivity.
    + vm_compute. reflexivity.
    + reflexivity.
Defined.

(** C7, as the specification has it, fails: after five frames at x = 5 and
    a sixth at x = 6, all with confidence 0.9, the weighted mean of the
    last five centres is 5.2, and the position stored is 5. *)
Lemma smoothing_counterexample :
  let vp := fst (Sample.run Sample.one_pixel_move) in
  exists (p : Video.Player) (history : list ((Q * Q) * Q)),
    Video.self_players vp !! 1%Z = Some p /\
    Video.self_track_history vp !! 1%Z = Some history /\
    (5 < length history)%nat /\
    last history = Some ((6, 10), 9 # 10) /\
    fst (Occlusion.weighted_center history) == 26 # 5 /\
    fst <$> last (Video.positions p) = Some 5 /\
    ~ (match last (Video.positions p) with
       | Some c => fst c == fst (Occlusion.weighted_center history)
       | None => False
       end).
Proof.
  cbv zeta. eexists _, _.
  split; [vm_compute; reflexivity|].
  split; [vm_compute; reflexivity|].
  vm_compute. repeat split; try reflexivity; try discriminate.
Qed.

(** ** Concrete sequences *)

(** Scenario A: efforts 33.3, 50 and 66.7 over four frames. *)
Example effort_scenario_A :
  let result := Physical._analyze_effort Qsqrt Spec.scenario_A in
  Qred (Physical.total_effort result) = 75 # 2 /\
  Qred (Physical.low (Physical.effort_zones result)) = 100 # 3 /\
  Qred (Physical.medium (Physical.effort_zones result)) = 200 # 3 /\
  Qred (Physical.high (Physical.effort_zones result)) = 0.
Proof. vm_compute. repeat split; reflexivity. Qed.

(** Two sprints, of 0.6 and 0.4; the second ends with the sequence. *)
Example sprints_two_sprints :
  let result := Physical._analyze_sprints Qsqrt Sample.two_sprints in
  map Qred (Physical.sprint_distances_of Qsqrt Sample.two_sprints)
    = [3 # 5; 2 # 5] /\
  Physical.total_sprints result = 2%nat /\
  Qred (Physical.avg_sprint_distance result) = 1 # 2 /\
  Qred (Physical.max_sprint_distance result) = 3 # 5.
Proof. vm_compute. repeat split; reflexivity. Qed.

(** Two passes, one of them long (a displacement of 25), both counted as
    successful. *)
Example passes_ball_moves :
  let result := Technical._analyze_passes Qsqrt Sample.ball_moves in
  Technical.total_passes result = 2%nat /\
  Technical.successful_passes result = 2%nat /\
  Qred (Technical.pass_accuracy result) = 100 /\
  Technical.long_passes result = 1%nat /\
  Technical.short_passes result = 1%nat.
Proof. vm_compute. repeat split; reflexivity. Qed.

(** * Further properties *)

(** ** Sums of rationals *)

Lemma fold_Qplus_acc (l : list Q) (a : Q) :
  fold_left Qplus l a == a + Qsum l.
Proof.
  unfold Qsum. revert a. induction l as [|x l IH]; intros a; cbn [fold_left].
  - ring.
  - rewrite IH, (IH (0 + x)). ring.
Qed.

Lemma Qsum_cons (x : Q) (l : list Q) : Qsum (x :: l) == x + Qsum l.
Proof.
  unfold Qsum at 1. cbn [fold_left]. rewrite fold_Qplus_acc. ring.
Qed.


Lemma Qsum_nonneg (l : list Q) :
  Forall (fun x => 0 <= x) l -> 0 <= Qsum l.
Proof.
  induction 1 as [|x l Hx _ IH]; [apply Qle_refl|].
  rewrite Qsum_cons. lra.
Qed.


(** Adding the elements that pass a test is summing the filtered list. *)
Lemma fold_conditional_Qplus {A : Type} (p : A -> bool) (f : A -> Q)
  (l : list A) (a : Q) :
  fold_left (fun acc x => if p x then acc + f x else acc) l a =
  fold_left Qplus (map f (List.filter p l)) a.
Proof.
  revert a. induction l as [|x l IH]; intros a; cbn; [reflexivity|].
  destruct (p x); cbn; apply IH.
Qed.

Lemma Qsum_filter_le (p q : Q -> bool) (l : list Q) :
  (forall x, p x = true -> q x = true) ->
  Forall (fun x => 0 <= x) l ->
  Qsum (List.filter p l) <= Qsum (List.filter q l).
Proof.
  intros Hpq. induction 1 as [|x l Hx _ IH]; [apply Qle_refl|].
  cbn [List.filter]. destruct (p x) eqn:Hp.
  - rewrite (Hpq x Hp), !Qsum_cons. lra.
  - destruct (q x); rewrite ?Qsum_cons; lra.
Qed.

Lemma Qsum_filter_le_all (p : Q -> bool) (l : list Q) :
  Forall (fun x => 0 <= x) l -> Qsum (List.filter p l) <= Qsum l.
Proof.
  induction 1 as [|x l Hx _ IH]; [apply Qle_refl|].
  cbn [List.filter]. destruct (p x); rewrite ?Qsum_cons; lra.
Qed.


Lemma filter_all {A : Type} (p : A -> bool) (l : list A) :
  forallb p l = true -> List.filter p l = l.
Proof.
  induction l as [|x l IH]; [reflexivity|]. cbn.
  destruct (p x); [|discriminate]. intros H. rewrite IH by exact H. reflexivity.
Qed.


(** ** Physical metrics engine: the distance buckets *)

Section DistanceFacts.

Variable sqrt : Q -> Q.

Local Abbreviation dist :=
  (fun pc : FrameData * FrameData =>
     Physical._calculate_frame_distance sqrt (fst pc) (snd pc)).

(** The loop of [_calculate_distances], from any accumulator. *)
Lemma distances_loop (pcs : list (FrameData * FrameData)) :
  forall total hi sp : Q,
    fold_left (Physical.distances_step sqrt) pcs (total, hi, sp) =
    (fold_left Qplus (map dist pcs) total,
     fold_left Qplus (List.filter Facts.is_high_intensity_step (map dist pcs)) hi,
     fold_left Qplus (List.filter Spec.is_sprint_step (map dist pcs)) sp).
Proof.
  induction pcs as [|pc pcs IH]; intros total hi sp; [reflexivity|].
  cbn [fold_left map List.filter]. unfold Physical.distances_step at 2.
  rewrite IH. unfold Facts.is_high_intensity_step at 2, Spec.is_sprint_step at 2.
  destruct (Qltb 7 (dist pc * 30)), (Qltb 8 (dist pc * 30)); reflexivity.
Qed.

Lemma calculate_distances_sums (frames : list FrameData) :
  let d := Physical._calculate_distances sqrt frames in
  let steps := Spec.step_distances sqrt frames in
  Physical.total_distance d = Qsum steps /\
  Physical.high_intensity_distance d =
    Qsum (List.filter Facts.is_high_intensity_step steps) /\
  Physical.sprint_distance d = Qsum (List.filter Spec.is_sprint_step steps).
Proof.
  cbv zeta. unfold Physical._calculate_distances, Spec.step_distances.
  rewrite distances_loop. cbn. auto.
Qed.


Hypothesis sqrt_nonneg : forall x, 0 <= sqrt x.

Lemma step_distances_nonneg (frames : list FrameData) :
  Forall (fun d => 0 <= d) (Spec.step_distances sqrt frames).
Proof.
  unfold Spec.step_distances. apply List.Forall_forall. intros d Hin.
  apply in_map_iff in Hin as (pc & <- & _).
  apply frame_distance_nonneg, sqrt_nonneg.
Qed.

(** The distance buckets of [_calculate_distances] are nested: the total
    is the sum of all step distances, and
    [0 <= sprint_distance <= high_intensity_distance <= total_distance]
    (a sprint step also counts as a high-intensity step). *)
Theorem distance_buckets_nested (frames : list FrameData) :
  let d := Physical._calculate_distances sqrt frames in
  Physical.total_distance d = Qsum (Spec.step_distances sqrt frames) /\
  0 <= Physical.sprint_distance d /\
  Physical.sprint_distance d <= Physical.high_intensity_distance d /\
  Physical.high_intensity_distance d <= Physical.total_distance d.
Proof.
  cbv zeta. destruct (calculate_distances_sums frames) as (-> & -> & ->).
  pose proof (step_distances_nonneg frames) as Hnn.
  split; [reflexivity|]. split; [|split].
  - apply Qsum_nonneg. apply List.Forall_forall. intros d Hd.
    apply List.filter_In in Hd as [Hd _].
    exact (proj1 (List.Forall_forall _ _) Hnn d Hd).
  - apply Qsum_filter_le; [|exact Hnn].
    intros d. unfold Spec.is_sprint_step, Facts.is_high_intensity_step.
    rewrite !Qltb_lt. lra.
  - apply Qsum_filter_le_all, Hnn.
Qed.

End DistanceFacts.

Lemma distance_buckets_nested_witness :
  let d := Physical._calculate_distances Qsqrt Sample.two_sprints in
  Physical.total_distance d = Qsum (Spec.step_distances Qsqrt Sample.two_sprints) /\
  0 <= Physical.sprint_distance d /\
  Physical.sprint_distance d <= Physical.high_intensity_distance d /\
  Physical.high_intensity_distance d <= Physical.total_distance d.
Proof.
  exact (distance_buckets_nested Qsqrt Qsqrt_nonneg Sample.two_sprints).
Defined.

(** ** Physical metrics engine: zones, effort and speed summaries *)

Lemma inject_nat_pos (n : nat) : (0 < n)%nat -> 0 < inject_Z (Z.of_nat n).
Proof. intros H. unfold Qlt. cbn. lia. Qed.




Section SummaryFacts.

Variable sqrt : Q -> Q.

Local Abbreviation dist :=
  (fun pc : FrameData * FrameData =>
     Physical._calculate_frame_distance sqrt (fst pc) (snd pc)).
Local Abbreviation spd := (fun pc : FrameData * FrameData => dist pc * 30).
Local Abbreviation eff := (fun pc : FrameData * FrameData =>
                             Physical.step_effort (dist pc * 30)).

(** The loop of [_calculate_speeds] collects the step speeds in order and
    counts every step in one zone. *)
Lemma speeds_loop_counts (pcs : list (FrameData * FrameData)) :
  forall acc : Physical.SpeedAcc,
    let out := fold_left (Physical.speeds_step sqrt) pcs acc in
    Physical.sa_speeds out = Physical.sa_speeds acc ++ map spd pcs /\
    (Physical.sa_walking out + Physical.sa_jogging out
     + Physical.sa_running out + Physical.sa_sprinting out
     = Physical.sa_walking acc + Physical.sa_jogging acc
       + Physical.sa_running acc + Physical.sa_sprinting acc + length pcs)%nat.
Proof.
  induction pcs as [|pc pcs IH]; intros acc; cbv zeta.
  - cbn. rewrite app_nil_r. split; [reflexivity|lia].
  - cbn [fold_left map length].
    destruct (IH (Physical.speeds_step sqrt acc pc)) as [-> ->].
    unfold Physical.speeds_step.
    destruct (Physical.classify_speed (spd pc)); cbn;
      rewrite <- app_assoc; split; try reflexivity; lia.
Qed.








Hypothesis sqrt_nonneg : forall x, 0 <= sqrt x.



End SummaryFacts.



(** ** Loops that keep an invariant *)

Lemma fold_left_invariant {A B : Type} (P : A -> Prop) (f : A -> B -> A)
  (l : list B) :
  (forall a x, In x l -> P a -> P (f a x)) ->
  forall a, P a -> P (fold_left f l a).
Proof.
  induction l as [|x l IH]; intros Hstep a Ha; [exact Ha|].
  cbn [fold_left]. apply IH.
  - intros a' y Hy. apply Hstep. right. exact Hy.
  - apply Hstep; [left; reflexivity|exact Ha].
Qed.

Lemma count_if_le {A : Type} (p q : A -> bool) (l : list A) :
  (forall x, p x = true -> q x = true) ->
  (Spec.count_if p l <= Spec.count_if q l)%nat.
Proof.
  intros Hpq. induction l as [|x l IH]; [reflexivity|].
  rewrite !count_if_cons. destruct (p x) eqn:Hp.
  - rewrite (Hpq x Hp). lia.
  - destruct (q x); lia.
Qed.

(** ** physical_analyzer.py: the team-wide distance breakdown *)

Section TeamFacts.

Variable sqrt : Q -> Q.

Local Abbreviation balanced :=
  (fun d : Team.DistanceData =>
     Team.total_distance d ==
     Team.high_intensity_distance d + Team.medium_intensity_distance d
     + Team.low_intensity_distance d).

Lemma next_player_step_balanced (player next_player : PlayerData)
  (acc : Team.DistanceData) :
  balanced acc -> balanced (Team.next_player_step sqrt player acc next_player).
Proof.
  intros H. unfold Team.next_player_step.
  destruct (Team._is_same_player sqrt player next_player); [|exact H].
  destruct (Qltb (55 # 10) _); [|destruct (Qltb (35 # 10) _)];
    cbn; rewrite H; ring.
Qed.

(** [_calculate_distance] puts every matched step into exactly one of its
    three intensity buckets: the total is the sum of the high, medium and
    low intensity distances. *)
Theorem team_distance_partition (frames_data : list FrameData) :
  let d := Team._calculate_distance sqrt frames_data in
  Team.total_distance d ==
  Team.high_intensity_distance d + Team.medium_intensity_distance d
  + Team.low_intensity_distance d.
Proof.
  cbv zeta. unfold Team._calculate_distance.
  apply (fold_left_invariant balanced); [|cbn; ring].
  intros acc cn _ Hacc. unfold Team.frame_step.
  apply (fold_left_invariant balanced); [|exact Hacc].
  intros acc1 player _ Hacc1. unfold Team.player_step.
  apply (fold_left_invariant balanced); [|exact Hacc1].
  intros acc2 next_player _ Hacc2.
  apply next_player_step_balanced, Hacc2.
Qed.

End TeamFacts.

(** ** Technical metrics engine: passes, shots and possession *)

Section TechnicalMore.

Variable sqrt : Q -> Q.

(** [_analyze_passes] classifies every detected pass as long or short:
    [long_passes + short_passes = total_passes]. *)
Theorem passes_long_or_short (frames_data : list FrameData) :
  let result := Technical._analyze_passes sqrt frames_data in
  (Technical.long_passes result + Technical.short_passes result
   = Technical.total_passes result)%nat.
Proof.
  cbv zeta. unfold Technical._analyze_passes.
  assert (H : let '(total, _, long, short) :=
                fold_left (Technical.passes_step sqrt) (consecutive frames_data)
                  (0, 0, 0, 0)%nat in
              (long + short = total)%nat).
  { apply (fold_left_invariant
             (fun acc : nat * nat * nat * nat =>
                let '(total, _, long, short) := acc in
                (long + short = total)%nat)); [|reflexivity].
    intros [[[total successful] long] short] [current_frame next_frame] _ Hacc.
    unfold Technical.passes_step.
    destruct (ball current_frame); [|exact Hacc].
    destruct (ball next_frame); [|exact Hacc].
    destruct (Qltb Technical.pass_threshold _); [|exact Hacc].
    destruct (Qltb 20 _); cbn; lia. }
  destruct (fold_left _ _ _) as [[[total successful] long] short]. exact H.
Qed.

(** The loop of [_analyze_shots], from any counters. *)
Lemma shots_loop (pairs : list (FrameData * FrameData)) :
  forall total on_target goals : nat,
    fold_left (Technical.shots_step sqrt) pairs (total, on_target, goals) =
    ((total + Spec.count_if (Facts.is_shot sqrt) pairs)%nat,
     (on_target + Spec.count_if (Facts.is_shot sqrt) pairs)%nat,
     (goals + Spec.count_if (Facts.is_shot sqrt) pairs)%nat).
Proof.
  induction pairs as [|cn pairs IH]; intros total on_target goals.
  - unfold Spec.count_if. cbn. tuple_eq.
  - cbn [fold_left]. rewrite count_if_cons.
    assert (E : Technical.shots_step sqrt (total, on_target, goals) cn =
                ((total + if Facts.is_shot sqrt cn then 1 else 0)%nat,
                 (on_target + if Facts.is_shot sqrt cn then 1 else 0)%nat,
                 (goals + if Facts.is_shot sqrt cn then 1 else 0)%nat)).
    { unfold Technical.shots_step, Facts.is_shot, Technical.shot_threshold,
        Technical._is_shot_on_target, Technical._is_goal.
      destruct cn as [current_frame next_frame]. cbn [fst snd].
      destruct (ball current_frame); [|tuple_eq].
      destruct (ball next_frame); [|tuple_eq].
      destruct (Qltb _ _); tuple_eq. }
    rewrite E, IH. tuple_eq.
Qed.

(** [_analyze_shots] counts a shot for each pair of consecutive frames
    that both carry a ball whose velocity exceeds 0.8, and every shot as
    on target and as a goal: the three counters are equal, and
    [shot_accuracy] is 100 when there is a shot and 0 otherwise. *)
Theorem shots_all_goals (frames_data : list FrameData) :
  let result := Technical._analyze_shots sqrt frames_data in
  Technical.total_shots result =
    Spec.count_if (Facts.is_shot sqrt) (consecutive frames_data) /\
  Technical.shots_on_target result = Technical.total_shots result /\
  Technical.goals result = Technical.total_shots result /\
  Technical.shot_accuracy result ==
    (if (0 <? Technical.total_shots result)%nat then 100 else 0).
Proof.
  cbv zeta. unfold Technical._analyze_shots. rewrite shots_loop.
  cbn [Technical.total_shots Technical.shots_on_target Technical.goals
       Technical.shot_accuracy Nat.add].
  set (n := Spec.count_if (Facts.is_shot sqrt) (consecutive frames_data)).
  repeat (split; [reflexivity|]).
  destruct (0 <? n)%nat eqn:Hn; [|reflexivity].
  apply Nat.ltb_lt in Hn. pose proof (inject_nat_pos n Hn). field. lra.
Qed.

Lemma pass_is_shot (cn : FrameData * FrameData) :
  Spec.is_pass sqrt cn = true -> Facts.is_shot sqrt cn = true.
Proof.
  unfold Spec.is_pass, Facts.is_shot, Technical._calculate_ball_velocity.
  destruct (ball (fst cn)); [|discriminate].
  destruct (ball (snd cn)); [|discriminate].
  rewrite !Qltb_lt. intros H. lra.
Qed.

(** Every ball displacement that [_analyze_passes] counts as a pass is
    also counted as a shot by [_analyze_shots] (a displacement above 0.7
    is a velocity above 21, far above the 0.8 shot threshold), so there
    are never fewer shots, on-target shots or goals than passes. *)
Theorem passes_are_shots (frames_data : list FrameData) :
  (Technical.total_passes (Technical._analyze_passes sqrt frames_data)
   <= Technical.goals (Technical._analyze_shots sqrt frames_data))%nat /\
  (Technical.goals (Technical._analyze_shots sqrt frames_data)
   = Technical.total_shots (Technical._analyze_shots sqrt frames_data))%nat.
Proof.
  unfold Technical._analyze_passes, Technical._analyze_shots.
  rewrite shots_loop.
  destruct (passes_loop sqrt (consecutive frames_data) 0 0 0 0)
    as (long & short & ->).
  cbn [Technical.total_passes Technical.goals Technical.total_shots Nat.add].
  split; [|reflexivity]. apply count_if_le, pass_is_shot.
Qed.

(** The loops of [_analyze_possession], from any accumulator. *)
Lemma possession_players_loop (ball_pos : Q * Q) (players : list PlayerData) :
  forall (n : nat) (d : Q),
    let p := fun player =>
               Technical._is_player_in_possession sqrt (position player) ball_pos in
    let out := fold_left (Technical.possession_player_step sqrt ball_pos)
                 players (n, d) in
    fst out = (n + Spec.count_if p players)%nat /\
    snd out == d + inject_Z (Z.of_nat (Spec.count_if p players)) / 30.
Proof.
  induction players as [|player players IH]; intros n d; cbv zeta.
  - unfold Spec.count_if. cbn. split; [lia|]. field.
  - cbn [fold_left]. rewrite count_if_cons.
    unfold Technical.possession_player_step at 2 4. cbn [fst snd].
    destruct (Technical._is_player_in_possession sqrt (position player) ball_pos).
    + destruct (IH (S n) (d + 1 / 30)) as [-> ->]. split; [lia|].
      rewrite Nat2Z.inj_add, inject_Z_plus. cbn. field.
    + destruct (IH n d) as [-> ->]. split; [lia|]. reflexivity.
Qed.

Lemma possession_loop (frames_data : list FrameData) :
  forall (n : nat) (d : Q),
    let total := list_sum (map (Facts.touches sqrt) frames_data) in
    let out := fold_left (Technical.possession_step sqrt) frames_data (n, d) in
    fst out = (n + total)%nat /\
    snd out == d + inject_Z (Z.of_nat total) / 30.
Proof.
  induction frames_data as [|frame frames_data IH]; intros n d; cbv zeta.
  - cbn. split; [lia|]. field.
  - cbn [fold_left map].
    assert (El : forall (x : nat) (l : list nat),
               list_sum (x :: l) = (x + list_sum l)%nat) by reflexivity.
    rewrite El. clear El.
    assert (Hstep : fst (Technical.possession_step sqrt (n, d) frame)
                    = (n + Facts.touches sqrt frame)%nat /\
                    snd (Technical.possession_step sqrt (n, d) frame)
                    == d + inject_Z (Z.of_nat (Facts.touches sqrt frame)) / 30).
    { unfold Technical.possession_step, Facts.touches.
      destruct (ball frame) as [b|].
      - apply (possession_players_loop (ball_position b) (players frame) n d).
      - cbn. split; [lia|]. field. }
    destruct (Technical.possession_step sqrt (n, d) frame) as [n1 d1].
    cbn [fst snd] in Hstep. destruct Hstep as [-> Hd1].
    destruct (IH (n + Facts.touches sqrt frame)%nat d1) as [-> ->].
    split; [lia|].
    rewrite Hd1, !Nat2Z.inj_add, !inject_Z_plus. field.
Qed.


End TechnicalMore.

(** ** Possession in normalised coordinates *)

Lemma Qsqrt_small (x : Q) : 0 <= x <= 2 -> Qsqrt x < 2.
Proof.
  destruct x as [n d]. unfold Qsqrt, Qle, Qlt. cbn [Qnum Qden].
  intros [H0 H2].
  assert (Hn : (0 <= n)%Z) by lia.
  assert (Hlt : (n * Z.pos d < (2 * Z.pos d) * (2 * Z.pos d))%Z) by nia.
  pose proof (Z.sqrt_nonneg (n * Z.pos d)) as Hs.
  pose proof (Z.sqrt_spec (n * Z.pos d) ltac:(nia)) as [Hlow _].
  nia.
Qed.

Section UnitSquare.

Variable sqrt : Q -> Q.
Hypothesis sqrt_small : forall x, 0 <= x <= 2 -> sqrt x < 2.

Lemma unit_square_in_possession (player_pos ball_pos : Q * Q) :
  Facts.in_unit_square player_pos -> Facts.in_unit_square ball_pos ->
  Technical._is_player_in_possession sqrt player_pos ball_pos = true.
Proof.
  intros [[Hx0 Hx1] [Hy0 Hy1]] [[Hbx0 Hbx1] [Hby0 Hby1]].
  unfold Technical._is_player_in_possession, Technical.possession_threshold,
    Technical._calculate_ball_movement.
  apply Qltb_lt. apply sqrt_small.
  set (dx := fst ball_pos - fst player_pos).
  set (dy := snd ball_pos - snd player_pos).
  assert (Hdx : -1 <= dx <= 1) by (subst dx; lra).
  assert (Hdy : -1 <= dy <= 1) by (subst dy; lra).
  assert (Ex : dx ^ 2 == dx * dx) by (cbn; reflexivity).
  assert (Ey : dy ^ 2 == dy * dy) by (cbn; reflexivity).
  rewrite Ex, Ey. split; nra.
Qed.

(** With positions normalised to the unit square, as in the frame records
    of [process_video], the possession threshold of 2 is met by every
    player: [_analyze_possession] counts one touch per player entry in
    every frame that carries a ball. *)
Theorem possession_counts_every_player (frames_data : list FrameData) :
  Forall Facts.normalized frames_data ->
  Technical.total_touches (Technical._analyze_possession sqrt frames_data) =
  list_sum (map Facts.players_with_ball frames_data).
Proof.
  intros Hnorm.
  pose proof (possession_loop sqrt frames_data 0 0) as [H1 _]. cbv zeta in H1.
  unfold Technical._analyze_possession.
  destruct (fold_left _ frames_data (0%nat, 0)) as [touches duration].
  cbn [fst Nat.add Technical.total_touches] in *. subst touches.
  f_equal. apply map_ext_in. intros frame Hin.
  pose proof (proj1 (List.Forall_forall _ _) Hnorm frame Hin) as [Hp Hb].
  unfold Facts.touches, Facts.players_with_ball.
  destruct (ball frame) as [b|]; [|reflexivity].
  unfold Spec.count_if. f_equal. apply filter_all.
  apply forallb_forall. intros player Hplayer.
  apply unit_square_in_possession; [|exact Hb].
  exact (proj1 (List.Forall_forall _ _) Hp player Hplayer).
Qed.

End UnitSquare.

Lemma possession_counts_every_player_witness :
  Forall Facts.normalized Sample.far_ball /\
  Technical.total_touches (Technical._analyze_possession Qsqrt Sample.far_ball) =
  list_sum (map Facts.players_with_ball Sample.far_ball).
Proof.
  assert (H : Forall Facts.normalized Sample.far_ball).
  { repeat constructor; cbn; lra. }
  split; [exact H|].
  exact (possession_counts_every_player Qsqrt Qsqrt_small Sample.far_ball H).
Defined.

(** ** Intersection over union *)

Lemma py_max_cases_le (a b : Q) :
  (a < b /\ py_max a b = b) \/ (b <= a /\ py_max a b = a).
Proof.
  unfold py_max. destruct (Qltb a b) eqn:H.
  - left. apply Qltb_lt in H. auto.
  - right. apply Qltb_ge in H. auto.
Qed.

Lemma py_min_cases_le (a b : Q) :
  (b < a /\ py_min a b = b) \/ (a <= b /\ py_min a b = a).
Proof.
  unfold py_min. destruct (Qltb b a) eqn:H.
  - left. apply Qltb_lt in H. auto.
  - right. apply Qltb_ge in H. auto.
Qed.

(** [_calculate_iou] of two boxes of positive width and height lies in
    [[0, 1]], and the overlap of such a box with itself is 1. *)
Theorem iou_bounds (box1 box2 : Box) :
  Facts.proper_box box1 -> Facts.proper_box box2 ->
  0 <= Video._calculate_iou box1 box2 <= 1 /\
  Video._calculate_iou box1 box1 == 1.
Proof.
  destruct box1 as [[[a1 b1] c1] d1], box2 as [[[a2 b2] c2] d2].
  intros [Hw1 Hh1] [Hw2 Hh2]. split.
  - unfold Video._calculate_iou.
    destruct (py_max_cases_le a1 a2) as [[Hx1 ->]|[Hx1 ->]],
             (py_max_cases_le b1 b2) as [[Hy1 ->]|[Hy1 ->]],
             (py_min_cases_le c1 c2) as [[Hx2 ->]|[Hx2 ->]],
             (py_min_cases_le d1 d2) as [[Hy2 ->]|[Hy2 ->]];
      match goal with
      | |- context [Qltb ?x2 ?x1 || Qltb ?y2 ?y1] =>
          destruct (Qltb x2 x1) eqn:Ex; [cbn; lra|];
          destruct (Qltb y2 y1) eqn:Ey; [cbn; lra|];
          apply Qltb_ge in Ex; apply Qltb_ge in Ey; cbn [orb];
          match goal with
          | |- 0 <= ?i / ?u <= 1 =>
              assert (Hi : 0 <= i) by nra;
              assert (Hu : 0 < u) by nra;
              assert (Hiu : i <= u) by nra;
              split;
              [apply Qle_shift_div_l; [exact Hu|lra]
              |apply Qle_shift_div_r; [exact Hu|lra]]
          end
      end.
  - unfold Video._calculate_iou.
    destruct (py_max_cases_le a1 a1) as [[Hx1 _]|[_ ->]]; [lra|].
    destruct (py_max_cases_le b1 b1) as [[Hy1 _]|[_ ->]]; [lra|].
    destruct (py_min_cases_le c1 c1) as [[Hx2 _]|[_ ->]]; [lra|].
    destruct (py_min_cases_le d1 d1) as [[Hy2 _]|[_ ->]]; [lra|].
    assert (Ex : Qltb c1 a1 = false) by (apply Qltb_ge; lra).
    assert (Ey : Qltb d1 b1 = false) by (apply Qltb_ge; lra).
    rewrite Ex, Ey. cbn [orb].
    assert (Hpos : 0 < (c1 - a1) * (d1 - b1)) by nra.
    field. lra.
Qed.

Lemma iou_bounds_witness :
  0 <= Video._calculate_iou (0, 0, 10, 20) (5, 5, 15, 30) <= 1 /\
  Video._calculate_iou (0, 0, 10, 20) (0, 0, 10, 20) == 1.
Proof.
  apply (iou_bounds (0, 0, 10, 20) (5, 5, 15, 30)); cbn; lra.
Defined.

(** ** The predicted position *)

(** The differences between consecutive values add up to the difference
    between the last and the first. *)
Lemma differences_telescope {A : Type} (f : A -> Q) (l : list A) (x0 xn : A) :
  head l = Some x0 -> last l = Some xn ->
  Qsum (map (fun pc : A * A => f (snd pc) - f (fst pc)) (consecutive l))
  == f xn - f x0.
Proof.
  revert x0. induction l as [|x l IH]; intros x0 Hhead Hlast; [discriminate|].
  cbn in Hhead. injection Hhead as ->.
  destruct l as [|y l].
  - cbn in Hlast. injection Hlast as ->. cbn. unfold Qsum. cbn. ring.
  - change (consecutive (x0 :: y :: l)) with ((x0, y) :: consecutive (y :: l)).
    cbn [map fst snd]. rewrite Qsum_cons.
    rewrite (IH y eq_refl Hlast). ring.
Qed.

(** The position that [_predict_next_position] returns for the velocities
    built by [_handle_occlusion] depends only on the first and the last
    stored position: it is the last position plus the displacement from
    the first to the last divided by the number of steps. *)
Theorem prediction_from_endpoints (positions : list (Q * Q))
  (first_pos last_pos : Q * Q) :
  (2 <= length positions)%nat ->
  head positions = Some first_pos ->
  last positions = Some last_pos ->
  let steps := inject_Z (Z.of_nat (length positions - 1)) in
  exists c : Q * Q,
    Video._predict_next_position positions (Video.velocities_of positions)
      = Some c /\
    fst c == fst last_pos + (fst last_pos - fst first_pos) / steps /\
    snd c == snd last_pos + (snd last_pos - snd first_pos) / steps.
Proof.
  intros Hlen Hhead Hlast. cbv zeta.
  unfold Video._predict_next_position.
  assert (Hv : length (Video.velocities_of positions)
               = (length positions - 1)%nat)
    by (unfold Video.velocities_of; rewrite length_map; apply consecutive_length).
  assert (H1 : (length positions <? 2)%nat = false) by (apply Nat.ltb_ge; lia).
  assert (H2 : (length (Video.velocities_of positions) <? 1)%nat = false)
    by (apply Nat.ltb_ge; lia).
  rewrite H1, H2, Hlast. cbn [orb]. eexists. split; [reflexivity|].
  cbn [fst snd]. unfold Qmean. rewrite !length_map, Hv.
  unfold Video.velocities_of. rewrite !map_map. cbn [fst snd].
  rewrite (differences_telescope fst positions first_pos last_pos Hhead Hlast).
  rewrite (differences_telescope snd positions first_pos last_pos Hhead Hlast).
  split; reflexivity.
Qed.

Lemma prediction_from_endpoints_witness :
  let positions := [(0, 0); (2, 1); (3, 5); (6, 9)] in
  exists c : Q * Q,
    Video._predict_next_position positions (Video.velocities_of positions)
      = Some c /\
    fst c == 6 + (6 - 0) / inject_Z (Z.of_nat (length positions - 1)) /\
    snd c == 9 + (9 - 0) / inject_Z (Z.of_nat (length positions - 1)).
Proof.
  apply (prediction_from_endpoints [(0, 0); (2, 1); (3, 5); (6, 9)] (0, 0) (6, 9));
    [cbn; lia|reflexivity|reflexivity].
Defined.

(** ** What a run never loses *)

Lemma extends_refl {A : Type} (l : list A) : Facts.extends l l.
Proof. exists []. rewrite app_nil_r. reflexivity. Qed.

Lemma extends_trans {A : Type} (l1 l2 l3 : list A) :
  Facts.extends l1 l2 -> Facts.extends l2 l3 -> Facts.extends l1 l3.
Proof.
  intros [m1 ->] [m2 ->]. exists (m1 ++ m2). rewrite app_assoc. reflexivity.
Qed.

Lemma extends_app {A : Type} (l more : list A) : Facts.extends l (l ++ more).
Proof. exists more. reflexivity. Qed.

Lemma overlap_fold_extends (box : Box) (others : list (Z * Box)) :
  forall hist : list (Z * Q),
    Facts.extends hist (fold_left (Video.overlap_step box) others hist).
Proof.
  induction others as [|o others IH]; intros hist; [apply extends_refl|].
  cbn [fold_left]. eapply extends_trans; [|apply IH].
  unfold Video.overlap_step. destruct (Qltb _ _);
    [apply extends_app|apply extends_refl].
Qed.

Lemma insert_extends {A : Type} (m : gmap Z (list A)) (k : Z) (v : list A) :
  Facts.extends (default [] (m !! k)) v ->
  forall i : Z,
    Facts.extends (default [] (m !! i)) (default [] (<[k := v]> m !! i)).
Proof.
  intros Hv i. destruct (decide (k = i)) as [->|Hne].
  - rewrite lookup_insert_eq. exact Hv.
  - rewrite lookup_insert_ne by exact Hne. apply extends_refl.
Qed.

Lemma grows_refl (vp : Video.VideoProcessor) : Facts.grows vp vp.
Proof.
  intros i. repeat split; auto using extends_refl.
Qed.

Lemma grows_trans (vp1 vp2 vp3 : Video.VideoProcessor) :
  Facts.grows vp1 vp2 -> Facts.grows vp2 vp3 -> Facts.grows vp1 vp3.
Proof.
  intros H12 H23 i.
  destruct (H12 i) as (Hp & Ho & Hh & Hb), (H23 i) as (Hp' & Ho' & Hh' & Hb').
  repeat split; eauto using extends_trans.
Qed.

Section GrowthFacts.

Variable sqrt : Q -> Q.
Variable cosine : Video.Features -> Video.Features -> Q.
Variable motion_summary : list (Q * Q) -> Video.Features.
Variable pose_angles : list (Q * Q * Q) -> Video.Features.

Local Abbreviation process_track :=
  (Video.process_track sqrt cosine motion_summary).

Lemma set_players_insert_grows (vp : Video.VideoProcessor) (i : Z)
  (p : Video.Player) :
  Facts.grows vp (Video.set_players vp (<[i := p]> (Video.self_players vp))).
Proof.
  intros j. unfold Facts.occlusion_of, Facts.history_of. cbn.
  repeat split; auto using extends_refl.
  intros Hj. destruct (decide (i = j)) as [->|Hne].
  - rewrite lookup_insert_eq. eauto.
  - rewrite lookup_insert_ne by exact Hne. exact Hj.
Qed.

(** One iteration of the track loop loses nothing, and either leaves the
    players and the frame's player list as they are or stores one player
    under the track's id and lists it once. *)
Lemma process_track_shape (ybc : list (Box * Video.BoxData))
  (vp : Video.VideoProcessor) (loc : Video.FrameLocal) (track : Video.Track) :
  let out := process_track ybc (vp, loc) track in
  Facts.grows vp (fst out) /\
  ((Video.self_players (fst out) = Video.self_players vp /\
    Video.frame_players_data (snd out) = Video.frame_players_data loc) \/
   (exists (pd : PlayerData) (p' : Video.Player),
      id pd = Video.track_id track /\
      Video.frame_players_data (snd out) = Video.frame_players_data loc ++ [pd] /\
      Video.self_players (fst out) =
        <[Video.track_id track := p']> (Video.self_players vp))).
Proof.
  cbv zeta. unfold Video.process_track.
  destruct (negb (Video.is_confirmed track)); [split; [apply grows_refl|auto]|].
  destruct (Video.find_best_box _ _ _ _ _) as [best|];
    [|split; [apply grows_refl|auto]].
  pose proof (handle_occlusion_history vp (Video.track_id track)
                (Video.bd_box best) (Video.other_boxes loc)) as Hoh.
  destruct (Video._handle_occlusion _ _ _ _) as [oh pred].
  cbn [fst] in Hoh. subst oh.
  set (center := default (Video.box_center (Video.bd_box best)) pred).
  set (vp1 := match Video.bd_features best with
              | Some f => _
              | None => _
              end).
  assert (Hg1 : Facts.grows vp vp1).
  { intros i. unfold Facts.occlusion_of, Facts.history_of.
    subst vp1. destruct (Video.bd_features best); cbn;
      (split; [auto|]; split;
       [apply insert_extends; unfold Occlusion.overlap_history;
        apply overlap_fold_extends|];
       split; [apply insert_extends, extends_app|apply extends_refl]). }
  assert (Hp1 : Video.self_players vp1 = Video.self_players vp)
    by (subst vp1; destruct (Video.bd_features best); reflexivity).
  clearbody vp1.
  destruct (if (5 <? _)%nat then _ else _) as [c|]; [|split; auto].
  destruct (Video.get_det_class track =? 0)%Z.
  - unfold Video.update_person. cbn [fst snd Video.frame_players_data].
    split.
    + eapply grows_trans; [exact Hg1|]. apply set_players_insert_grows.
    + right. eexists _, _. split; [|split; [reflexivity|]].
      * reflexivity.
      * cbn. rewrite Hp1. reflexivity.
  - destruct (Video.get_det_class track =? 32)%Z; [|split; auto].
    unfold Video.update_ball. cbn [fst snd Video.frame_players_data].
    split; [|left; split; [exact Hp1|reflexivity]].
    eapply grows_trans; [exact Hg1|].
    intros i. unfold Facts.occlusion_of, Facts.history_of. cbn.
    repeat split; auto using extends_refl, extends_app.
Qed.

Lemma pose_step_grows (inp : Video.FrameInput) (vp : Video.VideoProcessor)
  (pose_data : list PoseData) (player : PlayerData) :
  Facts.grows vp (fst (Video.pose_step pose_angles inp (vp, pose_data) player)).
Proof.
  unfold Video.pose_step.
  destruct (Video.pose_landmarks inp player); [|apply grows_refl].
  cbn [fst Video._extract_pose_features].
  destruct (Video.self_players vp !! id player); [|apply grows_refl].
  apply set_players_insert_grows.
Qed.

Lemma set_frame_count_grows (vp : Video.VideoProcessor) (n : nat) :
  Facts.grows vp (Video.set_frame_count vp n).
Proof.
  intros i. unfold Facts.occlusion_of, Facts.history_of. cbn.
  repeat split; auto using extends_refl.
Qed.

Lemma process_tracks_grows (ybc : list (Box * Video.BoxData))
  (tracks : list Video.Track) :
  forall st : Video.VideoProcessor * Video.FrameLocal,
    Facts.grows (fst st) (fst (fold_left (process_track ybc) tracks st)).
Proof.
  induction tracks as [|t tracks IH]; intros [vp loc]; [apply grows_refl|].
  cbn [fold_left]. eapply grows_trans; [|apply IH].
  destruct (process_track_shape ybc vp loc t) as [Hg _].
  destruct (process_track ybc (vp, loc) t). exact Hg.
Qed.

Lemma pose_steps_grows (inp : Video.FrameInput) (players_data : list PlayerData) :
  forall st : Video.VideoProcessor * list PoseData,
    Facts.grows (fst st)
      (fst (fold_left (Video.pose_step pose_angles inp) players_data st)).
Proof.
  induction players_data as [|p ps IH]; intros [vp pd]; [apply grows_refl|].
  cbn [fold_left]. eapply grows_trans; [|apply IH].
  pose proof (pose_step_grows inp vp pd p) as Hg.
  destruct (Video.pose_step pose_angles inp (vp, pd) p). exact Hg.
Qed.

(** The players listed in the frame record of [process_frame] are in the
    store when the frame is done, and their ids are, in order, ids of
    tracks of the frame. *)
Lemma process_tracks_players (ybc : list (Box * Video.BoxData))
  (tracks : list Video.Track) :
  forall st : Video.VideoProcessor * Video.FrameLocal,
    Forall (fun pd => is_Some (Video.self_players (fst st) !! id pd))
           (Video.frame_players_data (snd st)) ->
    let out := fold_left (process_track ybc) tracks st in
    Forall (fun pd => is_Some (Video.self_players (fst out) !! id pd))
           (Video.frame_players_data (snd out)) /\
    exists ts : list Z,
      map id (Video.frame_players_data (snd out)) =
        map id (Video.frame_players_data (snd st)) ++ ts /\
      sublist ts (map Video.track_id tracks).
Proof.
  induction tracks as [|t tracks IH]; intros [vp loc] Hall; cbv zeta.
  - cbn. split; [exact Hall|]. exists []. rewrite app_nil_r.
    split; [reflexivity|constructor].
  - cbn [fold_left].
    destruct (process_track_shape ybc vp loc t) as [Hg Hshape].
    destruct (process_track ybc (vp, loc) t) as [vp1 loc1].
    cbn [fst snd] in *.
    assert (Hall1 : Forall (fun pd => is_Some (Video.self_players vp1 !! id pd))
                      (Video.frame_players_data loc1)).
    { destruct Hshape as [[Hp Hd]|(pd & p' & Hid & Hd & Hp)]; rewrite Hd.
      - rewrite Hp. exact Hall.
      - apply Forall_app. split.
        + eapply Forall_impl; [exact Hall|]. intros q Hq.
          exact (proj1 (Hg (id q)) Hq).
        + constructor; [|constructor]. rewrite Hp, Hid, lookup_insert_eq. eauto. }
    destruct (IH (vp1, loc1) Hall1) as [Hout (ts & Hts & Hsub)].
    split; [exact Hout|]. cbn [fst snd] in Hts. rewrite Hts.
    destruct Hshape as [[Hp Hd]|(pd & p' & Hid & Hd & Hp)]; rewrite Hd.
    + exists ts. split; [reflexivity|]. cbn. constructor. exact Hsub.
    + exists (Video.track_id t :: ts). split.
      * rewrite map_app, <- app_assoc. cbn. rewrite Hid. reflexivity.
      * cbn. constructor. exact Hsub.
Qed.

Lemma process_frame_shape (vp : Video.VideoProcessor) (inp : Video.FrameInput) :
  let out := Video.process_frame sqrt cosine motion_summary pose_angles vp inp in
  Facts.grows vp (fst out) /\
  frame_number (snd out) = Video.self_frame_count vp /\
  Forall (fun pd => is_Some (Video.self_players (fst out) !! id pd))
         (players (snd out)) /\
  exists ts : list Z,
    map id (players (snd out)) = ts /\
    sublist ts (map Video.track_id (Video.tracks inp)).
Proof.
  cbv zeta. unfold Video.process_frame.
  set (st0 := (vp, {| Video.other_boxes := []; Video.frame_players_data := [];
                      Video.ball_data := None |})).
  pose proof (process_tracks_grows
                (Video.yolo_boxes_current_of (Video.yolo_boxes inp))
                (Video.tracks inp) st0) as Hg1.
  pose proof (process_tracks_frame_count sqrt cosine motion_summary
                (Video.yolo_boxes_current_of (Video.yolo_boxes inp))
                (Video.tracks inp) st0) as Hfc1.
  destruct (process_tracks_players
              (Video.yolo_boxes_current_of (Video.yolo_boxes inp))
              (Video.tracks inp) st0 ltac:(constructor))
    as [Hall (ts & Hts & Hsub)].
  destruct (fold_left _ (Video.tracks inp) st0) as [vp1 loc].
  subst st0. cbn [fst snd Video.frame_players_data map app] in *.
  unfold Video._analyze_poses.
  pose proof (pose_steps_grows inp (Video.frame_players_data loc) (vp1, []))
    as Hg2.
  pose proof (pose_steps_frame_count pose_angles inp
                (Video.frame_players_data loc) (vp1, [])) as Hfc2.
  destruct (fold_left _ (Video.frame_players_data loc) _) as [vp2 pd].
  cbn [fst snd frame_number players] in *.
  split; [eapply grows_trans; eassumption|].
  split; [congruence|].
  split.
  - eapply Forall_impl; [exact Hall|]. intros q Hq. exact (proj1 (Hg2 (id q)) Hq).
  - exists ts. split; [exact Hts|exact Hsub].
Qed.

Lemma decode_step_grows (st : Video.VideoProcessor * list FrameData)
  (frame : option Video.FrameInput) :
  Facts.grows (fst st)
    (fst (Video.decode_step sqrt cosine motion_summary pose_angles st frame)).
Proof.
  destruct st as [vp fd]. unfold Video.decode_step.
  destruct (negb _); [apply set_frame_count_grows|].
  destruct frame as [inp|]; [|apply set_frame_count_grows].
  destruct (process_frame_shape
              (Video.set_frame_count vp (S (Video.self_frame_count vp))) inp)
    as [Hg _].
  destruct (Video.process_frame _ _ _ _ _ _) as [vp1 f]. cbn [fst] in *.
  eapply grows_trans; [apply set_frame_count_grows|exact Hg].
Qed.

Lemma decode_steps_grow (video : list (option Video.FrameInput)) :
  forall st : Video.VideoProcessor * list FrameData,
    Facts.grows (fst st)
      (fst (fold_left (Video.decode_step sqrt cosine motion_summary pose_angles)
              video st)).
Proof.
  induction video as [|f video IH]; intros st; [apply grows_refl|].
  cbn [fold_left]. eapply grows_trans; [apply decode_step_grows|apply IH].
Qed.

(** A run of [process_video] loses nothing: every player in the store
    before the run is in it afterwards, and the occlusion history and the
    raw history of every track, and the list of ball positions, end the
    run as extensions of what they were (nothing is removed, reordered or
    cleared; an overlap once recorded stays recorded). *)
Theorem run_loses_nothing (vp : Video.VideoProcessor)
  (video : list (option Video.FrameInput)) (i : Z) :
  let vp' := fst (Video.run sqrt cosine motion_summary pose_angles vp video) in
  (is_Some (Video.self_players vp !! i) ->
   is_Some (Video.self_players vp' !! i)) /\
  Facts.extends (Facts.occlusion_of vp i) (Facts.occlusion_of vp' i) /\
  Facts.extends (Facts.history_of vp i) (Facts.history_of vp' i) /\
  Facts.extends (Video.self_ball_positions vp) (Video.self_ball_positions vp').
Proof.
  cbv zeta. unfold Video.run.
  pose proof (grows_trans _ _ _ (set_frame_count_grows vp 0)
                (decode_steps_grow video (Video.set_frame_count vp 0, [])))
    as Hg.
  exact (Hg i).
Qed.

End GrowthFacts.

(** ** The frame records of a run *)

Section FrameRecordFacts.

Variable sqrt : Q -> Q.
Variable cosine : Video.Features -> Video.Features -> Q.
Variable motion_summary : list (Q * Q) -> Video.Features.
Variable pose_angles : list (Q * Q * Q) -> Video.Features.

Local Abbreviation decode_step :=
  (Video.decode_step sqrt cosine motion_summary pose_angles).

(** What holds of the processor and the frame records after every
    iteration of the decoding loop. *)
Local Abbreviation recorded :=
  (fun st : Video.VideoProcessor * list FrameData =>
     Forall (fun f => (frame_number f mod 3 = 0)%nat /\
                      (0 < frame_number f <= Video.self_frame_count (fst st))%nat)
            (snd st) /\
     StronglySorted lt (map frame_number (snd st)) /\
     (3 * length (snd st) <= Video.self_frame_count (fst st))%nat /\
     Forall (fun f =>
               Forall (fun pd =>
                         is_Some (Video.self_players (fst st) !! id pd))
                      (players f))
            (snd st)).

Lemma decode_step_recorded (st : Video.VideoProcessor * list FrameData)
  (frame : option Video.FrameInput) :
  recorded st -> recorded (decode_step st frame).
Proof.
  destruct st as [vp fds]. cbn [fst snd]. intros (Hnum & Hsort & Hlen & Hids).
  assert (Hweak : Forall (fun f => (frame_number f mod 3 = 0)%nat /\
                                   (0 < frame_number f
                                    <= S (Video.self_frame_count vp))%nat) fds).
  { eapply Forall_impl; [exact Hnum|]. cbn. intros f [H3 Hb]. split; [exact H3|lia]. }
  unfold Video.decode_step.
  cbn [Video.self_frame_count Video.set_frame_count].
  destruct (S (Video.self_frame_count vp) mod 3 =? 0)%nat eqn:Hmod; cbn [negb].
  2:{ cbn [fst snd Video.self_frame_count Video.set_frame_count Video.self_players].
      repeat split; auto; lia. }
  apply Nat.eqb_eq in Hmod.
  destruct frame as [inp|].
  2:{ cbn [fst snd Video.self_frame_count Video.set_frame_count Video.self_players].
      repeat split; auto; lia. }
  destruct (process_frame_shape sqrt cosine motion_summary pose_angles
              (Video.set_frame_count vp (S (Video.self_frame_count vp))) inp)
    as (Hg & Hfn & Hall & _).
  pose proof (process_frame_frame_count sqrt cosine motion_summary pose_angles
                (Video.set_frame_count vp (S (Video.self_frame_count vp))) inp)
    as Hfc.
  destruct (Video.process_frame _ _ _ _ _ _) as [vp1 fd].
  cbn [fst snd Video.self_frame_count Video.set_frame_count] in *.
  rewrite Hfc. split; [|split; [|split]].
  - apply Forall_app. split; [exact Hweak|].
    constructor; [|constructor]. rewrite Hfn. split; [exact Hmod|lia].
  - rewrite map_app. apply StronglySorted_app_2.
    + intros n1 n2 H1 H2. cbn in H2. apply list_elem_of_singleton in H2.
      subst n2. rewrite Hfn.
      apply list_elem_of_fmap in H1 as (f & -> & Hf).
      pose proof (proj1 (Forall_forall _ _) Hnum f Hf) as [_ Hb]. lia.
    + exact Hsort.
    + cbn. repeat constructor.
  - rewrite length_app. cbn [length].
    pose proof (Nat.div_mod_eq (S (Video.self_frame_count vp)) 3) as Hdm.
    rewrite Hmod in Hdm. lia.
  - apply Forall_app. split; [|constructor; [exact Hall|constructor]].
    eapply Forall_impl; [exact Hids|]. cbn. intros f Hf.
    eapply Forall_impl; [exact Hf|]. cbn. intros pd Hpd.
    apply (proj1 (Hg (id pd))).
    exact Hpd.
Qed.

Lemma run_recorded (vp : Video.VideoProcessor)
  (video : list (option Video.FrameInput)) :
  recorded (Video.run sqrt cosine motion_summary pose_angles vp video).
Proof.
  unfold Video.run.
  apply (fold_left_invariant recorded).
  - intros st frame _. apply decode_step_recorded.
  - cbn. repeat split; auto; constructor.
Qed.

(** The frame records of a run are those of every third decoded frame:
    each [frame_number] is a positive multiple of 3 not above the number
    of decoded frames, the numbers increase strictly along the list, and
    there are at most a third as many records as decoded frames. *)
Theorem frame_numbers_strided (vp : Video.VideoProcessor)
  (video : list (option Video.FrameInput)) :
  let frames := snd (Video.run sqrt cosine motion_summary pose_angles vp video) in
  Forall (fun f => (frame_number f mod 3 = 0)%nat /\
                   (0 < frame_number f <= length video)%nat) frames /\
  StronglySorted lt (map frame_number frames) /\
  (3 * length frames <= length video)%nat.
Proof.
  cbv zeta.
  destruct (run_recorded vp video) as (Hnum & Hsort & Hlen & _).
  rewrite (run_frame_count sqrt cosine motion_summary pose_angles vp video)
    in Hnum, Hlen.
  auto.
Qed.

(** Every player entry of every frame record of [process_video] has a
    summary in [player_stats] under its id. *)
Theorem frame_players_have_stats (vp : Video.VideoProcessor)
  (video : list (option Video.FrameInput)) :
  let result :=
    snd (Video.process_video sqrt cosine motion_summary pose_angles vp video) in
  Forall (fun f =>
            Forall (fun pd => is_Some (Video.player_stats result !! id pd))
                   (players f))
         (Video.frames result).
Proof.
  cbv zeta. unfold Video.process_video.
  destruct (run_recorded vp video) as (_ & _ & _ & Hids).
  destruct (Video.run _ _ _ _ _ _) as [vp' frames_data].
  cbn [fst snd Video.frames Video.player_stats] in *.
  eapply Forall_impl; [exact Hids|]. cbn. intros f Hf.
  eapply Forall_impl; [exact Hf|]. cbn. intros pd Hpd.
  unfold Video.finalize. rewrite lookup_fmap.
  destruct Hpd as [p ->]. cbn. eauto.
Qed.

(** When the tracker delivers distinct track ids, the frame record built
    by [process_frame] lists every track at most once, and only tracks of
    that frame. *)
Theorem frame_record_ids_distinct (vp : Video.VideoProcessor)
  (inp : Video.FrameInput) :
  NoDup (map Video.track_id (Video.tracks inp)) ->
  let record :=
    snd (Video.process_frame sqrt cosine motion_summary pose_angles vp inp) in
  NoDup (map id (players record)) /\
  sublist (map id (players record)) (map Video.track_id (Video.tracks inp)).
Proof.
  intros Hnd. cbv zeta.
  destruct (process_frame_shape sqrt cosine motion_summary pose_angles vp inp)
    as (_ & _ & _ & ts & Hts & Hsub).
  rewrite Hts. split; [eapply sublist_NoDup; eassumption|exact Hsub].
Qed.

End FrameRecordFacts.

Lemma frame_record_ids_distinct_witness :
  let record :=
    snd (Video.process_frame Qsqrt Sample.cosine Sample.motion_summary
           Sample.pose_angles Video.VideoProcessor_init
           Sample.two_tracks_one_box) in
  NoDup (map id (players record)) /\
  sublist (map id (players record))
    (map Video.track_id (Video.tracks Sample.two_tracks_one_box)).
Proof.
  apply (frame_record_ids_distinct Qsqrt Sample.cosine Sample.motion_summary
           Sample.pose_angles).
  cbn. apply NoDup_cons_2; [|apply NoDup_singleton].
  intros H. apply list_elem_of_singleton in H. discriminate H.
Defined.

(** ** Running statistics of a player *)

Section RunningStatistics.

Variable sqrt : Q -> Q.
Variable cosine : Video.Features -> Video.Features -> Q.
Variable motion_summary : list (Q * Q) -> Video.Features.
Variable pose_angles : list (Q * Q * Q) -> Video.Features.
Hypothesis sqrt_nonneg : forall x, 0 <= sqrt x.

Local Abbreviation sane :=
  (fun p : Video.Player =>
     0 <= Video.total_distance p /\
     0 <= Video.avg_speed p /\
     Video.avg_speed p <= Video.max_speed p).

Lemma update_player_stats_sane (frame_count : nat) (p : Video.Player)
  (new_position : Q * Q) :
  sane p -> sane (Video._update_player_stats sqrt frame_count p new_position).
Proof.
  intros (Ht & Ha & Hm). unfold Video._update_player_stats.
  destruct (last (Video.positions p)) as [last_pos|]; cbn; [|auto].
  set (d := Video._calculate_distance sqrt last_pos new_position).
  assert (Hd : 0 <= d) by apply sqrt_nonneg.
  set (n := inject_Z (Z.of_nat (length (Video.positions p)))).
  assert (Hn : 0 <= n) by (subst n; unfold Qle; cbn; lia).
  assert (Hs : 0 <= d / 3) by (apply Qle_shift_div_l; lra).
  pose proof (py_max_ub_l (Video.max_speed p) (d / 3)) as Hl.
  pose proof (py_max_ub_r (Video.max_speed p) (d / 3)) as Hr.
  set (m := py_max (Video.max_speed p) (d / 3)) in *.
  split; [lra|]. split.
  - apply Qle_shift_div_l; [lra|]. nra.
  - apply Qle_shift_div_r; [lra|]. nra.
Qed.

(** In every state that occurs during processing every player's running
    statistics are consistent: the total distance and the average speed
    are not negative and the average speed does not exceed the maximum
    speed. *)
Theorem running_statistics_consistent (vp : Video.VideoProcessor) :
  Reach.reachable sqrt cosine motion_summary pose_angles vp ->
  forall (i : Z) (p : Video.Player),
    Video.self_players vp !! i = Some p ->
    0 <= Video.total_distance p /\
    0 <= Video.avg_speed p /\
    Video.avg_speed p <= Video.max_speed p.
Proof.
  intros Hreach.
  refine (reachable_inv sqrt cosine motion_summary pose_angles sane
            _ _ _ _ vp Hreach).
  - intros i c. cbn. repeat split; apply Qle_refl.
  - intros fc p c. apply update_player_stats_sane.
  - intros p f H. exact H.
  - intros p f H. exact H.
Qed.

End RunningStatistics.

Lemma running_statistics_consistent_witness :
  let vp :=
    fst (Video.run Qsqrt Sample.cosine Sample.motion_summary Sample.pose_angles
           Video.VideoProcessor_init Sample.one_pixel_move) in
  exists p : Video.Player,
    Video.self_players vp !! 1%Z = Some p /\
    0 <= Video.total_distance p /\
    0 <= Video.avg_speed p /\
    Video.avg_speed p <= Video.max_speed p.
Proof.
  cbv zeta. eexists.
  refine ((fun Hp =>
             conj Hp
               (running_statistics_consistent Qsqrt Sample.cosine
                  Sample.motion_summary Sample.pose_angles Qsqrt_nonneg _
                  (run_reachable Qsqrt Sample.cosine Sample.motion_summary
                     Sample.pose_angles Video.VideoProcessor_init
                     Sample.one_pixel_move
                     (Reach.reach_init Qsqrt Sample.cosine Sample.motion_summary
                        Sample.pose_angles))
                  1%Z _ Hp)) _).
  vm_compute. reflexivity.
Defined.

(** ** Detections *)

Lemma dict_set_Forall {K V : Type} (eqb : K -> K -> bool) (P : K * V -> Prop)
  (k : K) (v : V) (d : list (K * V)) :
  (forall k', eqb k k' = true -> P (k', v)) ->
  P (k, v) ->
  Forall P d -> Forall P (Video.dict_set eqb k v d).
Proof.
  intros Hsame Hnew. induction 1 as [|[k' v'] d Hk Hd IH]; cbn.
  - constructor; [exact Hnew|constructor].
  - destruct (eqb k k') eqn:E.
    + constructor; [apply Hsame, E|exact Hd].
    + constructor; [exact Hk|exact IH].
Qed.

Lemma yolo_boxes_current_entries (boxes : list Video.YoloBox) :
  Forall (fun kv : Box * Video.BoxData =>
            exists b : Video.YoloBox,
              In b boxes /\
              (Video.cls b = 0%Z \/ Video.cls b = 32%Z) /\
              snd kv = Facts.box_data_of b /\
              Video.box_eqb (Video.xyxy b) (fst kv) = true)
         (Video.yolo_boxes_current_of boxes).
Proof.
  unfold Video.yolo_boxes_current_of.
  assert (H : forall (seen rest : list Video.YoloBox) d,
             Forall (fun kv : Box * Video.BoxData =>
                       exists b, In b seen /\
                         (Video.cls b = 0%Z \/ Video.cls b = 32%Z) /\
                         snd kv = Facts.box_data_of b /\
                         Video.box_eqb (Video.xyxy b) (fst kv) = true) d ->
             Forall (fun kv : Box * Video.BoxData =>
                       exists b, In b (seen ++ rest) /\
                         (Video.cls b = 0%Z \/ Video.cls b = 32%Z) /\
                         snd kv = Facts.box_data_of b /\
                         Video.box_eqb (Video.xyxy b) (fst kv) = true)
                    (fold_left Video.yolo_step rest d)).
  { intros seen rest. revert seen.
    induction rest as [|b rest IH]; intros seen d Hd.
    - rewrite app_nil_r. exact Hd.
    - cbn [fold_left].
      replace (seen ++ b :: rest) with ((seen ++ [b]) ++ rest)
        by (rewrite <- app_assoc; reflexivity).
      apply IH. unfold Video.yolo_step.
      assert (Hd' : Forall (fun kv : Box * Video.BoxData =>
                              exists b0, In b0 (seen ++ [b]) /\
                                (Video.cls b0 = 0%Z \/ Video.cls b0 = 32%Z) /\
                                snd kv = Facts.box_data_of b0 /\
                                Video.box_eqb (Video.xyxy b0) (fst kv) = true) d).
      { eapply Forall_impl; [exact Hd|]. cbn.
        intros kv (b0 & Hin & Hrest). exists b0.
        split; [apply in_or_app; auto|exact Hrest]. }
      destruct ((Video.cls b =? 0)%Z || (Video.cls b =? 32)%Z) eqn:Hc;
        [|exact Hd'].
      assert (Hcls : Video.cls b = 0%Z \/ Video.cls b = 32%Z).
      { apply orb_prop in Hc as [Hc|Hc]; apply Z.eqb_eq in Hc; auto. }
      apply dict_set_Forall; [| |exact Hd'].
      + intros k' Hk'. exists b.
        split; [apply in_or_app; right; left; reflexivity|].
        split; [exact Hcls|]. split; [reflexivity|exact Hk'].
      + exists b. split; [apply in_or_app; right; left; reflexivity|].
        split; [exact Hcls|]. split; [reflexivity|].
        cbn. destruct (Video.xyxy b) as [[[x1 y1] x2] y2]. cbn.
        rewrite !Qeq_bool_refl. reflexivity. }
  apply (H [] boxes []). constructor.
Qed.

Section DetectionFacts.

Variable sqrt : Q -> Q.
Variable cosine : Video.Features -> Video.Features -> Q.
Variable motion_summary : list (Q * Q) -> Video.Features.
Variable pose_angles : list (Q * Q * Q) -> Video.Features.

(** The box that the track loop chooses for a track is always the data of
    a box that the detector delivered for this frame with class 0
    (person) or 32 (ball), whatever the class of the track. *)
Theorem best_box_is_detection (feature_history : gmap Z Video.Features)
  (track_id : Z) (ltrb : Box) (boxes : list Video.YoloBox)
  (best : Video.BoxData) :
  Video.find_best_box cosine feature_history track_id ltrb
    (Video.yolo_boxes_current_of boxes) = Some best ->
  exists b : Video.YoloBox,
    In b boxes /\
    (Video.cls b = 0%Z \/ Video.cls b = 32%Z) /\
    best = Facts.box_data_of b.
Proof.
  intros Hbest.
  pose proof (find_best_box_searched cosine feature_history track_id ltrb
                (Video.yolo_boxes_current_of boxes)) as H.
  rewrite Hbest in H. destruct H as (pre & k & post & Heq & _).
  pose proof (yolo_boxes_current_entries boxes) as Hall.
  rewrite Heq in Hall. apply Forall_app in Hall as [_ Hall].
  apply Forall_cons in Hall as [(b & Hin & Hcls & Hd & _) _].
  exists b. auto.
Qed.

Lemma no_boxes_no_change (tracks : list Video.Track) :
  forall st : Video.VideoProcessor * Video.FrameLocal,
    fold_left (Video.process_track sqrt cosine motion_summary []) tracks st = st.
Proof.
  induction tracks as [|t tracks IH]; intros [vp loc]; [reflexivity|].
  cbn [fold_left].
  assert (E : Video.process_track sqrt cosine motion_summary [] (vp, loc) t
              = (vp, loc)).
  { unfold Video.process_track.
    destruct (negb (Video.is_confirmed t)); reflexivity. }
  rewrite E. apply IH.
Qed.

(** A frame for which the detector delivers no person and no ball changes
    nothing: whatever tracks the tracker reports, the processor is left
    as it was (no prediction is made for the unmatched tracks) and the
    frame record has no player, no ball and no pose. *)
Theorem frame_without_detections (vp : Video.VideoProcessor)
  (inp : Video.FrameInput) :
  Forall (fun b => Video.cls b <> 0%Z /\ Video.cls b <> 32%Z)
         (Video.yolo_boxes inp) ->
  Video.process_frame sqrt cosine motion_summary pose_angles vp inp =
  (vp, {| frame_number := Video.self_frame_count vp;
          players := []; ball := None; poses := [] |}).
Proof.
  intros Hcls. unfold Video.process_frame.
  assert (E : Video.yolo_boxes_current_of (Video.yolo_boxes inp) = []).
  { unfold Video.yolo_boxes_current_of.
    induction Hcls as [|b boxes [H0 H32] _ IH]; [reflexivity|].
    cbn [fold_left]. unfold Video.yolo_step at 2.
    apply Z.eqb_neq in H0, H32. rewrite H0, H32. exact IH. }
  rewrite E, no_boxes_no_change. reflexivity.
Qed.

End DetectionFacts.

Lemma best_box_is_detection_witness :
  exists b : Video.YoloBox,
    In b [Sample.person_box (0, 0, 10, 20)] /\
    (Video.cls b = 0%Z \/ Video.cls b = 32%Z) /\
    {| Video.bd_box := (0, 0, 10, 20); Video.bd_conf := 9 # 10;
       Video.bd_cls := 0; Video.bd_features := None |} = Facts.box_data_of b.
Proof.
  apply (best_box_is_detection Sample.cosine ∅ 1 (0, 0, 10, 20)
           [Sample.person_box (0, 0, 10, 20)]).
  vm_compute. reflexivity.
Defined.

Lemma frame_without_detections_witness :
  let vp :=
    fst (Video.run Qsqrt Sample.cosine Sample.motion_summary Sample.pose_angles
           Video.VideoProcessor_init (Sample.standing 2)) in
  Video.process_frame Qsqrt Sample.cosine Sample.motion_summary
    Sample.pose_angles vp Sample.nothing_detected =
  (vp, {| frame_number := Video.self_frame_count vp;
          players := []; ball := None; poses := [] |}).
Proof.
  apply (frame_without_detections Qsqrt Sample.cosine Sample.motion_summary
           Sample.pose_angles).
  constructor.
Defined.

(** ** The scores of player_analyzer.py *)

Section ScoreFacts.

Variable sqrt : Q -> Q.
Hypothesis sqrt_nonneg : forall x, 0 <= sqrt x.


End ScoreFacts.


(** ** The frames of one player *)

Lemma restrict_players_nil (i : Z) (f : FrameData) :
  players (PlayerAnalyzer.restrict i f) = [] <-> Facts.seen i f = false.
Proof.
  unfold PlayerAnalyzer.restrict, Facts.seen. cbn [players].
  induction (players f) as [|p ps IH]; cbn; [tauto|].
  destruct (id p =? i)%Z; cbn; [split; discriminate|exact IH].
Qed.

Lemma extract_loop (i : Z) (frames : list FrameData) :
  forall acc : list FrameData,
    fold_left (PlayerAnalyzer.extract_step i) frames acc =
    acc ++ map (PlayerAnalyzer.restrict i) (List.filter (Facts.seen i) frames).
Proof.
  induction frames as [|f frames IH]; intros acc; cbn [fold_left List.filter map].
  - rewrite app_nil_r. reflexivity.
  - rewrite IH. unfold PlayerAnalyzer.extract_step.
    pose proof (restrict_players_nil i f) as Hnil.
    destruct (players (PlayerAnalyzer.restrict i f)) as [|p ps] eqn:E.
    + rewrite (proj1 Hnil eq_refl). reflexivity.
    + destruct (Facts.seen i f); [|destruct Hnil as [_ Hnil]; discriminate Hnil;
                                   reflexivity].
      cbn [map]. rewrite <- app_assoc. reflexivity.
Qed.

(** [_extract_player_frames] returns, in their order, the frames in which
    the player has an entry, each with its player list cut down to the
    entries of that player and everything else kept.  So every returned
    frame has a non-empty player list with the requested id only, there
    are as many as frames that show the player, and their frame numbers
    are a subsequence of the given ones. *)
Theorem extract_player_frames_spec (frames : list FrameData) (i : Z) :
  let player_frames := PlayerAnalyzer._extract_player_frames frames i in
  player_frames =
    map (PlayerAnalyzer.restrict i) (List.filter (Facts.seen i) frames) /\
  length player_frames = Spec.observed_frames i frames /\
  Forall (fun f => players f <> [] /\
                   Forall (fun p => id p = i) (players f)) player_frames /\
  sublist (map frame_number player_frames) (map frame_number frames).
Proof.
  cbv zeta. unfold PlayerAnalyzer._extract_player_frames.
  rewrite extract_loop. cbn [app]. split; [reflexivity|].
  split; [|split].
  - rewrite length_map. unfold Spec.observed_frames, Spec.count_if.
    reflexivity.
  - apply List.Forall_forall. intros g Hg.
    apply in_map_iff in Hg as (f & <- & Hf).
    apply filter_In in Hf as [_ Hseen]. split.
    + intros Hnil. apply restrict_players_nil in Hnil. congruence.
    + cbn [PlayerAnalyzer.restrict players].
      apply List.Forall_forall. intros p Hp.
      apply filter_In in Hp as [_ Hp]. apply Z.eqb_eq, Hp.
  - induction frames as [|f frames IH]; [constructor|].
    cbn [List.filter map]. destruct (Facts.seen i f); cbn [map].
    + apply sublist_skip, IH.
    + apply sublist_cons, IH.
Qed.

Section SpeedScoreFacts.

Variable sqrt : Q -> Q.
Hypothesis sqrt_nonneg : forall x, 0 <= sqrt x.

Lemma max_speed_nonneg (frames : list FrameData) :
  0 <= Physical.max_speed (Physical._calculate_speeds sqrt frames).
Proof.
  unfold Physical._calculate_speeds, Physical.speeds_loop.
  destruct (speeds_loop_counts sqrt (consecutive frames)
              {| Physical.sa_speeds := []; Physical.sa_walking := 0;
                 Physical.sa_jogging := 0; Physical.sa_running := 0;
                 Physical.sa_sprinting := 0 |}) as [Hspeeds _].
  cbn [Physical.sa_speeds app] in Hspeeds. rewrite Hspeeds.
  cbn [Physical.max_speed].
  destruct (map _ (consecutive frames)) as [|s rest] eqn:E;
    [apply Qle_refl|].
  destruct (Qmaximum_spec rest s) as [Hin _].
  rewrite <- E in Hin. apply in_map_iff in Hin as (pc & <- & _).
  apply Qmult_le_0_compat; [|discriminate].
  apply frame_distance_nonneg, sqrt_nonneg.
Qed.

(** [_calculate_speed_score] of the physical analysis of a frame sequence
    lies in [[0, 100]], and it is 100 exactly when there are at least 20
    sprints and the maximal speed is at least 9. *)
Theorem speed_score_bounds (frames : list FrameData) :
  let analysis := Physical.analyze sqrt frames in
  let score := PlayerAnalyzer._calculate_speed_score analysis in
  0 <= score /\ score <= 100 /\
  (score == 100 <->
   (20 <= Physical.total_sprints (Physical.sprints analysis))%nat /\
   9 <= Physical.max_speed (Physical.speed analysis)).
Proof.
  cbv zeta.
  assert (Hms : 0 <= Physical.max_speed
                       (Physical.speed (Physical.analyze sqrt frames))).
  { destruct frames as [|f frames]; [apply Qle_refl|].
    cbn [Physical.analyze Physical.speed]. apply max_speed_nonneg. }
  unfold PlayerAnalyzer._calculate_speed_score.
  set (ms := Physical.max_speed _) in *.
  set (n := Physical.total_sprints _).
  assert (Hn : 0 <= inject_Z (Z.of_nat n)) by (unfold Qle; cbn; lia).
  assert (Hn20 : 20 <= inject_Z (Z.of_nat n) <-> (20 <= n)%nat).
  { unfold Qle. cbn. lia. }
  assert (Hdn : inject_Z (Z.of_nat n) / 20 == inject_Z (Z.of_nat n) * (1 # 20))
    by (field).
  assert (Hdm : ms / 9 == ms * (1 # 9)) by (field).
  destruct (py_min_cases_le 1 (inject_Z (Z.of_nat n) / 20)) as [[Hs ->]|[Hs ->]];
    destruct (py_min_cases_le 1 (ms / 9)) as [[Hm ->]|[Hm ->]];
    rewrite ?Hdn, ?Hdm in *;
    (split; [lra|]); (split; [lra|]);
    rewrite <- Hn20; split; intros H; try split; try lra;
    destruct H; lra.
Qed.

End SpeedScoreFacts.

Lemma speed_score_bounds_witness :
  let analysis := Physical.analyze Qsqrt Spec.scenario_A in
  let score := PlayerAnalyzer._calculate_speed_score analysis in
  0 <= score /\ score <= 100 /\
  (score == 100 <->
   (20 <= Physical.total_sprints (Physical.sprints analysis))%nat /\
   9 <= Physical.max_speed (Physical.speed analysis)).
Proof.
  exact (speed_score_bounds Qsqrt Qsqrt_nonneg Spec.scenario_A).
Defined.

(** ** The intensity buckets of the team distance *)

Section TeamIntensity.

Variable sqrt : Q -> Q.
Hypothesis sqrt_proper : forall x y, x == y -> sqrt x == sqrt y.

Let all_low (d : Team.DistanceData) : Prop :=
  Team.high_intensity_distance d = 0 /\
  Team.medium_intensity_distance d = 0 /\
  Team.total_distance d == Team.low_intensity_distance d.

Lemma same_player_is_slow (player next_player : PlayerData) :
  Team._is_same_player sqrt player next_player = true ->
  Team._calculate_player_movement sqrt (position player) (position next_player)
  * Team.pixels_to_meters * 30 < 6 # 10.
Proof.
  unfold Team._is_same_player, Team._calculate_player_movement,
    Team.pixels_to_meters.
  intros H. apply Qltb_lt in H.
  rewrite (sqrt_proper
             ((fst (position next_player) - fst (position player)) ^ 2
              + (snd (position next_player) - snd (position player)) ^ 2)
             ((fst (position player) - fst (position next_player)) ^ 2
              + (snd (position player) - snd (position next_player)) ^ 2))
    by ring.
  lra.
Qed.

Lemma next_player_step_all_low (player next_player : PlayerData)
  (acc : Team.DistanceData) :
  all_low acc -> all_low (Team.next_player_step sqrt player acc next_player).
Proof.
  intros (Hh & Hm & Ht). unfold Team.next_player_step.
  destruct (Team._is_same_player sqrt player next_player) eqn:Hsame;
    [|repeat split; assumption].
  pose proof (same_player_is_slow player next_player Hsame) as Hslow.
  destruct (Qltb (55 # 10) _) eqn:H1; [apply Qltb_lt in H1; lra|].
  destruct (Qltb (35 # 10) _) eqn:H2; [apply Qltb_lt in H2; lra|].
  split; [exact Hh|]. split; [exact Hm|].
  cbn [Team.total_distance Team.low_intensity_distance]. rewrite Ht.
  reflexivity.
Qed.

(** The team [_calculate_distance] never counts a step as high or medium
    intensity: a step is only counted between two entries that
    [_is_same_player] accepts, that is less than 0.2 apart, and such a step
    has a speed below 0.6, far under the 3.5 of the medium bucket.  Both
    buckets stay 0 and the total is the low-intensity distance. *)
Theorem team_distance_all_low (frames_data : list FrameData) :
  let d := Team._calculate_distance sqrt frames_data in
  Team.high_intensity_distance d = 0 /\
  Team.medium_intensity_distance d = 0 /\
  Team.total_distance d == Team.low_intensity_distance d.
Proof.
  cbv zeta. unfold Team._calculate_distance.
  apply (fold_left_invariant all_low);
    [|repeat split; reflexivity].
  intros acc cn _ Hacc. unfold Team.frame_step.
  apply (fold_left_invariant all_low); [|exact Hacc].
  intros acc1 player _ Hacc1. unfold Team.player_step.
  apply (fold_left_invariant all_low); [|exact Hacc1].
  intros acc2 next_player _ Hacc2.
  apply next_player_step_all_low, Hacc2.
Qed.

End TeamIntensity.

Lemma team_distance_all_low_witness :
  let d := Team._calculate_distance (fun x => Qsqrt (Qred x)) Spec.scenario_A in
  Team.high_intensity_distance d = 0 /\
  Team.medium_intensity_distance d = 0 /\
  Team.total_distance d == Team.low_intensity_distance d.
Proof.
  apply (team_distance_all_low (fun x => Qsqrt (Qred x))).
  intros x y Hxy. rewrite (Qred_complete x y Hxy). reflexivity.
Defined.
